(** * Portfolio tracker: price resolution and portfolio metrics

    A shallow embedding of [app/price_service.py] and
    [app/portfolio_service.py], and the properties of the price resolver
    (cache, fallback, batch) and of the metrics aggregator. *)

From Stdlib Require Import ZArith Lia Bool Ascii.
From stdpp Require Import base option list sorting gmap strings fin_maps.

Local Open Scope Z_scope.

(** ** Python's [decimal.Decimal] under the default context

    A finite decimal is a signed coefficient and an exponent; its value is
    [coef * 10 ^ expo].  Every arithmetic result is rounded to [prec = 28]
    significant digits, ties to even, as the default context of the
    [decimal] module prescribes.  The exponent limits of the context
    (Emax = 999999, Emin = -999999) are not modelled, nor are NaN, the
    infinities and the sign of zero.  [add] computes the exact sum and
    rounds it, which is the value CPython returns; the pair it returns can
    keep a different number of trailing zeros than CPython's only when an
    operand is zero or the exponents lie more than [prec] apart. *)
Module Decimal.

Record t : Set := mk { coef : Z; expo : Z }.

Definition prec : Z := 28.

Definition zero : t := mk 0 0.
Definition hundred : t := mk 100 0.

(** [len(str(n))] for a natural number [n]. *)
Fixpoint ndigits_fuel (fuel : nat) (n : Z) : Z :=
  match fuel with
  | O => 1
  | S f => if n <? 10 then 1 else 1 + ndigits_fuel f (n / 10)
  end.

Definition ndigits (n : Z) : Z := ndigits_fuel (Z.to_nat (Z.log2 n)) n.

(** Drop the last [k] digits of [n], rounding half to even. *)
Definition round_half_even (n k : Z) : Z :=
  let p := 10 ^ k in
  let q := n / p in
  let r := n mod p in
  if (p <? 2 * r) || ((2 * r =? p) && Z.odd q) then q + 1 else q.

(** [Decimal._fix]: round to the precision of the context. *)
Definition fix_ (d : t) : t :=
  let n := Z.abs (coef d) in
  let len := ndigits n in
  if (coef d =? 0) || (len <=? prec) then d
  else
    let k := len - prec in
    let q := round_half_even n k in
    if prec <? ndigits q
    then mk (Z.sgn (coef d) * (q / 10)) (expo d + k + 1)
    else mk (Z.sgn (coef d) * q) (expo d + k).

Definition neg (a : t) : t := mk (- coef a) (expo a).

Definition mul (a b : t) : t :=
  fix_ (mk (coef a * coef b) (expo a + expo b)).

Definition add (a b : t) : t :=
  let e := Z.min (expo a) (expo b) in
  fix_ (mk (coef a * 10 ^ (expo a - e) + coef b * 10 ^ (expo b - e)) e).

Definition sub (a b : t) : t := add a (neg b).

(** The loop of [__truediv__] that removes trailing zeros of an exact
    quotient while the exponent is below the ideal one. *)
Fixpoint strip_zeros (fuel : nat) (q e ideal : Z) : Z * Z :=
  match fuel with
  | O => (q, e)
  | S f =>
      if (e <? ideal) && (q mod 10 =? 0)
      then strip_zeros f (q / 10) (e + 1) ideal
      else (q, e)
  end.

(** [a / b]; [None] stands for the DivisionByZero (or, for [0 / 0],
    InvalidOperation) exception. *)
Definition div (a b : t) : option t :=
  if coef b =? 0 then None
  else if coef a =? 0 then Some (mk 0 (expo a - expo b))
  else
    let x := Z.abs (coef a) in
    let y := Z.abs (coef b) in
    let sgn := Z.sgn (coef a) * Z.sgn (coef b) in
    let shift := ndigits y - ndigits x + prec + 1 in
    let e := expo a - expo b - shift in
    let '(q, r) :=
      if 0 <=? shift then Z.div_eucl (x * 10 ^ shift) y
      else Z.div_eucl x (y * 10 ^ (- shift)) in
    let '(q', e') :=
      if r =? 0
      then strip_zeros (Z.to_nat (expo a - expo b - e)) q e (expo a - expo b)
      else (if q mod 5 =? 0 then q + 1 else q, e) in
    Some (fix_ (mk (sgn * q') e')).

(** Comparison pads the coefficients to the smaller exponent. *)
Definition align (a b : t) : Z * Z :=
  let e := Z.min (expo a) (expo b) in
  (coef a * 10 ^ (expo a - e), coef b * 10 ^ (expo b - e)).

Definition ltb (a b : t) : bool := fst (align a b) <? snd (align a b).
Definition gtb (a b : t) : bool := ltb b a.
Definition eqb (a b : t) : bool := fst (align a b) =? snd (align a b).

Definition lt (a b : t) : Prop := ltb a b = true.
Definition le (a b : t) : Prop := ltb b a = false.
Definition eq (a b : t) : Prop := eqb a b = true.

(** The coefficient of [a] padded to the exponent [e <= expo a]. *)
Definition scaled (a : t) (e : Z) : Z := coef a * 10 ^ (expo a - e).

End Decimal.

#[global] Arguments Decimal.fix_ : simpl never.
#[global] Arguments Decimal.mul : simpl never.
#[global] Arguments Decimal.add : simpl never.
#[global] Arguments Decimal.sub : simpl never.
#[global] Arguments Decimal.div : simpl never.
#[global] Arguments Decimal.ltb : simpl never.
#[global] Arguments Decimal.gtb : simpl never.


(** ** Common types *)

(** A [datetime] is a number of microseconds on the time line, the
    resolution of Python's [datetime]. *)
Definition Time : Set := Z.

(** [timedelta.total_seconds() < n] for an integer [n]: the float quotient
    of the microseconds by 10^6 is correctly rounded, so the comparison is
    the one of the microseconds with [n * 10^6]. *)
Definition seconds (n : Z) : Z := n * 1000000.

(** The result of a call that may raise an [Exception]. *)
Inductive outcome (A : Type) : Type :=
| Returns (a : A)
| Raises.
Arguments Returns {A} a.
Arguments Raises {A}.

(** [dict.get(key)] on a dictionary whose values may be [None]. *)
Definition dict_get {V : Type} (d : gmap string (option V)) (key : string) : option V :=
  match d !! key with
  | Some v => v
  | None => None
  end.

(** [str.upper] belongs to the Python library and maps Unicode text by the
    case tables of Unicode: the operations that call it take it as their
    parameter [upper], and what is proved of them holds of every function
    in its place.  On text made of ASCII characters [str.upper] changes the
    letters [a-z] to [A-Z] and nothing else, which is [ascii_upper]; the
    examples use [ascii_upper] on such text only. *)
Definition ascii_upper_char (c : ascii) : ascii :=
  let n := nat_of_ascii c in
  if ((97 <=? n) && (n <=? 122))%nat then ascii_of_nat (n - 32) else c.

Fixpoint ascii_upper (s : string) : string :=
  match s with
  | EmptyString => EmptyString
  | String c s' => String (ascii_upper_char c) (ascii_upper s')
  end.

(** ** Data model ([app/models.py]) *)

Inductive AssetType : Set := STOCK | CRYPTOCURRENCY.

Module Portfolio.
Record t : Set := mk {
  id : option Z;
  name : string;
  description : string;
  created_at : Time;
  updated_at : Time
}.
End Portfolio.

Module Holding.
Record t : Set := mk {
  id : option Z;
  portfolio_id : Z;
  symbol : string;
  asset_type : AssetType;
  quantity : Decimal.t;
  purchase_price : Decimal.t;
  purchase_date : Time;
  notes : string;
  created_at : Time;
  updated_at : Time
}.
End Holding.

Module PriceHistory.
Record t : Set := mk {
  id : option Z;
  symbol : string;
  price : Decimal.t;
  timestamp : Time;
  source : string
}.

(** The constraint of [price: Decimal = Field(gt=0, decimal_places=8)].  A
    table model does not check it when a row is built. *)
Definition price_gt_0 (row : t) : bool := Decimal.gtb (price row) Decimal.zero.
End PriceHistory.

Module PortfolioUpdate.
Record t : Set := mk {
  name : option string;
  description : option string
}.
End PortfolioUpdate.

Module HoldingCreate.
Record t : Set := mk {
  portfolio_id : Z;
  symbol : string;
  asset_type : AssetType;
  quantity : Decimal.t;
  purchase_price : Decimal.t;
  purchase_date : option Time;
  notes : string
}.
End HoldingCreate.

Module HoldingUpdate.
Record t : Set := mk {
  symbol : option string;
  asset_type : option AssetType;
  quantity : option Decimal.t;
  purchase_price : option Decimal.t;
  purchase_date : option Time;
  notes : option string
}.
End HoldingUpdate.

Module HoldingWithMetrics.
Record t : Set := mk {
  id : Z;
  portfolio_id : Z;
  symbol : string;
  asset_type : AssetType;
  quantity : Decimal.t;
  purchase_price : Decimal.t;
  purchase_date : Time;
  notes : string;
  created_at : Time;
  updated_at : Time;
  current_price : option Decimal.t;
  current_value : option Decimal.t;
  total_cost : option Decimal.t;
  absolute_return : option Decimal.t;
  percentage_return : option Decimal.t;
  last_updated : option Time
}.
End HoldingWithMetrics.

Module PortfolioSummary.
Record t : Set := mk {
  portfolio_id : Z;
  portfolio_name : string;
  total_holdings : Z;
  total_cost : Decimal.t;
  total_current_value : Decimal.t;
  total_absolute_return : Decimal.t;
  total_percentage_return : Decimal.t;
  best_performer : option string;
  worst_performer : option string;
  last_updated : Time
}.
End PortfolioSummary.

(** ** Metrics aggregator ([app/portfolio_service.py]) *)

Module Metrics.

(** [(a / b) * Decimal("100")] where the caller has tested [b > 0].  The
    division cannot raise there ([guarded_div_Some] below); the [None]
    branch of [Decimal.div] is dead. *)
Definition percent_of (a b : Decimal.t) : option Decimal.t :=
  match Decimal.div a b with
  | Some q => Some (Decimal.mul q Decimal.hundred)
  | None => None
  end.

(** The body of the loop of [get_holdings_with_metrics]; [None] is the
    [continue] taken for a holding without an id.  [now] is the reading
    of the clock stored in [last_updated]. *)
Definition holding_with_metrics (prices : gmap string (option Decimal.t))
    (now : Time) (holding : Holding.t) : option HoldingWithMetrics.t :=
  match Holding.id holding with
  | None => None
  | Some hid =>
      let current_price := dict_get prices (Holding.symbol holding) in
      let total_cost := Decimal.mul (Holding.quantity holding) (Holding.purchase_price holding) in
      let '(current_value, absolute_return, percentage_return) :=
        match current_price with
        | Some cp =>
            let current_value := Decimal.mul (Holding.quantity holding) cp in
            let absolute_return := Decimal.sub current_value total_cost in
            (Some current_value, Some absolute_return,
             if Decimal.gtb total_cost Decimal.zero
             then percent_of absolute_return total_cost
             else None)
        | None => (None, None, None)
        end in
      Some (HoldingWithMetrics.mk hid
              (Holding.portfolio_id holding) (Holding.symbol holding)
              (Holding.asset_type holding) (Holding.quantity holding)
              (Holding.purchase_price holding) (Holding.purchase_date holding)
              (Holding.notes holding) (Holding.created_at holding)
              (Holding.updated_at holding)
              current_price current_value (Some total_cost)
              absolute_return percentage_return (Some now))
  end.

(** Lines 152-191: the loop over the holdings of the portfolio. *)
Definition holdings_with_metrics (prices : gmap string (option Decimal.t))
    (now : Time) (holdings : list Holding.t) : list HoldingWithMetrics.t :=
  omap (holding_with_metrics prices now) holdings.

(** The first loop of [get_portfolio_summary]: both totals in one pass. *)
Definition add_totals (acc : Decimal.t * Decimal.t) (h : HoldingWithMetrics.t)
    : Decimal.t * Decimal.t :=
  let total_cost :=
    match HoldingWithMetrics.total_cost h with
    | Some c => Decimal.add (fst acc) c
    | None => fst acc
    end in
  let total_current_value :=
    match HoldingWithMetrics.current_value h with
    | Some v => Decimal.add (snd acc) v
    | None => snd acc
    end in
  (total_cost, total_current_value).

Definition totals (hs : list HoldingWithMetrics.t) : Decimal.t * Decimal.t :=
  fold_left add_totals hs (Decimal.zero, Decimal.zero).

(** The second loop: the incumbents of the best and worst performer. *)
Record Performers : Set := mkPerformers {
  best_performer : option string;
  worst_performer : option string;
  best_return : option Decimal.t;
  worst_return : option Decimal.t
}.

Definition no_performers : Performers := mkPerformers None None None None.

Definition scan_step (acc : Performers) (holding : HoldingWithMetrics.t) : Performers :=
  match HoldingWithMetrics.percentage_return holding with
  | None => acc
  | Some pr =>
      let acc1 :=
        if match best_return acc with
           | None => true
           | Some b => Decimal.gtb pr b
           end
        then mkPerformers (Some (HoldingWithMetrics.symbol holding)) (worst_performer acc)
                          (Some pr) (worst_return acc)
        else acc in
      if match worst_return acc1 with
         | None => true
         | Some w => Decimal.ltb pr w
         end
      then mkPerformers (best_performer acc1) (Some (HoldingWithMetrics.symbol holding))
                        (best_return acc1) (Some pr)
      else acc1
  end.

Definition scan (hs : list HoldingWithMetrics.t) : Performers :=
  fold_left scan_step hs no_performers.

(** Lines 201-254 of [get_portfolio_summary], once the portfolio and its
    valued holdings are at hand. *)
Definition portfolio_summary (portfolio_id : Z) (portfolio_name : string)
    (now : Time) (holdings_with_metrics : list HoldingWithMetrics.t)
    : PortfolioSummary.t :=
  match holdings_with_metrics with
  | [] =>
      PortfolioSummary.mk portfolio_id portfolio_name 0
        Decimal.zero Decimal.zero Decimal.zero Decimal.zero None None now
  | _ =>
      let '(total_cost, total_current_value) := totals holdings_with_metrics in
      let total_absolute_return := Decimal.sub total_current_value total_cost in
      let total_percentage_return :=
        if Decimal.gtb total_cost Decimal.zero
        then default Decimal.zero (percent_of total_absolute_return total_cost)
        else Decimal.zero in
      let p := scan holdings_with_metrics in
      PortfolioSummary.mk portfolio_id portfolio_name
        (Z.of_nat (length holdings_with_metrics))
        total_cost total_current_value total_absolute_return
        total_percentage_return (best_performer p) (worst_performer p) now
  end.

End Metrics.

(** ** The quote provider, an external collaborator

    What [yf.Ticker(symbol)], [ticker.info] and [ticker.history(period="1d")]
    answer is not decided by this program: each answer is an input of the
    model. *)

(** A value found in the provider's answer, seen through
    [Decimal(str(value))]: [None], whose text [Decimal] rejects; a finite
    number; any other value whose text [Decimal] rejects with
    [InvalidOperation] (["N/A"], a dictionary, ...).  A value whose text
    [Decimal] reads as NaN or as an infinity (a float [nan], the missing
    close of a pandas frame) is not among the answers modelled: the
    decimals of this development are the finite ones. *)
Inductive RawValue : Set :=
| RNone                     (** [None] *)
| RNumber (d : Decimal.t)   (** a number whose text is the finite decimal [d] *)
| RMalformed.               (** a value whose text [Decimal] rejects *)

Definition to_decimal (v : RawValue) : outcome Decimal.t :=
  match v with
  | RNumber d => Returns d
  | RNone | RMalformed => Raises
  end.

Module Ticker.
Record t : Type := mk {
  info : outcome (gmap string RawValue);
  (** the [Close] column of the frame, oldest row first *)
  history : outcome (list RawValue)
}.
End Ticker.

(** ** The persistence layer

    Modelled from the spec: [app/database.py] ([get_session], the tables
    behind the SQLModel classes) is not part of the sources at hand.  The
    store keeps portfolios and holdings under synthetic integer identifiers
    and the quotes as an append-only history; listings of holdings are
    ordered by symbol.  It enforces the foreign key that [models.py]
    declares from a holding to its portfolio, and among quotes of equal
    timestamp it answers a latest-quote query with a row of its own
    choice. *)
Module Database.

Record t : Type := mk {
  portfolios : list Portfolio.t;
  holdings : list Holding.t;
  price_history : list PriceHistory.t;
  next_holding_id : Z
}.

Definition with_holdings (hs : list Holding.t) (n : Z) (db : t) : t :=
  mk (portfolios db) hs (price_history db) n.

Definition with_price_history (ph : list PriceHistory.t) (db : t) : t :=
  mk (portfolios db) (holdings db) ph (next_holding_id db).

Definition with_portfolios (ps : list Portfolio.t) (db : t) : t :=
  mk ps (holdings db) (price_history db) (next_holding_id db).

(** [session.get(Portfolio, portfolio_id)] *)
Definition get_portfolio (portfolio_id : Z) (db : t) : option Portfolio.t :=
  List.find (fun p => bool_decide (Portfolio.id p = Some portfolio_id)) (portfolios db).

(** [session.get(Holding, holding_id)] *)
Definition get_holding (holding_id : Z) (db : t) : option Holding.t :=
  List.find (fun h => bool_decide (Holding.id h = Some holding_id)) (holdings db).

(** [session.add(price_record); session.commit()] *)
Definition append_quote (q : PriceHistory.t) (db : t) : t :=
  with_price_history
    (price_history db ++
       [PriceHistory.mk (Some (Z.of_nat (length (price_history db)) + 1))
          (PriceHistory.symbol q) (PriceHistory.price q)
          (PriceHistory.timestamp q) (PriceHistory.source q)])
    db.

(** The row kept by [order_by(desc(timestamp)).limit(1)].  Among rows of
    equal timestamp SQL leaves the choice open: [prefer b row] tells whether
    the database then answers with the later row [row] rather than [b]. *)
Definition newer (prefer : PriceHistory.t -> PriceHistory.t -> bool) (symbol : string)
    (best : option PriceHistory.t) (row : PriceHistory.t) : option PriceHistory.t :=
  if bool_decide (PriceHistory.symbol row = symbol) then
    match best with
    | None => Some row
    | Some b =>
        if PriceHistory.timestamp b <? PriceHistory.timestamp row then Some row
        else if PriceHistory.timestamp row <? PriceHistory.timestamp b then Some b
        else if prefer b row then Some row else Some b
    end
  else best.

(** [select(PriceHistory).where(symbol == ...).order_by(desc(timestamp))
    .limit(1)], then [.first()] *)
Definition latest_quote (prefer : PriceHistory.t -> PriceHistory.t -> bool)
    (symbol : string) (db : t) : option PriceHistory.t :=
  fold_left (newer prefer symbol) (price_history db) None.

End Database.

(** ** Price service ([app/price_service.py]) *)

Module SimpleThrottler.

Record t : Set := mk { rate_limit : Z; period : Z }.

(** [__aenter__] returns at once: a caller that enters at [now] proceeds
    at [now], whatever [rate_limit] and [period] are. *)
Definition aenter (self : t) (now : Time) : Time := now.

End SimpleThrottler.

Module PriceService.

Record t : Type := mk {
  throttler : SimpleThrottler.t;
  _price_cache : gmap string (Decimal.t * Time);
  _cache_duration : Z
}.

(** [__init__] *)
Definition init : t := mk (SimpleThrottler.mk 10 60) ∅ 300.

(** [clear_cache] *)
Definition clear_cache (self : t) : t :=
  mk (throttler self) ∅ (_cache_duration self).

End PriceService.

(** The program state: the global [price_service] and the database. *)
Record System : Type := mkSystem {
  service : PriceService.t;
  database : Database.t
}.

(** What the outside world contributes to one resolution. *)
Module World.
Record t : Type := mk {
  (** the instant of the first segment of the resolution: the reading of
      [datetime.now()] in the cache test, and the submission of the
      request *)
  now_lookup : Time;
  (** [yf.Ticker] *)
  ticker : string -> outcome Ticker.t;
  (** [datetime.now()] when the price is cached *)
  now_cached : Time;
  (** [datetime.now()] when the quote is recorded *)
  now_stored : Time;
  (** whether the session of [_store_price_history] works *)
  session_store : bool;
  (** whether the session of [_get_last_known_price] works *)
  session_query : bool;
  (** the database's choice among stored quotes of equal timestamp, see
      [Database.newer] *)
  prefer : PriceHistory.t -> PriceHistory.t -> bool
}.
End World.

(** What a resolution does to the outside, in order. *)
Inductive Event : Set :=
| ThrottlerEnter
| ThrottlerExit
| TickerCall (symbol : string) (at_ : Time)   (** [yf.Ticker(symbol)] *)
| InfoCall (symbol : string)                  (** [ticker.info] *)
| HistoryCall (symbol : string)               (** [ticker.history] *)
| QuoteAppend (symbol : string)               (** [_store_price_history] *)
| FallbackQuery (symbol : string).            (** [_get_last_known_price] *)

Definition is_TickerCall (e : Event) : bool :=
  match e with TickerCall _ _ => true | _ => false end.

Definition PRICE_FIELDS : list string :=
  ["currentPrice"; "regularMarketPrice"; "price"; "lastPrice"]%string.

(** Lines 49-52: the first field that is present and not [None]. *)
Fixpoint probe (fields : list string) (info : gmap string RawValue)
    : outcome (option Decimal.t) :=
  match fields with
  | [] => Returns None
  | field :: rest =>
      match info !! field with
      | None | Some RNone => probe rest info
      | Some v =>
          match to_decimal v with
          | Returns d => Returns (Some d)
          | Raises => Raises
          end
      end
  end.

(** Lines 57-58: [hist["Close"].iloc[-1]] unless the frame is empty. *)
Definition last_close (hist : list RawValue) : outcome (option Decimal.t) :=
  match last hist with
  | None => Returns None
  | Some v =>
      match to_decimal v with
      | Returns d => Returns (Some d)
      | Raises => Raises
      end
  end.

(** Lines 43-58: the price the provider yields, [Returns None] when it
    yields none, [Raises] when any step raises. *)
Definition fetch (w : World.t) (symbol : string)
    : outcome (option Decimal.t) * list Event :=
  match World.ticker w symbol with
  | Raises => (Raises, [])
  | Returns ticker =>
      match Ticker.info ticker with
      | Raises => (Raises, [InfoCall symbol])
      | Returns info =>
          match probe PRICE_FIELDS info with
          | Raises => (Raises, [InfoCall symbol])
          | Returns (Some price) => (Returns (Some price), [InfoCall symbol])
          | Returns None =>
              match Ticker.history ticker with
              | Raises => (Raises, [InfoCall symbol; HistoryCall symbol])
              | Returns hist => (last_close hist, [InfoCall symbol; HistoryCall symbol])
              end
          end
      end
  end.

Definition _store_price_history (w : World.t) (symbol : string) (price : Decimal.t)
    (db : Database.t) : Database.t :=
  if World.session_store w
  then Database.append_quote
         (PriceHistory.mk None symbol price (World.now_stored w) "yfinance") db
  else db.

Definition _get_last_known_price (w : World.t) (symbol : string) (db : Database.t)
    : option Decimal.t :=
  if World.session_query w
  then PriceHistory.price <$> Database.latest_quote (World.prefer w) symbol db
  else None.

(** Lines 34-37. *)
Definition cache_lookup (self : PriceService.t) (now : Time) (symbol : string)
    : option Decimal.t :=
  match PriceService._price_cache self !! symbol with
  | Some (cached_price, cached_time) =>
      if now - cached_time <? seconds (PriceService._cache_duration self)
      then Some cached_price
      else None
  | None => None
  end.

(** Line 62. *)
Definition cache_store (symbol : string) (price : Decimal.t) (now : Time)
    (self : PriceService.t) : PriceService.t :=
  PriceService.mk (PriceService.throttler self)
    (<[symbol := (price, now)]> (PriceService._price_cache self))
    (PriceService._cache_duration self).

(** The first segment of a resolution that misses the cache, up to the
    point where it waits for the provider: lines 40-44. *)
Definition submit (self : PriceService.t) (w : World.t) (symbol : string) : list Event :=
  [ThrottlerEnter;
   TickerCall symbol (SimpleThrottler.aenter (PriceService.throttler self) (World.now_lookup w))].

(** The rest of that resolution, from the provider's answer on: lines
    45-74. *)
Definition complete (w : World.t) (symbol : string) (s : System)
    : option Decimal.t * System * list Event :=
  let '(fetched, evs) := fetch w symbol in
  match fetched with
  | Returns (Some price) =>
      (Some price,
       mkSystem (cache_store symbol price (World.now_cached w) (service s))
                (_store_price_history w symbol price (database s)),
       evs ++ [QuoteAppend symbol; ThrottlerExit])
  | Raises =>
      (_get_last_known_price w symbol (database s), s,
       evs ++ [FallbackQuery symbol; ThrottlerExit])
  | Returns None =>
      (None, s, evs ++ [ThrottlerExit])
  end.

Definition get_current_price (w : World.t) (symbol : string) (s : System)
    : option Decimal.t * System * list Event :=
  match cache_lookup (service s) (World.now_lookup w) symbol with
  | Some cached_price => (Some cached_price, s, [])
  | None =>
      let '(r, s', evs) := complete w symbol s in
      (r, s', submit (service s) w symbol ++ evs)
  end.

(** ** Batch resolution: [get_multiple_prices]

    [asyncio.gather] turns the coroutines into tasks on one event loop.
    The loop first runs every task, in creation order, up to its first
    suspension: the cache test and, on a miss, the submission of the
    request.  A task then resumes when the provider has answered, in an
    order the program does not control, and runs lines 45-74 without
    further interleaving (the two database helpers never suspend).  The
    list [order] is that order: the indices of the tasks as they resume;
    tasks it does not name resume afterwards in creation order. *)

Inductive Task : Type :=
| Done (result : outcome (option Decimal.t))
| Waiting.

(** The first segment of task [i]. *)
Definition start (ws : nat -> World.t) (s : System) (i : nat) (symbol : string)
    : Task * list Event :=
  match cache_lookup (service s) (World.now_lookup (ws i)) symbol with
  | Some cached_price => (Done (Returns (Some cached_price)), [])
  | None => (Waiting, submit (service s) (ws i) symbol)
  end.

Record Loop : Type := mkLoop {
  tasks : list Task;
  sys : System;
  trace : list Event
}.

(** Task [i] resumes, if it is waiting. *)
Definition resume (ws : nat -> World.t) (symbols : list string) (l : Loop) (i : nat) : Loop :=
  match tasks l !! i, symbols !! i with
  | Some Waiting, Some symbol =>
      let '(r, s', evs) := complete (ws i) symbol (sys l) in
      mkLoop (<[i := Done (Returns r)]> (tasks l)) s' (trace l ++ evs)
  | _, _ => l
  end.

(** What [gather] hands back for a task; every task is [Done] by then
    ([gather_all_done] below). *)
Definition result_of (t : Task) : outcome (option Decimal.t) :=
  match t with
  | Done r => r
  | Waiting => Raises
  end.

(** [asyncio.gather] over the tasks, with [return_exceptions=True] *)
Definition gather (ws : nat -> World.t) (order : list nat) (symbols : list string)
    (s : System) : list (outcome (option Decimal.t)) * System * list Event :=
  let started := imap (start ws s) symbols in
  let l0 := mkLoop (fst <$> started) s (concat (snd <$> started)) in
  let l := fold_left (resume ws symbols) (order ++ seq 0 (length symbols)) l0 in
  (result_of <$> tasks l, sys l, trace l).

(** The value stored for one result: lines 83-87. *)
Definition value_of (result : outcome (option Decimal.t)) : option Decimal.t :=
  match result with
  | Raises => None
  | Returns r => r
  end.

Definition join_step (price_dict : gmap string (option Decimal.t))
    (sr : string * outcome (option Decimal.t)) : gmap string (option Decimal.t) :=
  <[sr.1 := value_of sr.2]> price_dict.

(** Lines 81-87: the loop over [zip(symbols, results)]. *)
Definition join (symbols : list string) (results : list (outcome (option Decimal.t)))
    : gmap string (option Decimal.t) :=
  fold_left join_step (zip symbols results) ∅.

Definition get_multiple_prices (ws : nat -> World.t) (order : list nat)
    (symbols : list string) (s : System)
    : gmap string (option Decimal.t) * System * list Event :=
  let '(results, s', evs) := gather ws order symbols s in
  (join symbols results, s', evs).

(** ** Portfolio service ([app/portfolio_service.py]) *)

Module PortfolioService.

(** [now] is the reading of [datetime.utcnow()] during the call.  The
    column [portfolio_id] is declared [foreign_key="portfolios.id"]: for an
    id that no stored portfolio has, [session.commit()] raises
    [IntegrityError] and no row is stored. *)
Definition add_holding (upper : string -> string) (now : Time)
  (holding_data : HoldingCreate.t) (db : Database.t)
  : outcome Holding.t * Database.t :=
let holding :=
  Holding.mk (Some (Database.next_holding_id db))
    (HoldingCreate.portfolio_id holding_data)
    (upper (HoldingCreate.symbol holding_data))
    (HoldingCreate.asset_type holding_data)
    (HoldingCreate.quantity holding_data)
    (HoldingCreate.purchase_price holding_data)
    (default now (HoldingCreate.purchase_date holding_data))
    (HoldingCreate.notes holding_data)
    now now in
match Database.get_portfolio (HoldingCreate.portfolio_id holding_data) db with
| None => (Raises, db)
| Some _ =>
    (Returns holding,
     Database.with_holdings (Database.holdings db ++ [holding])
       (Database.next_holding_id db + 1) db)
end.

Definition replace_holding (holding_id : Z) (holding : Holding.t) (h : Holding.t) : Holding.t :=
if bool_decide (Holding.id h = Some holding_id) then holding else h.

Definition update_holding (upper : string -> string) (now : Time) (holding_id : Z)
  (holding_data : HoldingUpdate.t) (db : Database.t) : option Holding.t * Database.t :=
match Database.get_holding holding_id db with
| None => (None, db)
| Some holding =>
    let holding' :=
      Holding.mk (Holding.id holding) (Holding.portfolio_id holding)
        (match HoldingUpdate.symbol holding_data with
         | Some symbol => upper symbol
         | None => Holding.symbol holding
         end)
        (default (Holding.asset_type holding) (HoldingUpdate.asset_type holding_data))
        (default (Holding.quantity holding) (HoldingUpdate.quantity holding_data))
        (default (Holding.purchase_price holding) (HoldingUpdate.purchase_price holding_data))
        (default (Holding.purchase_date holding) (HoldingUpdate.purchase_date holding_data))
        (default (Holding.notes holding) (HoldingUpdate.notes holding_data))
        (Holding.created_at holding)
        now in
    (Some holding',
     Database.with_holdings (replace_holding holding_id holding' <$> Database.holdings db)
       (Database.next_holding_id db) db)
end.

(** The listing [order_by(Holding.symbol)]. *)
Definition symbol_le (h1 h2 : Holding.t) : Prop :=
String.leb (Holding.symbol h1) (Holding.symbol h2) = true.

#[global] Instance symbol_le_dec : RelDecision symbol_le :=
fun h1 h2 => decide (String.leb (Holding.symbol h1) (Holding.symbol h2) = true).

Definition get_portfolio_holdings (portfolio_id : Z) (db : Database.t) : list Holding.t :=
merge_sort symbol_le
  (List.filter (fun h => bool_decide (Holding.portfolio_id h = portfolio_id))
     (Database.holdings db)).

Definition get_holdings_with_metrics (ws : nat -> World.t) (order : list nat) (now : Time)
  (portfolio_id : Z) (s : System)
  : list HoldingWithMetrics.t * System * list Event :=
let holdings := get_portfolio_holdings portfolio_id (database s) in
match holdings with
| [] => ([], s, [])
| _ =>
    let symbols := Holding.symbol <$> holdings in
    let '(prices, s', evs) := get_multiple_prices ws order symbols s in
    (Metrics.holdings_with_metrics prices now holdings, s', evs)
end.

Definition get_portfolio_summary (ws : nat -> World.t) (order : list nat) (now : Time)
  (portfolio_id : Z) (s : System)
  : option PortfolioSummary.t * System * list Event :=
match Database.get_portfolio portfolio_id (database s) with
| None => (None, s, [])
| Some portfolio =>
    let '(holdings_with_metrics, s', evs) :=
      get_holdings_with_metrics ws order now portfolio_id s in
    (Some (Metrics.portfolio_summary portfolio_id (Portfolio.name portfolio) now
             holdings_with_metrics),
     s', evs)
end.

Definition get_portfolio (portfolio_id : Z) (db : Database.t) : option Portfolio.t :=
  Database.get_portfolio portfolio_id db.

(** The listing [order_by(Portfolio.name)]. *)
Definition name_le (p1 p2 : Portfolio.t) : Prop :=
  String.leb (Portfolio.name p1) (Portfolio.name p2) = true.

#[global] Instance name_le_dec : RelDecision name_le :=
  fun p1 p2 => decide (String.leb (Portfolio.name p1) (Portfolio.name p2) = true).

Definition get_all_portfolios (db : Database.t) : list Portfolio.t :=
  merge_sort name_le (Database.portfolios db).

Definition replace_portfolio (portfolio_id : Z) (portfolio : Portfolio.t) (p : Portfolio.t)
    : Portfolio.t :=
  if bool_decide (Portfolio.id p = Some portfolio_id) then portfolio else p.

Definition update_portfolio (now : Time) (portfolio_id : Z) (portfolio_data : PortfolioUpdate.t)
    (db : Database.t) : option Portfolio.t * Database.t :=
  match Database.get_portfolio portfolio_id db with
  | None => (None, db)
  | Some portfolio =>
      let portfolio' :=
        Portfolio.mk (Portfolio.id portfolio)
          (default (Portfolio.name portfolio) (PortfolioUpdate.name portfolio_data))
          (default (Portfolio.description portfolio) (PortfolioUpdate.description portfolio_data))
          (Portfolio.created_at portfolio)
          now in
      (Some portfolio',
       Database.with_portfolios
         (replace_portfolio portfolio_id portfolio' <$> Database.portfolios db) db)
  end.

(** Every holding of the portfolio is deleted, then the portfolio. *)
Definition delete_portfolio (portfolio_id : Z) (db : Database.t) : bool * Database.t :=
  match Database.get_portfolio portfolio_id db with
  | None => (false, db)
  | Some _ =>
      (true,
       Database.mk
         (List.filter (fun p => negb (bool_decide (Portfolio.id p = Some portfolio_id)))
            (Database.portfolios db))
         (List.filter (fun h => negb (bool_decide (Holding.portfolio_id h = portfolio_id)))
            (Database.holdings db))
         (Database.price_history db)
         (Database.next_holding_id db))
  end.

Definition get_holding (holding_id : Z) (db : Database.t) : option Holding.t :=
  Database.get_holding holding_id db.

Definition delete_holding (holding_id : Z) (db : Database.t) : bool * Database.t :=
  match Database.get_holding holding_id db with
  | None => (false, db)
  | Some _ =>
      (true,
       Database.with_holdings
         (List.filter (fun h => negb (bool_decide (Holding.id h = Some holding_id)))
            (Database.holdings db))
         (Database.next_holding_id db) db)
  end.

End PortfolioService.

(** ** Vocabulary of the properties *)

(** The price a live fetch obtains, if any. *)
Definition live_price (w : World.t) (symbol : string) : option Decimal.t :=
  match fst (fetch w symbol) with
  | Returns (Some price) => Some price
  | Returns None | Raises => None
  end.

(** A field that the probe passes over: missing, or [None]. *)
Definition unusable (info : gmap string RawValue) (field : string) : Prop :=
  info !! field = None \/ info !! field = Some RNone.

(** The holding named [sym] is the first, in the order of the list, among
    those whose percentage return is the greatest. *)
Definition first_best (hs : list HoldingWithMetrics.t) (sym : string) : Prop :=
  exists (i : nat) h p,
    hs !! i = Some h /\
    HoldingWithMetrics.percentage_return h = Some p /\
    HoldingWithMetrics.symbol h = sym /\
    (forall (j : nat) h' q, hs !! j = Some h' ->
       HoldingWithMetrics.percentage_return h' = Some q -> Decimal.le q p) /\
    (forall (j : nat) h' q, (j < i)%nat -> hs !! j = Some h' ->
       HoldingWithMetrics.percentage_return h' = Some q -> Decimal.lt q p).

(** The same for the least percentage return. *)
Definition first_worst (hs : list HoldingWithMetrics.t) (sym : string) : Prop :=
  exists (i : nat) h p,
    hs !! i = Some h /\
    HoldingWithMetrics.percentage_return h = Some p /\
    HoldingWithMetrics.symbol h = sym /\
    (forall (j : nat) h' q, hs !! j = Some h' ->
       HoldingWithMetrics.percentage_return h' = Some q -> Decimal.le p q) /\
    (forall (j : nat) h' q, (j < i)%nat -> hs !! j = Some h' ->
       HoldingWithMetrics.percentage_return h' = Some q -> Decimal.lt p q).

Definition unvalued (hs : list HoldingWithMetrics.t) : Prop :=
  forall h, h ∈ hs -> HoldingWithMetrics.percentage_return h = None.

(** What the scan has established after the holdings [hs], for an
    incumbent return [r] and an incumbent symbol [sym]; [worse q p] says
    that [q] does not beat [p], [beaten q p] that [p] beats [q]. *)
Definition scan_inv (worse beaten : Decimal.t -> Decimal.t -> Prop)
    (hs : list HoldingWithMetrics.t) (r : option Decimal.t) (sym : option string) : Prop :=
  match r with
  | None => sym = None /\ unvalued hs
  | Some p =>
      exists (i : nat) h,
        hs !! i = Some h /\
        HoldingWithMetrics.percentage_return h = Some p /\
        sym = Some (HoldingWithMetrics.symbol h) /\
        (forall (j : nat) h' q, hs !! j = Some h' ->
           HoldingWithMetrics.percentage_return h' = Some q -> worse q p) /\
        (forall (j : nat) h' q, (j < i)%nat -> hs !! j = Some h' ->
           HoldingWithMetrics.percentage_return h' = Some q -> beaten q p)
  end.

Definition best_inv (hs : list HoldingWithMetrics.t) (acc : Metrics.Performers) : Prop :=
  scan_inv Decimal.le Decimal.lt hs (Metrics.best_return acc) (Metrics.best_performer acc).

Definition worst_inv (hs : list HoldingWithMetrics.t) (acc : Metrics.Performers) : Prop :=
  scan_inv (fun q p => Decimal.le p q) (fun q p => Decimal.lt p q) hs
    (Metrics.worst_return acc) (Metrics.worst_performer acc).

(** A symbol in canonical form: the uppercase form of some text. *)
Definition canonical (upper : string -> string) (symbol : string) : Prop :=
  exists text, symbol = upper text.

(** Every stored holding carries a canonical symbol. *)
Definition canonical_holdings (upper : string -> string) (db : Database.t) : Prop :=
  Forall (fun h => canonical upper (Holding.symbol h)) (Database.holdings db).

(** The input of [add_holding] with another symbol. *)
Definition entered_as (symbol : string) (holding_data : HoldingCreate.t) : HoldingCreate.t :=
  HoldingCreate.mk (HoldingCreate.portfolio_id holding_data) symbol
    (HoldingCreate.asset_type holding_data) (HoldingCreate.quantity holding_data)
    (HoldingCreate.purchase_price holding_data) (HoldingCreate.purchase_date holding_data)
    (HoldingCreate.notes holding_data).

(** The input of [update_holding] with the symbol given. *)
Definition renamed_to (symbol : string) (holding_data : HoldingUpdate.t) : HoldingUpdate.t :=
  HoldingUpdate.mk (Some symbol)
    (HoldingUpdate.asset_type holding_data) (HoldingUpdate.quantity holding_data)
    (HoldingUpdate.purchase_price holding_data) (HoldingUpdate.purchase_date holding_data)
    (HoldingUpdate.notes holding_data).

(** The symbol an event of a resolution names, if it names one, is
    [symbol]. *)
Definition names (symbol : string) (e : Event) : Prop :=
  match e with
  | ThrottlerEnter | ThrottlerExit => True
  | TickerCall s _ | InfoCall s | HistoryCall s | QuoteAppend s | FallbackQuery s =>
      s = symbol
  end.


(** Task [i], a resolution of [symbol], still waits and nothing it reads
    has changed since the batch started in state [s]. *)
Definition pending (s : System) (i : nat) (symbol : string) (l : Loop) : Prop :=
  tasks l !! i = Some Waiting /\
  forall prefer,
    Database.latest_quote prefer symbol (database (sys l))
    = Database.latest_quote prefer symbol (database s).

(** Task [i] has returned what the resolution of [symbol] alone returns. *)
Definition finished (ws : nat -> World.t) (s : System) (i : nat) (symbol : string)
    (l : Loop) : Prop :=
  tasks l !! i = Some (Done (Returns (fst (fst (get_current_price (ws i) symbol s))))).

(** What [latest_quote] has found after the rows [rows]. *)
Definition latest_inv (symbol : string) (rows : list PriceHistory.t)
    (best : option PriceHistory.t) : Prop :=
  match best with
  | None => forall row, row ∈ rows -> PriceHistory.symbol row <> symbol
  | Some q =>
      q ∈ rows /\ PriceHistory.symbol q = symbol /\
      forall row, row ∈ rows -> PriceHistory.symbol row = symbol ->
        PriceHistory.timestamp row <= PriceHistory.timestamp q
  end.

(** The holdings table as the store keeps it: every row has an id, below
    the next id to be given, and no two rows share one. *)
Definition well_formed (db : Database.t) : Prop :=
  NoDup (Holding.id <$> Database.holdings db) /\
  Forall (fun h => exists hid, Holding.id h = Some hid /\ hid < Database.next_holding_id db)
    (Database.holdings db).

(** Whether the resolution of [symbol] by task [i] misses the cache of
    [s]. *)
Definition misses (ws : nat -> World.t) (s : System) (i : nat) (symbol : string) : bool :=
  match cache_lookup (service s) (World.now_lookup (ws i)) symbol with
  | Some _ => false
  | None => true
  end.

(** The number of tasks of a batch that miss the cache. *)
Definition count_misses (ws : nat -> World.t) (s : System) (symbols : list string) : nat :=
  length (List.filter (fun b : bool => b) (imap (misses ws s) symbols)).

(** The state once [clear_cache] has run. *)
Definition cleared (s : System) : System :=
  mkSystem (PriceService.clear_cache (service s)) (database s).

(** What a batch over [symbols] may change between [s] and [s']: the cache
    entries of those symbols, and the end of the quote history, by quotes
    of those symbols. *)
Definition changed_within (symbols : list string) (s s' : System) : Prop :=
  (forall other, other ∉ symbols ->
     PriceService._price_cache (service s') !! other
     = PriceService._price_cache (service s) !! other) /\
  PriceService.throttler (service s') = PriceService.throttler (service s) /\
  PriceService._cache_duration (service s') = PriceService._cache_duration (service s) /\
  Database.portfolios (database s') = Database.portfolios (database s) /\
  Database.holdings (database s') = Database.holdings (database s) /\
  Database.next_holding_id (database s') = Database.next_holding_id (database s) /\
  exists rows,
    Database.price_history (database s') = Database.price_history (database s) ++ rows /\
    Forall (fun row => PriceHistory.symbol row ∈ symbols) rows.

(** ** Inputs of the examples *)

Definition holding_10_at_150 : Holding.t :=
  Holding.mk (Some 1) 1 "AAPL" STOCK (Decimal.mk 10 0) (Decimal.mk 150 0) 0 "" 0 0.

Definition price_160 : gmap string (option Decimal.t) :=
  {[ "AAPL"%string := Some (Decimal.mk 160 0) ]}.

Definition aapl_valued : HoldingWithMetrics.t :=
  HoldingWithMetrics.mk 1 1 "AAPL" STOCK (Decimal.mk 10 0) (Decimal.mk 150 0) 0 "" 0 0
    (Some (Decimal.mk 160 0)) (Some (Decimal.mk 1600 0)) (Some (Decimal.mk 1500 0))
    (Some (Decimal.mk 100 0)) (Some (Decimal.mk 6666666666666666666666666667 (-27)))
    (Some 0).


Definition empty_database : Database.t := Database.mk [] [] [] 1.

Definition database_with_quote : Database.t :=
  Database.mk [] []
    [PriceHistory.mk (Some 1) "AAPL" (Decimal.mk 100 0) 5 "yfinance"] 1.

(** A provider that answers without any price field and with an empty
    history frame. *)
Definition no_price_world : World.t :=
  World.mk 1000 (fun _ => Returns (Ticker.mk (Returns ∅) (Returns []))) 1001 1002 true true (fun _ _ => true).

(** A provider whose constructor raises. *)
Definition failing_world (now : Time) : World.t :=
  World.mk now (fun _ => Raises) now now true true (fun _ _ => true).

(** A provider that quotes a current price of 0. *)
Definition zero_price_world : World.t :=
  World.mk 1000
    (fun _ => Returns (Ticker.mk (Returns {[ "currentPrice"%string := RNumber (Decimal.mk 0 0) ]})
                         (Returns [])))
    1001 1002 true true (fun _ _ => true).

(** A provider that quotes a current price of 150.50. *)
Definition quoting_world (now : Time) : World.t :=
  World.mk now
    (fun _ => Returns (Ticker.mk (Returns {[ "currentPrice"%string := RNumber (Decimal.mk 15050 (-2)) ]})
                         (Returns [])))
    (now + 1) (now + 2) true true (fun _ _ => true).

Definition fresh_cache_system : System :=
  mkSystem (PriceService.mk (SimpleThrottler.mk 10 60)
              {[ "TEST"%string := (Decimal.mk 10000 (-2), 0) ]} 300)
           empty_database.

(** The provider of the test suite: it raises for INVALID and quotes 100
    for every other symbol. *)
Definition one_invalid_world (i : nat) : World.t :=
  World.mk 1000
    (fun symbol =>
       if bool_decide (symbol = "INVALID"%string) then Raises
       else Returns (Ticker.mk (Returns {[ "currentPrice"%string := RNumber (Decimal.mk 1000 (-1)) ]})
                       (Returns [])))
    1001 1002 true true (fun _ _ => true).

Definition eleven_symbols : list string :=
  ["S00"; "S01"; "S02"; "S03"; "S04"; "S05"; "S06"; "S07"; "S08"; "S09"; "S10"]%string.

Definition aapl_cached_system : System :=
  mkSystem (PriceService.mk (SimpleThrottler.mk 10 60)
              {[ "AAPL"%string := (Decimal.mk 10000 (-2), 0) ]} 300)
           empty_database.

Definition aapl_lowercase : HoldingCreate.t :=
  HoldingCreate.mk 1 "aapl" STOCK (Decimal.mk 10 0) (Decimal.mk 150 0) None "".

Definition googl_valued : HoldingWithMetrics.t :=
  HoldingWithMetrics.mk 2 1 "GOOGL" STOCK (Decimal.mk 5 0) (Decimal.mk 2800 0) 0 "" 0 0
    (Some (Decimal.mk 2700 0)) (Some (Decimal.mk 13500 0)) (Some (Decimal.mk 14000 0))
    (Some (Decimal.mk (-500) 0)) (Some (Decimal.mk (-3571428571428571428571428571) (-27)))
    (Some 0).

(** A second holding with the return of [aapl_valued], written with one
    more digit. *)
Definition msft_tied : HoldingWithMetrics.t :=
  HoldingWithMetrics.mk 3 1 "MSFT" STOCK (Decimal.mk 10 0) (Decimal.mk 150 0) 0 "" 0 0
    (Some (Decimal.mk 160 0)) (Some (Decimal.mk 1600 0)) (Some (Decimal.mk 1500 0))
    (Some (Decimal.mk 100 0)) (Some (Decimal.mk 66666666666666666666666666670 (-28)))
    (Some 0).

(** The holding of 10 units bought at 150, priced at 150. *)
Definition at_cost_prices : gmap string (option Decimal.t) :=
  {[ "AAPL"%string := Some (Decimal.mk 150 0) ]}.

Definition at_cost_valued : HoldingWithMetrics.t :=
  HoldingWithMetrics.mk 1 1 "AAPL" STOCK (Decimal.mk 10 0) (Decimal.mk 150 0) 0 "" 0 0
    (Some (Decimal.mk 150 0)) (Some (Decimal.mk 1500 0)) (Some (Decimal.mk 1500 0))
    (Some (Decimal.mk 0 0)) (Some (Decimal.mk 0 0)) (Some 0).

(** A provider whose first usable field holds text that [Decimal] rejects,
    while a later field holds a price. *)
Definition malformed_world : World.t :=
  World.mk 1000
    (fun _ => Returns (Ticker.mk
                         (Returns {[ "currentPrice"%string := RMalformed;
                                     "regularMarketPrice"%string := RNumber (Decimal.mk 150 0) ]})
                         (Returns [RNumber (Decimal.mk 149 0)])))
    1001 1002 true true (fun _ _ => true).

(** A store with one portfolio, before and after the holding entered as
    aapl is added to it. *)
Definition one_portfolio_database : Database.t :=
  Database.mk [Portfolio.mk (Some 1) "Tech" "" 0 0] [] [] 1.

Definition aapl_holding : Holding.t :=
  Holding.mk (Some 1) 1 "AAPL" STOCK (Decimal.mk 10 0) (Decimal.mk 150 0) 0 "" 0 0.

Definition one_holding_database : Database.t :=
  Database.mk [Portfolio.mk (Some 1) "Tech" "" 0 0] [aapl_holding] [] 2.

(** The holding entered as aapl, for a portfolio that is not stored. *)
Definition orphan_lowercase : HoldingCreate.t :=
  HoldingCreate.mk 9 "aapl" STOCK (Decimal.mk 10 0) (Decimal.mk 150 0) None "".

Definition new_quantity : HoldingUpdate.t :=
  HoldingUpdate.mk None None (Some (Decimal.mk 20 0)) None None None.

Definition new_symbol : HoldingUpdate.t :=
  HoldingUpdate.mk (Some "msft"%string) None None None None None.

Definition two_portfolio_database : Database.t :=
  Database.mk
    [Portfolio.mk (Some 1) "Tech" "" 0 0; Portfolio.mk (Some 2) "Crypto" "" 0 0]
    [Holding.mk (Some 1) 1 "MSFT" STOCK (Decimal.mk 3 0) (Decimal.mk 300 0) 0 "" 0 0;
     Holding.mk (Some 2) 2 "BTC-USD" CRYPTOCURRENCY (Decimal.mk 5 (-1)) (Decimal.mk 50000 0)
       0 "" 0 0;
     Holding.mk (Some 3) 1 "AAPL" STOCK (Decimal.mk 10 0) (Decimal.mk 150 0) 0 "" 0 0]
    [] 4.

Definition rename_to_growth : PortfolioUpdate.t :=
  PortfolioUpdate.mk (Some "Growth"%string) None.

Definition two_portfolio_system : System :=
  mkSystem PriceService.init two_portfolio_database.

(** * Properties *)

(** ** The order on decimals *)

Module DecimalFacts.
Import Decimal.


Lemma scaled_shift a e e' :
  e' <= e -> e <= expo a -> scaled a e' = scaled a e * 10 ^ (e - e').
Proof.
  intros H1 H2. unfold scaled.
  replace (expo a - e') with ((expo a - e) + (e - e')) by lia.
  rewrite Z.pow_add_r by lia. ring.
Qed.

Lemma ltb_scaled a b e :
  e <= expo a -> e <= expo b -> ltb a b = (scaled a e <? scaled b e).
Proof.
  intros Ha Hb. unfold ltb, align; simpl.
  set (m := Z.min (expo a) (expo b)).
  change (coef a * 10 ^ (expo a - m)) with (scaled a m).
  change (coef b * 10 ^ (expo b - m)) with (scaled b m).
  rewrite (scaled_shift a m e), (scaled_shift b m e) by lia.
  assert (Hp : 0 < 10 ^ (m - e)) by (apply Z.pow_pos_nonneg; lia).
  destruct (Z.ltb_spec (scaled a m) (scaled b m));
    destruct (Z.ltb_spec (scaled a m * 10 ^ (m - e)) (scaled b m * 10 ^ (m - e)));
    try reflexivity; nia.
Qed.

Lemma lt_irrefl a : ~ lt a a.
Proof.
  unfold lt. rewrite (ltb_scaled a a (expo a)) by lia.
  rewrite Z.ltb_irrefl. discriminate.
Qed.

Lemma lt_trans a b c : lt a b -> lt b c -> lt a c.
Proof.
  unfold lt.
  set (e := Z.min (expo a) (Z.min (expo b) (expo c))).
  rewrite (ltb_scaled a b e), (ltb_scaled b c e), (ltb_scaled a c e) by lia.
  rewrite !Z.ltb_lt. lia.
Qed.

Lemma le_refl a : le a a.
Proof. unfold le. destruct (ltb a a) eqn:E; [ | reflexivity ]. destruct (lt_irrefl a E). Qed.

Lemma le_trans a b c : le a b -> le b c -> le a c.
Proof.
  unfold le.
  set (e := Z.min (expo a) (Z.min (expo b) (expo c))).
  rewrite (ltb_scaled b a e), (ltb_scaled c b e), (ltb_scaled c a e) by lia.
  rewrite !Z.ltb_ge. lia.
Qed.

Lemma lt_le_trans a b c : lt a b -> le b c -> lt a c.
Proof.
  unfold lt, le.
  set (e := Z.min (expo a) (Z.min (expo b) (expo c))).
  rewrite (ltb_scaled a b e), (ltb_scaled c b e), (ltb_scaled a c e) by lia.
  rewrite Z.ltb_ge, !Z.ltb_lt. lia.
Qed.

Lemma le_lt_trans a b c : le a b -> lt b c -> lt a c.
Proof.
  unfold lt, le.
  set (e := Z.min (expo a) (Z.min (expo b) (expo c))).
  rewrite (ltb_scaled b a e), (ltb_scaled b c e), (ltb_scaled a c e) by lia.
  rewrite Z.ltb_ge, !Z.ltb_lt. lia.
Qed.

Lemma lt_le a b : lt a b -> le a b.
Proof.
  unfold lt, le.
  rewrite (ltb_scaled a b (Z.min (expo a) (expo b))),
          (ltb_scaled b a (Z.min (expo a) (expo b))) by lia.
  rewrite Z.ltb_ge, Z.ltb_lt. lia.
Qed.

Lemma div_is_Some a b : coef b <> 0 -> is_Some (div a b).
Proof.
  intros Hb. unfold div.
  destruct (Z.eqb_spec (coef b) 0) as [E | _]; [ contradiction | ].
  destruct (coef a =? 0); [ eauto | ].
  destruct (if 0 <=? _ then _ else _) as [q r].
  destruct (if r =? 0 then _ else _) as [q' e']. eauto.
Qed.

Lemma gtb_zero_coef a : gtb a zero = true -> coef a <> 0.
Proof.
  unfold gtb, ltb, align, zero; simpl. intros H E. rewrite E in H.
  rewrite Z.mul_0_l in H. discriminate.
Qed.

End DecimalFacts.

(** ** The metrics aggregator *)

Module MetricsFacts.
Import Metrics.

(** A division guarded by [b > 0] returns. *)
Lemma guarded_div_Some a b :
  Decimal.gtb b Decimal.zero = true ->
  exists q, Decimal.div a b = Some q /\
            percent_of a b = Some (Decimal.mul q Decimal.hundred).
Proof.
  intros Hb.
  destruct (DecimalFacts.div_is_Some a b (DecimalFacts.gtb_zero_coef b Hb)) as [q Hq].
  exists q. unfold percent_of. rewrite Hq. auto.
Qed.

Lemma gtb_zero_false a : Decimal.coef a = 0 -> Decimal.gtb a Decimal.zero = false.
Proof.
  intros E. destruct (Decimal.gtb a Decimal.zero) eqn:G; [ | reflexivity ].
  destruct (DecimalFacts.gtb_zero_coef a G E).
Qed.


Lemma scan_snoc hs x : scan (hs ++ [x]) = scan_step (scan hs) x.
Proof. unfold scan. rewrite fold_left_app. reflexivity. Qed.

Lemma unvalued_snoc hs x :
  unvalued hs -> HoldingWithMetrics.percentage_return x = None -> unvalued (hs ++ [x]).
Proof.
  intros Hu Hx h Hin. apply elem_of_app in Hin as [Hin | Hin]; [ auto | ].
  apply list_elem_of_singleton in Hin. subst. exact Hx.
Qed.

Lemma unvalued_lookup hs (j : nat) h q :
  unvalued hs -> hs !! j = Some h ->
  HoldingWithMetrics.percentage_return h = Some q -> False.
Proof.
  intros Hu Hj Hq. rewrite (Hu h) in Hq; [ discriminate | ].
  apply list_elem_of_lookup. eauto.
Qed.

(** A position of [hs ++ [x]] is a position of [hs] or the last one. *)
Lemma lookup_snoc_inv (hs : list HoldingWithMetrics.t) x (j : nat) h :
  (hs ++ [x]) !! j = Some h ->
  (hs !! j = Some h /\ (j < length hs)%nat) \/ (j = length hs /\ h = x).
Proof.
  intros H. apply lookup_app_Some in H as [H | [Hle H]].
  - left. split; [ exact H | ]. apply lookup_lt_Some in H. exact H.
  - right. destruct (j - length hs)%nat as [ | k] eqn:E; simpl in H.
    + inversion H. split; [ lia | reflexivity ].
    + discriminate.
Qed.

Lemma scan_step_unvalued acc x :
  HoldingWithMetrics.percentage_return x = None -> scan_step acc x = acc.
Proof. intros H. unfold scan_step. rewrite H. reflexivity. Qed.

Lemma scan_step_best acc x p :
  HoldingWithMetrics.percentage_return x = Some p ->
  (best_return (scan_step acc x), best_performer (scan_step acc x))
  = if match best_return acc with
       | None => true
       | Some b => Decimal.gtb p b
       end
    then (Some p, Some (HoldingWithMetrics.symbol x))
    else (best_return acc, best_performer acc).
Proof.
  intros H. unfold scan_step. rewrite H.
  destruct (match best_return acc with None => true | Some b => Decimal.gtb p b end);
    simpl;
    match goal with |- context [if ?c then _ else _] => destruct c end; reflexivity.
Qed.

Lemma scan_step_worst acc x p :
  HoldingWithMetrics.percentage_return x = Some p ->
  (worst_return (scan_step acc x), worst_performer (scan_step acc x))
  = if match worst_return acc with
       | None => true
       | Some w => Decimal.ltb p w
       end
    then (Some p, Some (HoldingWithMetrics.symbol x))
    else (worst_return acc, worst_performer acc).
Proof.
  intros H. unfold scan_step. rewrite H.
  destruct (match best_return acc with None => true | Some b => Decimal.gtb p b end);
    simpl;
    match goal with |- context [if ?c then _ else _] => destruct c end; reflexivity.
Qed.

Section ScanInvariant.

Variables worse beaten : Decimal.t -> Decimal.t -> Prop.
Variable beats : Decimal.t -> Decimal.t -> bool.

Hypothesis worse_refl : forall p, worse p p.
Hypothesis not_beats_worse : forall p b, beats p b = false -> worse p b.
Hypothesis beats_beaten :
  forall q b p, worse q b -> beats p b = true -> beaten q p.
Hypothesis beaten_worse : forall q p, beaten q p -> worse q p.

(** One holding more: the incumbent [(r, sym)] is replaced when the
    return of [x] beats it, kept otherwise. *)
Lemma scan_inv_step hs r sym x :
  scan_inv worse beaten hs r sym ->
  scan_inv worse beaten (hs ++ [x])
    (match HoldingWithMetrics.percentage_return x with
     | None => r
     | Some p =>
         if match r with None => true | Some b => beats p b end
         then Some p else r
     end)
    (match HoldingWithMetrics.percentage_return x with
     | None => sym
     | Some p =>
         if match r with None => true | Some b => beats p b end
         then Some (HoldingWithMetrics.symbol x) else sym
     end).
Proof.
  intros Hinv.
  destruct (HoldingWithMetrics.percentage_return x) as [p | ] eqn:Hx.
  - destruct r as [b | ]; simpl in Hinv.
    + destruct Hinv as (i & h & Hi & Hp & Hs & Hmax & Hfst).
      destruct (beats p b) eqn:Hb; simpl.
      * exists (length hs), x.
        split; [ apply list_lookup_middle; reflexivity | ].
        split; [ exact Hx | ]. split; [ reflexivity | ]. split.
        -- intros j h' q Hj Hq. apply lookup_snoc_inv in Hj as [[Hj _] | [_ ->]].
           ++ apply beaten_worse.
              apply (beats_beaten q b p); [ exact (Hmax j h' q Hj Hq) | exact Hb ].
           ++ assert (q = p) by congruence. subst. apply worse_refl.
        -- intros j h' q Hlt Hj Hq. apply lookup_snoc_inv in Hj as [[Hj _] | [Hj' _]].
           ++ apply (beats_beaten q b p); [ exact (Hmax j h' q Hj Hq) | exact Hb ].
           ++ lia.
      * exists i, h. split; [ apply lookup_app_l_Some; exact Hi | ].
        split; [ exact Hp | ]. split; [ exact Hs | ]. split.
        -- intros j h' q Hj Hq. apply lookup_snoc_inv in Hj as [[Hj _] | [_ ->]].
           ++ eauto.
           ++ assert (q = p) by congruence. subst. apply not_beats_worse. exact Hb.
        -- intros j h' q Hlt Hj Hq. apply lookup_snoc_inv in Hj as [[Hj _] | [Hj' _]].
           ++ eauto.
           ++ apply lookup_lt_Some in Hi. lia.
    + destruct Hinv as [_ Hu]. simpl.
      exists (length hs), x.
      split; [ apply list_lookup_middle; reflexivity | ].
      split; [ exact Hx | ]. split; [ reflexivity | ]. split.
      * intros j h' q Hj Hq. apply lookup_snoc_inv in Hj as [[Hj _] | [_ ->]].
        -- destruct (unvalued_lookup hs j h' q Hu Hj Hq).
        -- assert (q = p) by congruence. subst. apply worse_refl.
      * intros j h' q Hlt Hj Hq. apply lookup_snoc_inv in Hj as [[Hj _] | [Hj' _]].
        -- destruct (unvalued_lookup hs j h' q Hu Hj Hq).
        -- lia.
  - destruct r as [b | ]; simpl in *.
    + destruct Hinv as (i & h & Hi & Hp & Hs & Hmax & Hfst).
      exists i, h. split; [ apply lookup_app_l_Some; exact Hi | ].
      split; [ exact Hp | ]. split; [ exact Hs | ]. split.
      * intros j h' q Hj Hq. apply lookup_snoc_inv in Hj as [[Hj _] | [_ ->]].
        -- eauto.
        -- congruence.
      * intros j h' q Hlt Hj Hq. apply lookup_snoc_inv in Hj as [[Hj _] | [_ ->]].
        -- eauto.
        -- congruence.
    + destruct Hinv as [Hn Hu]. split; [ exact Hn | ]. apply unvalued_snoc; assumption.
Qed.

End ScanInvariant.
Lemma best_inv_step hs acc x :
  best_inv hs acc -> best_inv (hs ++ [x]) (scan_step acc x).
Proof.
  unfold best_inv. intros Hinv.
  pose proof (scan_inv_step Decimal.le Decimal.lt Decimal.gtb
                DecimalFacts.le_refl
                (fun p b H => H)
                (fun q b p Hq Hb => DecimalFacts.le_lt_trans q b p Hq Hb)
                DecimalFacts.lt_le
                hs _ _ x Hinv) as Hstep.
  destruct (HoldingWithMetrics.percentage_return x) as [p | ] eqn:Hx.
  - pose proof (scan_step_best acc x p Hx) as E.
    destruct (match best_return acc with None => true | Some b => Decimal.gtb p b end);
      injection E as -> ->; exact Hstep.
  - rewrite (scan_step_unvalued acc x Hx). exact Hstep.
Qed.

Lemma worst_inv_step hs acc x :
  worst_inv hs acc -> worst_inv (hs ++ [x]) (scan_step acc x).
Proof.
  unfold worst_inv. intros Hinv.
  pose proof (scan_inv_step (fun q p => Decimal.le p q) (fun q p => Decimal.lt p q)
                Decimal.ltb
                DecimalFacts.le_refl
                (fun p b H => H)
                (fun q b p Hq Hb => DecimalFacts.lt_le_trans p b q Hb Hq)
                (fun q p H => DecimalFacts.lt_le p q H)
                hs _ _ x Hinv) as Hstep.
  destruct (HoldingWithMetrics.percentage_return x) as [p | ] eqn:Hx.
  - pose proof (scan_step_worst acc x p Hx) as E.
    destruct (match worst_return acc with None => true | Some b => Decimal.ltb p b end);
      injection E as -> ->; exact Hstep.
  - rewrite (scan_step_unvalued acc x Hx). exact Hstep.
Qed.

Lemma scan_invariants hs : best_inv hs (scan hs) /\ worst_inv hs (scan hs).
Proof.
  induction hs as [ | x hs [IHb IHw]] using rev_ind.
  - split; (split; [ reflexivity | ]); intros h Hin; inversion Hin.
  - rewrite scan_snoc. split; [ apply best_inv_step | apply worst_inv_step ]; assumption.
Qed.

(** The incumbent is [None] exactly when no holding has a return. *)
Lemma scan_inv_None worse beaten hs r sym :
  scan_inv worse beaten hs r sym -> unvalued hs -> r = None /\ sym = None.
Proof.
  destruct r as [p | ]; simpl.
  - intros (i & h & Hi & Hp & _) Hu. destruct (unvalued_lookup hs i h p Hu Hi Hp).
  - intros [Hs _] _. auto.
Qed.

Lemma scan_inv_Some worse beaten hs r sym h p :
  scan_inv worse beaten hs r sym -> h ∈ hs ->
  HoldingWithMetrics.percentage_return h = Some p -> is_Some r.
Proof.
  destruct r as [b | ]; simpl; [ eauto | ].
  intros [_ Hu] Hin Hp. rewrite (Hu h Hin) in Hp. discriminate.
Qed.

Lemma summary_performers portfolio_id portfolio_name now hs :
  PortfolioSummary.best_performer (portfolio_summary portfolio_id portfolio_name now hs)
  = best_performer (scan hs) /\
  PortfolioSummary.worst_performer (portfolio_summary portfolio_id portfolio_name now hs)
  = worst_performer (scan hs).
Proof.
  unfold portfolio_summary. destruct hs as [ | h hs]; [ split; reflexivity | ].
  destruct (totals (h :: hs)). split; reflexivity.
Qed.



End MetricsFacts.

(** ** Claims on the metrics aggregator *)

(** C5: every holding of the list (one that has an id, as every stored
    holding does) gets a valued holding whose [total_cost] is
    [quantity * purchase_price] whatever the price map holds; with a price
    [cp] for its symbol, [current_value = quantity * cp],
    [absolute_return = current_value - total_cost] and
    [percentage_return = absolute_return / total_cost * 100] when
    [total_cost > 0], null otherwise, in particular when [total_cost] is
    zero; without a price the three are null.  For quantity 10, purchase
    price 150 and price 160 the fields are 1500, 1600, 100 and
    6.666666666666666666666666667, which is 20/3 rounded to the 28 digits
    of the context: three times it exceeds 20 by 10^-27. *)
Theorem C5_value_holdings :
  (forall prices now holdings holding hid,
     holding ∈ holdings ->
     Holding.id holding = Some hid ->
     exists h,
       h ∈ Metrics.holdings_with_metrics prices now holdings /\
       HoldingWithMetrics.id h = hid /\
       HoldingWithMetrics.symbol h = Holding.symbol holding /\
       let tc := Decimal.mul (Holding.quantity holding) (Holding.purchase_price holding) in
       HoldingWithMetrics.total_cost h = Some tc /\
       HoldingWithMetrics.current_price h = dict_get prices (Holding.symbol holding) /\
       match dict_get prices (Holding.symbol holding) with
       | Some cp =>
           let cv := Decimal.mul (Holding.quantity holding) cp in
           let ar := Decimal.sub cv tc in
           HoldingWithMetrics.current_value h = Some cv /\
           HoldingWithMetrics.absolute_return h = Some ar /\
           (Decimal.gtb tc Decimal.zero = true ->
            exists quot, Decimal.div ar tc = Some quot /\
              HoldingWithMetrics.percentage_return h
              = Some (Decimal.mul quot Decimal.hundred)) /\
           (Decimal.gtb tc Decimal.zero = false ->
            HoldingWithMetrics.percentage_return h = None) /\
           (Decimal.coef tc = 0 -> HoldingWithMetrics.percentage_return h = None)
       | None =>
           HoldingWithMetrics.current_value h = None /\
           HoldingWithMetrics.absolute_return h = None /\
           HoldingWithMetrics.percentage_return h = None
       end)
  /\ (exists h pr,
        Metrics.holdings_with_metrics price_160 0 [holding_10_at_150] = [h] /\
        HoldingWithMetrics.total_cost h = Some (Decimal.mk 1500 0) /\
        HoldingWithMetrics.current_value h = Some (Decimal.mk 1600 0) /\
        HoldingWithMetrics.absolute_return h = Some (Decimal.mk 100 0) /\
        HoldingWithMetrics.percentage_return h = Some pr /\
        pr = Decimal.mk 6666666666666666666666666667 (-27) /\
        3 * Decimal.coef pr - 20 * 10 ^ 27 = 1).
Proof.
  split.
  - intros prices now holdings holding hid Hin Hid.
    assert (Hsome : exists h, Metrics.holding_with_metrics prices now holding = Some h).
    { unfold Metrics.holding_with_metrics. rewrite Hid.
      destruct (dict_get prices (Holding.symbol holding)); eauto. }
    destruct Hsome as [h Hh]. exists h. split.
    { unfold Metrics.holdings_with_metrics. apply list_elem_of_omap. eauto. }
    revert Hh. unfold Metrics.holding_with_metrics. rewrite Hid.
    destruct (dict_get prices (Holding.symbol holding)) as [cp | ]; intros [= <-]; simpl.
    + repeat split; try reflexivity.
      * intros Hpos.
        destruct (MetricsFacts.guarded_div_Some
                    (Decimal.sub (Decimal.mul (Holding.quantity holding) cp)
                       (Decimal.mul (Holding.quantity holding) (Holding.purchase_price holding)))
                    _ Hpos) as (quot & Hq & Hp).
        exists quot. rewrite Hpos. auto.
      * intros Hneg. rewrite Hneg. reflexivity.
      * intros Hz. rewrite (MetricsFacts.gtb_zero_false _ Hz). reflexivity.
    + repeat split; reflexivity.
  - exists (HoldingWithMetrics.mk 1 1 "AAPL" STOCK (Decimal.mk 10 0) (Decimal.mk 150 0)
              0 "" 0 0 (Some (Decimal.mk 160 0)) (Some (Decimal.mk 1600 0))
              (Some (Decimal.mk 1500 0)) (Some (Decimal.mk 100 0))
              (Some (Decimal.mk 6666666666666666666666666667 (-27))) (Some 0)),
           (Decimal.mk 6666666666666666666666666667 (-27)).
    split; [ vm_compute; reflexivity | ].
    repeat split; vm_compute; reflexivity.
Qed.

(** The first part of [C5_value_holdings] at the holding of 10 units bought
    at 150 and priced 160. *)
Lemma C5_value_holdings_witness :
  holding_10_at_150 ∈ [holding_10_at_150] /\
  Holding.id holding_10_at_150 = Some 1 /\
  exists h,
    h ∈ Metrics.holdings_with_metrics price_160 0 [holding_10_at_150] /\
    HoldingWithMetrics.total_cost h = Some (Decimal.mk 1500 0).
Proof.
  assert (Hin : holding_10_at_150 ∈ [holding_10_at_150]) by (apply list_elem_of_here).
  split; [ exact Hin | ]. split; [ reflexivity | ].
  destruct (proj1 C5_value_holdings price_160 0 [holding_10_at_150] holding_10_at_150 1
              Hin eq_refl) as (h & Hh & _ & _ & Htc & _).
  exists h. split; [ exact Hh | ]. exact Htc.
Defined.



(** C7: the best performer of the summary is the first holding, in the
    order of the list, whose percentage return no other holding exceeds
    (every earlier holding with a return has a strictly smaller one), and
    the worst performer the first holding whose return is the least; when
    no holding has a percentage return both are null. *)
Theorem C7_best_worst :
  forall portfolio_id portfolio_name now hs,
    let s := Metrics.portfolio_summary portfolio_id portfolio_name now hs in
    ((forall h, h ∈ hs -> HoldingWithMetrics.percentage_return h = None) ->
     PortfolioSummary.best_performer s = None /\
     PortfolioSummary.worst_performer s = None)
    /\
    (forall h p, h ∈ hs -> HoldingWithMetrics.percentage_return h = Some p ->
     exists sb sw,
       PortfolioSummary.best_performer s = Some sb /\ first_best hs sb /\
       PortfolioSummary.worst_performer s = Some sw /\ first_worst hs sw).
Proof.
  intros portfolio_id portfolio_name now hs s.
  destruct (MetricsFacts.summary_performers portfolio_id portfolio_name now hs) as [Eb Ew].
  fold s in Eb, Ew. rewrite Eb, Ew.
  destruct (MetricsFacts.scan_invariants hs) as [Hb Hw].
  unfold best_inv in Hb. unfold worst_inv in Hw.
  split.
  - intros Hu.
    destruct (MetricsFacts.scan_inv_None _ _ _ _ _ Hb Hu) as [_ ->].
    destruct (MetricsFacts.scan_inv_None _ _ _ _ _ Hw Hu) as [_ ->]. auto.
  - intros h p Hin Hp.
    destruct (MetricsFacts.scan_inv_Some _ _ _ _ _ h p Hb Hin Hp) as [b Eb'].
    destruct (MetricsFacts.scan_inv_Some _ _ _ _ _ h p Hw Hin Hp) as [w Ew'].
    rewrite Eb' in Hb. rewrite Ew' in Hw. simpl in Hb, Hw.
    destruct Hb as (i & hb & Hi & Hpb & Hsb & Hmax & Hfst).
    destruct Hw as (k & hw & Hk & Hpw & Hsw & Hmin & Hfstw).
    exists (HoldingWithMetrics.symbol hb), (HoldingWithMetrics.symbol hw).
    split; [ exact Hsb | ]. split; [ exists i, hb, b; auto | ].
    split; [ exact Hsw | ]. exists k, hw, w; auto.
Qed.

(** ** The price resolver *)

Module ResolverFacts.

Lemma probe_first fields info d :
  probe fields info = Returns (Some d) <->
  exists pre field post,
    fields = pre ++ field :: post /\
    Forall (unusable info) pre /\
    info !! field = Some (RNumber d).
Proof.
  induction fields as [ | f fields IH]; simpl.
  - split; [ discriminate | ]. intros (pre & field & post & E & _). destruct pre; discriminate.
  - destruct (info !! f) as [v | ] eqn:Ef.
    + destruct v as [ | d' | ].
      * rewrite IH. split.
        -- intros (pre & field & post & -> & Hpre & Hf).
           exists (f :: pre), field, post. split; [ reflexivity | ].
           split; [ constructor; [ right; exact Ef | exact Hpre ] | exact Hf ].
        -- intros (pre & field & post & E & Hpre & Hf).
           destruct pre as [ | g pre]; simpl in E; injection E as -> ->.
           ++ congruence.
           ++ exists pre, field, post. inversion Hpre; subst. auto.
      * simpl. split.
        -- intros [= ->]. exists [], f, fields. split; [ reflexivity | ].
           split; [ constructor | exact Ef ].
        -- intros (pre & field & post & E & Hpre & Hf).
           destruct pre as [ | g pre]; simpl in E; injection E as -> ->.
           ++ congruence.
           ++ inversion Hpre as [ | ? ? [Hg | Hg] ]; subst; congruence.
      * simpl. split; [ discriminate | ].
        intros (pre & field & post & E & Hpre & Hf).
        destruct pre as [ | g pre]; simpl in E; injection E as -> ->.
        -- congruence.
        -- inversion Hpre as [ | ? ? [Hg | Hg] ]; subst; congruence.
    + rewrite IH. split.
      * intros (pre & field & post & -> & Hpre & Hf).
        exists (f :: pre), field, post. split; [ reflexivity | ].
        split; [ constructor; [ left; exact Ef | exact Hpre ] | exact Hf ].
      * intros (pre & field & post & E & Hpre & Hf).
        destruct pre as [ | g pre]; simpl in E; injection E as -> ->.
        -- congruence.
        -- exists pre, field, post. inversion Hpre; subst. auto.
Qed.

Lemma probe_none fields info :
  Forall (unusable info) fields -> probe fields info = Returns None.
Proof.
  induction 1 as [ | f fields [Hf | Hf] _ IH]; simpl; [ reflexivity | | ];
    rewrite Hf; exact IH.
Qed.

(** The three ways a resolution that misses the cache can end. *)
Lemma complete_cases w symbol s :
  (exists price,
      live_price w symbol = Some price /\
      fst (complete w symbol s)
      = (Some price,
         mkSystem (cache_store symbol price (World.now_cached w) (service s))
                  (_store_price_history w symbol price (database s))))
  \/ (live_price w symbol = None /\ fst (fetch w symbol) = Raises /\
      fst (complete w symbol s) = (_get_last_known_price w symbol (database s), s))
  \/ (live_price w symbol = None /\ fst (fetch w symbol) = Returns None /\
      fst (complete w symbol s) = (None, s)).
Proof.
  unfold complete, live_price.
  destruct (fetch w symbol) as [[[price | ] | ] evs]; simpl; eauto 10.
Qed.

Lemma complete_failure w symbol s :
  live_price w symbol = None -> snd (fst (complete w symbol s)) = s.
Proof.
  intros Hl. destruct (complete_cases w symbol s) as [(p & Hp & _) | [(_ & _ & E) | (_ & _ & E)]];
    [ congruence | rewrite E; reflexivity | rewrite E; reflexivity ].
Qed.

Lemma fetch_events w symbol :
  Forall (fun e => e = InfoCall symbol \/ e = HistoryCall symbol) (snd (fetch w symbol)).
Proof.
  assert (H1 : Forall (fun e => e = InfoCall symbol \/ e = HistoryCall symbol)
                 [InfoCall symbol]) by (constructor; [ auto | constructor ]).
  assert (H2 : Forall (fun e => e = InfoCall symbol \/ e = HistoryCall symbol)
                 [InfoCall symbol; HistoryCall symbol])
    by (constructor; [ auto | constructor; [ auto | constructor ] ]).
  unfold fetch.
  destruct (World.ticker w symbol) as [tk | ]; [ | constructor ].
  destruct (Ticker.info tk) as [info | ]; [ | exact H1 ].
  destruct (probe PRICE_FIELDS info) as [[p | ] | ]; [ exact H1 | | exact H1 ].
  destruct (Ticker.history tk) as [hist | ]; exact H2.
Qed.

Lemma complete_events_failure w symbol s :
  live_price w symbol = None -> QuoteAppend symbol ∉ snd (complete w symbol s).
Proof.
  unfold complete, live_price. pose proof (fetch_events w symbol) as Hev.
  destruct (fetch w symbol) as [[[p | ] | ] evs]; simpl in *; [ discriminate | | ];
    intros _ Hin; apply elem_of_app in Hin as [Hin | Hin];
    try (rewrite Forall_forall in Hev; destruct (Hev _ Hin); discriminate);
    repeat (apply elem_of_cons in Hin as [Hin | Hin]; [ discriminate | ]);
    inversion Hin.
Qed.

Lemma get_current_price_miss w symbol s :
  cache_lookup (service s) (World.now_lookup w) symbol = None ->
  get_current_price w symbol s
  = (fst (complete w symbol s),
     ThrottlerEnter :: TickerCall symbol (World.now_lookup w) :: snd (complete w symbol s)).
Proof.
  intros Hm. unfold get_current_price. rewrite Hm.
  destruct (complete w symbol s) as [[r s'] evs]. reflexivity.
Qed.

Lemma get_current_price_hit w symbol s p :
  cache_lookup (service s) (World.now_lookup w) symbol = Some p ->
  get_current_price w symbol s = (Some p, s, []).
Proof. intros Hh. unfold get_current_price. rewrite Hh. reflexivity. Qed.

(** The lookup in the terms of the cache entry. *)
Lemma cache_lookup_Some self now symbol p :
  cache_lookup self now symbol = Some p <->
  exists t, PriceService._price_cache self !! symbol = Some (p, t) /\
            now - t < seconds (PriceService._cache_duration self).
Proof.
  unfold cache_lookup.
  destruct (PriceService._price_cache self !! symbol) as [[p' t'] | ].
  - destruct (Z.ltb_spec (now - t') (seconds (PriceService._cache_duration self))).
    + split; [ intros [= ->]; eauto | intros (t & [= -> ->] & _); reflexivity ].
    + split; [ discriminate | intros (t & [= -> ->] & Hlt); lia ].
  - split; [ discriminate | intros (t & Ht & _); discriminate ].
Qed.

Lemma cache_lookup_stale self now symbol p t :
  PriceService._price_cache self !! symbol = Some (p, t) ->
  seconds (PriceService._cache_duration self) <= now - t ->
  cache_lookup self now symbol = None.
Proof.
  intros He Hs. unfold cache_lookup. rewrite He.
  destruct (Z.ltb_spec (now - t) (seconds (PriceService._cache_duration self)));
    [ lia | reflexivity ].
Qed.

End ResolverFacts.

(** ** Claims on a single resolution *)

(** C1, at the input where the claim fails: the provider answers without
    a usable price field and with an empty history, and the Fallback Store
    holds a quote of 100 for the symbol.  The resolution returns none and
    never queries the store, which would have answered 100. *)
Theorem C1_no_price_skips_fallback :
  get_current_price no_price_world "AAPL" (mkSystem PriceService.init database_with_quote)
  = (None, mkSystem PriceService.init database_with_quote,
     [ThrottlerEnter; TickerCall "AAPL" 1000; InfoCall "AAPL"; HistoryCall "AAPL";
      ThrottlerExit])
  /\ _get_last_known_price no_price_world "AAPL" database_with_quote
     = Some (Decimal.mk 100 0).
Proof. split; vm_compute; reflexivity. Qed.

(** C2: a resolution touches neither the rate limiter nor the Quote Source
    exactly when the cache holds an entry for the symbol that is younger
    than 300 seconds, and it then returns the cached price and leaves the
    state as it is; with an entry of 300 seconds or more it enters the
    throttler and calls the Quote Source, and the entry is still there
    afterwards unless a fetched price has replaced it. *)
Theorem C2_cache_ttl :
  forall w symbol s,
    PriceService._cache_duration (service s) = 300 ->
    (snd (get_current_price w symbol s) = [] <->
     exists p t,
       PriceService._price_cache (service s) !! symbol = Some (p, t) /\
       World.now_lookup w - t < seconds 300)
    /\
    (forall p t,
       PriceService._price_cache (service s) !! symbol = Some (p, t) ->
       World.now_lookup w - t < seconds 300 ->
       get_current_price w symbol s = (Some p, s, []))
    /\
    (forall p t,
       PriceService._price_cache (service s) !! symbol = Some (p, t) ->
       seconds 300 <= World.now_lookup w - t ->
       exists r s' evs,
         get_current_price w symbol s
         = (r, s', ThrottlerEnter :: TickerCall symbol (World.now_lookup w) :: evs) /\
         ((live_price w symbol = None /\
           PriceService._price_cache (service s') !! symbol = Some (p, t))
          \/
          (exists p', live_price w symbol = Some p' /\ r = Some p' /\
             PriceService._price_cache (service s') !! symbol
             = Some (p', World.now_cached w)))).
Proof.
  intros w symbol s Hd. split; [ | split ].
  - destruct (cache_lookup (service s) (World.now_lookup w) symbol) as [p | ] eqn:El.
    + rewrite (ResolverFacts.get_current_price_hit _ _ _ _ El). simpl.
      apply ResolverFacts.cache_lookup_Some in El as (t & Ht & Hlt). rewrite Hd in Hlt.
      split; [ eauto | reflexivity ].
    + rewrite (ResolverFacts.get_current_price_miss _ _ _ El). simpl.
      split; [ discriminate | ]. intros (p & t & Ht & Hlt).
      assert (Hs : cache_lookup (service s) (World.now_lookup w) symbol = Some p).
      { apply ResolverFacts.cache_lookup_Some. exists t. rewrite Hd. auto. }
      congruence.
  - intros p t Ht Hlt. apply ResolverFacts.get_current_price_hit.
    apply ResolverFacts.cache_lookup_Some. exists t. rewrite Hd. auto.
  - intros p t Ht Hge.
    assert (El : cache_lookup (service s) (World.now_lookup w) symbol = None).
    { apply (ResolverFacts.cache_lookup_stale _ _ _ p t Ht). rewrite Hd. exact Hge. }
    rewrite (ResolverFacts.get_current_price_miss _ _ _ El).
    destruct (complete w symbol s) as [[r s'] evs] eqn:Ec.
    exists r, s', evs. split; [ reflexivity | ].
    destruct (ResolverFacts.complete_cases w symbol s)
      as [(p' & Hp' & E) | [(Hn & _ & E) | (Hn & _ & E)]];
      rewrite Ec in E; simpl in E; injection E as -> ->.
    + right. exists p'. split; [ exact Hp' | ]. split; [ reflexivity | ].
      simpl. apply lookup_insert_eq.
    + left. auto.
    + left. auto.
Qed.

(** [C2_cache_ttl] on the cache of the test suite: an entry for TEST, read
    299.999999 seconds after it was stored. *)
Lemma C2_cache_ttl_witness :
  PriceService._cache_duration (service fresh_cache_system) = 300 /\
  get_current_price (failing_world 299999999) "TEST" fresh_cache_system
  = (Some (Decimal.mk 10000 (-2)), fresh_cache_system, []).
Proof.
  split; [ reflexivity | ].
  apply (proj1 (proj2 (C2_cache_ttl (failing_world 299999999) "TEST" fresh_cache_system
                         eq_refl)) (Decimal.mk 10000 (-2)) 0).
  - vm_compute. reflexivity.
  - vm_compute. reflexivity.
Defined.

Module FrameFacts.

(** A lookup that misses keeps missing as the clock advances. *)
Lemma cache_lookup_later self now now' symbol :
  cache_lookup self now symbol = None -> now <= now' ->
  cache_lookup self now' symbol = None.
Proof.
  unfold cache_lookup.
  destruct (PriceService._price_cache self !! symbol) as [[p t] | ]; [ | reflexivity ].
  destruct (Z.ltb_spec (now - t) (seconds (PriceService._cache_duration self)));
    [ discriminate | ].
  intros _ Hle.
  destruct (Z.ltb_spec (now' - t) (seconds (PriceService._cache_duration self)));
    [ lia | reflexivity ].
Qed.

End FrameFacts.

(** C10: a resolution that misses the cache and obtains no live price (it
    returns what the Fallback Store gave, or none) leaves the whole state
    as it was, cache and quote history included, and appends no quote; a
    later resolution of the same symbol from that state enters the
    throttler and calls the Quote Source again. *)
Theorem C10_failure_frame :
  forall w symbol s,
    cache_lookup (service s) (World.now_lookup w) symbol = None ->
    live_price w symbol = None ->
    snd (fst (get_current_price w symbol s)) = s /\
    (QuoteAppend symbol ∉ snd (get_current_price w symbol s)) /\
    (fst (fst (get_current_price w symbol s)) = None \/
     fst (fst (get_current_price w symbol s))
     = _get_last_known_price w symbol (database s)) /\
    (forall w', World.now_lookup w <= World.now_lookup w' ->
       exists evs,
         snd (get_current_price w' symbol (snd (fst (get_current_price w symbol s))))
         = ThrottlerEnter :: TickerCall symbol (World.now_lookup w') :: evs).
Proof.
  intros w symbol s Hm Hl.
  rewrite (ResolverFacts.get_current_price_miss _ _ _ Hm). simpl.
  pose proof (ResolverFacts.complete_failure w symbol s Hl) as Hs.
  split; [ exact Hs | ]. split.
  - intros Hin. apply elem_of_cons in Hin as [Hin | Hin]; [ discriminate | ].
    apply elem_of_cons in Hin as [Hin | Hin]; [ discriminate | ].
    exact (ResolverFacts.complete_events_failure w symbol s Hl Hin).
  - split.
    + destruct (ResolverFacts.complete_cases w symbol s)
        as [(p' & Hp' & _) | [(_ & _ & E) | (_ & _ & E)]];
        [ congruence | right; rewrite E; reflexivity | left; rewrite E; reflexivity ].
    + intros w' Hle. rewrite Hs.
      rewrite (ResolverFacts.get_current_price_miss w' symbol s
                 (FrameFacts.cache_lookup_later _ _ _ _ Hm Hle)).
      simpl. eauto.
Qed.

(** [C10_failure_frame] on a failing provider and a store that holds a
    quote: the quote's price comes back and nothing changes. *)
Lemma C10_failure_frame_witness :
  cache_lookup PriceService.init 1000 "AAPL" = None /\
  live_price (failing_world 1000) "AAPL" = None /\
  snd (fst (get_current_price (failing_world 1000) "AAPL"
              (mkSystem PriceService.init database_with_quote)))
  = mkSystem PriceService.init database_with_quote.
Proof.
  split; [ reflexivity | ]. split; [ reflexivity | ].
  exact (proj1 (C10_failure_frame (failing_world 1000) "AAPL"
                  (mkSystem PriceService.init database_with_quote) eq_refl eq_refl)).
Defined.

(** C4: where the provider quotes a current price of 0, the live fetch
    succeeds and the resolution returns 0, caches it under the symbol and
    appends to the history a quote of price 0: the price is not positive,
    and the recorded quote goes against the constraint [gt=0] that
    [PriceHistory.price] declares. *)
Theorem C4_zero_price_recorded :
  live_price zero_price_world "AAPL" = Some (Decimal.mk 0 0) /\
  fst (fst (get_current_price zero_price_world "AAPL"
              (mkSystem PriceService.init empty_database)))
  = Some (Decimal.mk 0 0) /\
  Decimal.gtb (Decimal.mk 0 0) Decimal.zero = false /\
  PriceService._price_cache
    (service (snd (fst (get_current_price zero_price_world "AAPL"
                          (mkSystem PriceService.init empty_database)))))
    !! "AAPL"%string
  = Some (Decimal.mk 0 0, 1001) /\
  Database.price_history
    (database (snd (fst (get_current_price zero_price_world "AAPL"
                           (mkSystem PriceService.init empty_database)))))
  = [PriceHistory.mk (Some 1) "AAPL" (Decimal.mk 0 0) 1002 "yfinance"] /\
  PriceHistory.price_gt_0
    (PriceHistory.mk (Some 1) "AAPL" (Decimal.mk 0 0) 1002 "yfinance") = false.
Proof. repeat split; vm_compute; reflexivity. Qed.

(** ** The batch *)

Module BatchFacts.

(** *** The joining loop *)

Lemma join_untouched symbols results acc (s : string) :
  s ∉ symbols ->
  fold_left join_step (zip symbols results) acc !! s = acc !! s.
Proof.
  revert results acc. induction symbols as [ | a symbols IH]; intros results acc Hs.
  - reflexivity.
  - destruct results as [ | r results]; [ reflexivity | ]. simpl.
    rewrite IH by (intros Hin; apply Hs; apply list_elem_of_further; exact Hin).
    unfold join_step. simpl. apply lookup_insert_ne.
    intros ->. apply Hs. apply list_elem_of_here.
Qed.

Lemma join_last symbols results acc (i : nat) (s : string) r :
  symbols !! i = Some s ->
  results !! i = Some r ->
  (forall j : nat, (i < j)%nat -> symbols !! j <> Some s) ->
  fold_left join_step (zip symbols results) acc !! s = Some (value_of r).
Proof.
  revert results acc i.
  induction symbols as [ | a symbols IH]; intros results acc i Hs Hr Hlast.
  - destruct i; discriminate.
  - destruct results as [ | r0 results]; [ destruct i; discriminate | ].
    destruct i as [ | i]; simpl in Hs, Hr.
    + injection Hs as ->. injection Hr as ->. simpl.
      rewrite join_untouched.
      * unfold join_step. simpl. apply lookup_insert_eq.
      * intros Hin. apply list_elem_of_lookup in Hin as [j Hj].
        apply (Hlast (S j)); [ lia | exact Hj ].
    + simpl. apply (IH results _ i Hs Hr).
      intros j Hlt. apply (Hlast (S j)). lia.
Qed.

Lemma join_dom symbols results acc :
  length results = length symbols ->
  dom (fold_left join_step (zip symbols results) acc) = dom acc ∪ list_to_set symbols.
Proof.
  revert results acc. induction symbols as [ | a symbols IH]; intros results acc Hlen.
  - simpl. rewrite (right_id_L ∅ (∪)). reflexivity.
  - destruct results as [ | r results]; [ discriminate | ]. simpl.
    rewrite IH by (simpl in Hlen; lia).
    unfold join_step. simpl. rewrite dom_insert_L.
    rewrite (assoc_L (∪) (dom acc)), (comm_L (∪) (dom acc)). reflexivity.
Qed.

(** *** The event loop *)

Lemma resume_length ws symbols l j :
  length (tasks (resume ws symbols l j)) = length (tasks l).
Proof.
  unfold resume. destruct (tasks l !! j) as [[r | ] | ]; [ reflexivity | | reflexivity ].
  destruct (symbols !! j) as [symbol | ]; [ | reflexivity ].
  destruct (complete (ws j) symbol (sys l)) as [[r s'] evs]. simpl.
  apply length_insert.
Qed.

Lemma fold_resume_length ws symbols js l :
  length (tasks (fold_left (resume ws symbols) js l)) = length (tasks l).
Proof.
  revert l. induction js as [ | j js IH]; intros l; [ reflexivity | ].
  simpl. rewrite IH. apply resume_length.
Qed.

Lemma start_length ws s symbols :
  length (fst <$> imap (start ws s) symbols) = length symbols.
Proof. rewrite length_fmap, length_imap. reflexivity. Qed.

Lemma gather_length ws order symbols s :
  length (fst (fst (gather ws order symbols s))) = length symbols.
Proof.
  unfold gather. simpl. rewrite length_fmap, fold_resume_length. simpl.
  apply start_length.
Qed.

(** A finished task stays as it is. *)
Lemma resume_done ws symbols l (i j : nat) r :
  tasks l !! i = Some (Done r) -> tasks (resume ws symbols l j) !! i = Some (Done r).
Proof.
  intros Hi. unfold resume.
  destruct (tasks l !! j) as [[r' | ] | ] eqn:Ej; [ exact Hi | | exact Hi ].
  destruct (symbols !! j) as [symbol | ]; [ | exact Hi ].
  destruct (complete (ws j) symbol (sys l)) as [[r' s'] evs]. simpl.
  rewrite list_lookup_insert_ne; [ exact Hi | ]. intros ->. congruence.
Qed.

Lemma fold_resume_done ws symbols js l (i : nat) r :
  tasks l !! i = Some (Done r) ->
  tasks (fold_left (resume ws symbols) js l) !! i = Some (Done r).
Proof.
  revert l. induction js as [ | j js IH]; intros l Hi; [ exact Hi | ].
  simpl. apply IH. apply resume_done. exact Hi.
Qed.

(** A waiting task is finished by its own turn. *)
Lemma resume_self ws symbols l (i : nat) symbol :
  tasks l !! i = Some Waiting -> symbols !! i = Some symbol ->
  tasks (resume ws symbols l i) !! i
  = Some (Done (Returns (fst (fst (complete (ws i) symbol (sys l)))))).
Proof.
  intros Hi Hs. unfold resume. rewrite Hi, Hs.
  destruct (complete (ws i) symbol (sys l)) as [[r s'] evs]. simpl.
  apply list_lookup_insert_eq. apply lookup_lt_Some in Hi. exact Hi.
Qed.

Lemma resume_is_done ws symbols l (i : nat) :
  (i < length symbols)%nat -> length (tasks l) = length symbols ->
  exists r, tasks (resume ws symbols l i) !! i = Some (Done r).
Proof.
  intros Hlt Hlen.
  destruct (lookup_lt_is_Some_2 symbols i Hlt) as [symbol Hs].
  destruct (lookup_lt_is_Some_2 (tasks l) i ltac:(lia)) as [[r | ] Ht].
  - exists r. apply resume_done. exact Ht.
  - eexists. apply (resume_self _ _ _ _ symbol Ht Hs).
Qed.

Lemma fold_resume_is_done ws symbols js l (i : nat) :
  (i < length symbols)%nat -> length (tasks l) = length symbols -> i ∈ js ->
  exists r, tasks (fold_left (resume ws symbols) js l) !! i = Some (Done r).
Proof.
  intros Hlt. revert l. induction js as [ | j js IH]; intros l Hlen Hin.
  - inversion Hin.
  - simpl. destruct (decide (i = j)) as [-> | Hne].
    + destruct (resume_is_done ws symbols l j Hlt Hlen) as [r Hr].
      exists r. apply fold_resume_done. exact Hr.
    + apply IH; [ rewrite resume_length; exact Hlen | ].
      apply elem_of_cons in Hin as [Hin | Hin]; [ contradiction | exact Hin ].
Qed.

(** [gather] returns when every task has finished. *)
Lemma gather_all_done ws order symbols s (i : nat) :
  (i < length symbols)%nat ->
  exists r,
    tasks (fold_left (resume ws symbols) (order ++ seq 0 (length symbols))
             (mkLoop (fst <$> imap (start ws s) symbols) s
                (concat (snd <$> imap (start ws s) symbols)))) !! i
    = Some (Done r).
Proof.
  intros Hlt. apply fold_resume_is_done; [ exact Hlt | apply start_length | ].
  apply elem_of_app. right. apply elem_of_seq. lia.
Qed.

End BatchFacts.

Module IsolationFacts.

Lemma latest_quote_append_other prefer symbol q db :
  PriceHistory.symbol q <> symbol ->
  Database.latest_quote prefer symbol (Database.append_quote q db)
  = Database.latest_quote prefer symbol db.
Proof.
  intros Hne. unfold Database.latest_quote, Database.append_quote. simpl.
  rewrite fold_left_app. simpl. unfold Database.newer at 1. simpl.
  rewrite bool_decide_eq_false_2 by exact Hne. reflexivity.
Qed.

(** The resolution of another symbol leaves the latest quote of [symbol]
    as it is. *)
Lemma complete_other_latest prefer w other symbol s :
  other <> symbol ->
  Database.latest_quote prefer symbol (database (snd (fst (complete w other s))))
  = Database.latest_quote prefer symbol (database s).
Proof.
  intros Hne.
  destruct (ResolverFacts.complete_cases w other s)
    as [(p & _ & E) | [(_ & _ & E) | (_ & _ & E)]]; rewrite E; simpl;
    [ | reflexivity | reflexivity ].
  unfold _store_price_history. destruct (World.session_store w); [ | reflexivity ].
  apply latest_quote_append_other. exact Hne.
Qed.

(** What a resolution returns depends on the state through the latest
    quote of its symbol only. *)
Lemma complete_result_stable w symbol s1 s2 :
  Database.latest_quote (World.prefer w) symbol (database s1)
  = Database.latest_quote (World.prefer w) symbol (database s2) ->
  fst (fst (complete w symbol s1)) = fst (fst (complete w symbol s2)).
Proof.
  intros Hl. unfold complete, _get_last_known_price.
  destruct (fetch w symbol) as [[[p | ] | ] evs]; simpl; [ reflexivity | reflexivity | ].
  rewrite Hl. reflexivity.
Qed.

Section OneTask.

Variable ws : nat -> World.t.
Variable symbols : list string.
Variable s : System.
Variable i : nat.
Variable symbol : string.

Hypothesis at_i : symbols !! i = Some symbol.
Hypothesis only_i : forall j : nat, j <> i -> symbols !! j <> Some symbol.

Hypothesis miss : cache_lookup (service s) (World.now_lookup (ws i)) symbol = None.

Lemma pending_resume l (j : nat) :
  pending s i symbol l ->
  (j <> i /\ pending s i symbol (resume ws symbols l j))
  \/ (j = i /\ finished ws s i symbol (resume ws symbols l j)).
Proof.
  intros [Hw Hq]. destruct (decide (j = i)) as [-> | Hne].
  - right. split; [ reflexivity | ]. unfold finished.
    rewrite (BatchFacts.resume_self ws symbols l i symbol Hw at_i).
    rewrite (ResolverFacts.get_current_price_miss _ _ _ miss). simpl.
    rewrite (complete_result_stable (ws i) symbol (sys l) s (Hq _)). reflexivity.
  - left. split; [ exact Hne | ]. unfold pending, resume.
    destruct (tasks l !! j) as [[r | ] | ] eqn:Ej; [ split; assumption | | split; assumption ].
    destruct (symbols !! j) as [other | ] eqn:Es; [ | split; assumption ].
    assert (Ho : other <> symbol).
    { intros ->. exact (only_i j Hne Es). }
    pose proof (fun prefer => complete_other_latest prefer (ws j) other symbol (sys l) Ho)
      as Hk.
    destruct (complete (ws j) other (sys l)) as [[r s'] evs]. simpl in *. split.
    + rewrite list_lookup_insert_ne by exact Hne. exact Hw.
    + intros prefer. rewrite Hk. apply Hq.
Qed.

Lemma fold_resume_finished js l :
  pending s i symbol l -> i ∈ js ->
  finished ws s i symbol (fold_left (resume ws symbols) js l).
Proof.
  revert l. induction js as [ | j js IH]; intros l Hp Hin; [ inversion Hin | ].
  simpl. destruct (pending_resume l j Hp) as [[Hne Hp'] | [-> Hf]].
  - apply IH; [ exact Hp' | ].
    apply elem_of_cons in Hin as [Hin | Hin]; [ congruence | exact Hin ].
  - apply BatchFacts.fold_resume_done. exact Hf.
Qed.

End OneTask.

(** The task of a symbol that occurs once in the batch returns what the
    resolution of that symbol alone, from the state at the time of the
    call, returns: whatever the other tasks do and in whatever order they
    resume. *)
Lemma gather_isolated ws order symbols s (i : nat) symbol :
  symbols !! i = Some symbol ->
  (forall j : nat, j <> i -> symbols !! j <> Some symbol) ->
  fst (fst (gather ws order symbols s)) !! i
  = Some (Returns (fst (fst (get_current_price (ws i) symbol s)))).
Proof.
  intros Hi Honly. unfold gather. simpl.
  rewrite list_lookup_fmap.
  set (l0 := mkLoop (fst <$> imap (start ws s) symbols) s
               (concat (snd <$> imap (start ws s) symbols))).
  assert (H0 : tasks l0 !! i = Some (fst (start ws s i symbol))).
  { simpl. rewrite list_lookup_fmap, list_lookup_imap, Hi. reflexivity. }
  assert (Hin : i ∈ order ++ seq 0 (length symbols)).
  { apply elem_of_app. right. apply elem_of_seq. apply lookup_lt_Some in Hi. lia. }
  unfold start in H0.
  destruct (cache_lookup (service s) (World.now_lookup (ws i)) symbol) as [p | ] eqn:El.
  - cbn [fst] in H0. rewrite (BatchFacts.fold_resume_done ws symbols _ l0 i _ H0).
    rewrite (ResolverFacts.get_current_price_hit _ _ _ _ El). reflexivity.
  - cbn [fst] in H0.
    assert (Hp : pending s i symbol l0) by (split; [ exact H0 | reflexivity ]).
    rewrite (fold_resume_finished ws symbols s i symbol Hi Honly El _ l0 Hp Hin).
    reflexivity.
Qed.

End IsolationFacts.

Module JoinFacts.

Lemma get_multiple_prices_join ws order symbols s :
  fst (fst (get_multiple_prices ws order symbols s))
  = join symbols (fst (fst (gather ws order symbols s))).
Proof.
  unfold get_multiple_prices.
  destruct (gather ws order symbols s) as [[results s'] evs]. reflexivity.
Qed.

(** The entry of a symbol is decided by the results at the positions of
    that symbol. *)
Lemma join_depends symbols results results' acc acc' (symbol : string) :
  length results = length symbols ->
  length results' = length symbols ->
  acc !! symbol = acc' !! symbol ->
  (forall i : nat, symbols !! i = Some symbol -> results !! i = results' !! i) ->
  fold_left join_step (zip symbols results) acc !! symbol
  = fold_left join_step (zip symbols results') acc' !! symbol.
Proof.
  revert results results' acc acc'.
  induction symbols as [ | a symbols IH]; intros results results' acc acc' H1 H2 Hacc Hsame.
  - exact Hacc.
  - destruct results as [ | r results]; [ discriminate | ].
    destruct results' as [ | r' results']; [ discriminate | ].
    simpl. apply IH.
    + simpl in H1. lia.
    + simpl in H2. lia.
    + unfold join_step. simpl. destruct (decide (a = symbol)) as [-> | Hne].
      * specialize (Hsame 0%nat eq_refl). simpl in Hsame. injection Hsame as ->.
        rewrite !lookup_insert_eq. reflexivity.
      * rewrite !lookup_insert_ne by exact Hne. exact Hacc.
    + intros i Hi. exact (Hsame (S i) Hi).
Qed.

End JoinFacts.

(** ** Claims on the batch *)

(** C3: the mapping [get_multiple_prices] returns has exactly the input
    symbols as keys, whatever the provider answers and in whatever order
    the tasks resume; a symbol that occurs once in the input is mapped to
    what its resolution alone, from the state at the time of the call,
    returns, so no other symbol's outcome reaches it; and in the joining
    loop a result that is an exception is stored as none under its symbol
    (the last result of a symbol is the one that stays), while the entry of
    a symbol depends on the results of that symbol only. *)
Theorem C3_batch :
  (forall ws order symbols s,
     dom (fst (fst (get_multiple_prices ws order symbols s))) = list_to_set symbols)
  /\
  (forall ws order symbols s (i : nat) symbol,
     symbols !! i = Some symbol ->
     (forall j : nat, j <> i -> symbols !! j <> Some symbol) ->
     fst (fst (get_multiple_prices ws order symbols s)) !! symbol
     = Some (fst (fst (get_current_price (ws i) symbol s))))
  /\
  (forall symbols results,
     length results = length symbols ->
     dom (join symbols results) = list_to_set symbols /\
     (forall (i : nat) symbol,
        symbols !! i = Some symbol ->
        results !! i = Some Raises ->
        (forall j : nat, (i < j)%nat -> symbols !! j <> Some symbol) ->
        join symbols results !! symbol = Some None) /\
     (forall results' symbol,
        length results' = length symbols ->
        (forall i : nat, symbols !! i = Some symbol -> results !! i = results' !! i) ->
        join symbols results !! symbol = join symbols results' !! symbol)).
Proof.
  split; [ | split ].
  - intros ws order symbols s. rewrite JoinFacts.get_multiple_prices_join.
    unfold join. rewrite BatchFacts.join_dom by apply BatchFacts.gather_length.
    rewrite dom_empty_L. apply (left_id_L ∅ (∪)).
  - intros ws order symbols s i symbol Hi Honly.
    rewrite JoinFacts.get_multiple_prices_join. unfold join.
    rewrite (BatchFacts.join_last symbols _ ∅ i symbol _ Hi
               (IsolationFacts.gather_isolated ws order symbols s i symbol Hi Honly)).
    + reflexivity.
    + intros j Hlt. apply Honly. lia.
  - intros symbols results Hlen. split; [ | split ].
    + unfold join. rewrite BatchFacts.join_dom by exact Hlen.
      rewrite dom_empty_L. apply (left_id_L ∅ (∪)).
    + intros i symbol Hi Hr Hlast. unfold join.
      rewrite (BatchFacts.join_last symbols results ∅ i symbol Raises Hi Hr Hlast).
      reflexivity.
    + intros results' symbol Hlen' Hsame. unfold join.
      apply JoinFacts.join_depends; auto.
Qed.

(** The second part of [C3_batch] on the batch of the test suite, with the
    tasks resuming in the reverse of their creation order. *)
Lemma C3_batch_witness :
  fst (fst (get_multiple_prices one_invalid_world [2; 1; 0]%nat
              ["AAPL"; "INVALID"; "GOOGL"]%string
              (mkSystem PriceService.init empty_database))) !! "GOOGL"%string
  = Some (Some (Decimal.mk 1000 (-1))).
Proof.
  rewrite (proj1 (proj2 C3_batch) one_invalid_world [2; 1; 0]%nat
             ["AAPL"; "INVALID"; "GOOGL"]%string
             (mkSystem PriceService.init empty_database) 2%nat "GOOGL"%string eq_refl).
  - vm_compute. reflexivity.
  - intros [ | [ | [ | j]]] Hne H; [ | | congruence | ]; vm_compute in H; discriminate H.
Defined.

Example batch_with_failure :
  let prices := fst (fst (get_multiple_prices one_invalid_world [] 
                            ["AAPL"; "INVALID"; "GOOGL"]%string
                            (mkSystem PriceService.init empty_database))) in
  prices !! "AAPL"%string = Some (Some (Decimal.mk 1000 (-1))) /\
  prices !! "INVALID"%string = Some None /\
  prices !! "GOOGL"%string = Some (Some (Decimal.mk 1000 (-1))) /\
  size prices = 3%nat.
Proof. vm_compute. repeat split; reflexivity. Qed.

(** C9, at the input where the claim fails: eleven symbols resolved in one
    batch, at one instant, on an empty cache.  Entering the throttler
    delays nobody, and eleven calls reach the Quote Source at that instant,
    one more than the ten per 60 seconds the service configures. *)
Theorem C9_throttler_admits_all :
  (forall self now, SimpleThrottler.aenter self now = now) /\
  SimpleThrottler.rate_limit (PriceService.throttler PriceService.init) = 10 /\
  SimpleThrottler.period (PriceService.throttler PriceService.init) = 60 /\
  let evs := snd (get_multiple_prices (fun _ => quoting_world 0) [] eleven_symbols
                    (mkSystem PriceService.init empty_database)) in
  length (List.filter is_TickerCall evs) = 11%nat /\
  Forall (fun e => match e with TickerCall _ at_ => at_ = 0 | _ => True end) evs.
Proof.
  split; [ reflexivity | ]. split; [ reflexivity | ]. split; [ reflexivity | ].
  vm_compute. split; [ reflexivity | ].
  repeat (constructor; [ solve [ exact I | reflexivity ] | ]). constructor.
Qed.

(** ** The fallback path and further checks *)

Module FallbackFacts.

Lemma latest_inv_keep symbol rows q row :
  latest_inv symbol rows (Some q) ->
  (PriceHistory.symbol row = symbol ->
   PriceHistory.timestamp row <= PriceHistory.timestamp q) ->
  latest_inv symbol (rows ++ [row]) (Some q).
Proof.
  intros (Hq & Hsq & Hmax) Hle.
  split; [ apply elem_of_app; left; exact Hq | ].
  split; [ exact Hsq | ]. intros r Hr Hsr.
  apply elem_of_app in Hr as [Hr | Hr].
  - exact (Hmax r Hr Hsr).
  - apply list_elem_of_singleton in Hr. subst. exact (Hle Hsr).
Qed.

Lemma latest_inv_take symbol rows q row :
  latest_inv symbol rows (Some q) ->
  PriceHistory.symbol row = symbol ->
  PriceHistory.timestamp q <= PriceHistory.timestamp row ->
  latest_inv symbol (rows ++ [row]) (Some row).
Proof.
  intros (Hq & Hsq & Hmax) Es Hle.
  split; [ apply elem_of_app; right; apply list_elem_of_here | ].
  split; [ exact Es | ]. intros r Hr Hsr.
  apply elem_of_app in Hr as [Hr | Hr].
  - specialize (Hmax r Hr Hsr). lia.
  - apply list_elem_of_singleton in Hr. subst. lia.
Qed.

Lemma latest_inv_step prefer symbol rows best row :
  latest_inv symbol rows best ->
  latest_inv symbol (rows ++ [row]) (Database.newer prefer symbol best row).
Proof.
  unfold Database.newer. intros Hinv.
  destruct (bool_decide (PriceHistory.symbol row = symbol)) eqn:Es.
  - apply bool_decide_eq_true in Es.
    destruct best as [q | ].
    + destruct (Z.ltb_spec (PriceHistory.timestamp q) (PriceHistory.timestamp row)).
      * apply (latest_inv_take symbol rows q row Hinv Es). lia.
      * destruct (Z.ltb_spec (PriceHistory.timestamp row) (PriceHistory.timestamp q)).
        -- apply (latest_inv_keep symbol rows q row Hinv). lia.
        -- destruct (prefer q row).
           ++ apply (latest_inv_take symbol rows q row Hinv Es). lia.
           ++ apply (latest_inv_keep symbol rows q row Hinv). lia.
    + simpl. split; [ apply elem_of_app; right; apply list_elem_of_here | ].
      split; [ exact Es | ]. intros r Hr Hsr.
      apply elem_of_app in Hr as [Hr | Hr].
      * destruct (Hinv r Hr Hsr).
      * apply list_elem_of_singleton in Hr. subst. lia.
  - apply bool_decide_eq_false in Es.
    destruct best as [q | ]; simpl in *.
    + destruct Hinv as (Hq & Hsq & Hmax).
      split; [ apply elem_of_app; left; exact Hq | ].
      split; [ exact Hsq | ]. intros r Hr Hsr.
      apply elem_of_app in Hr as [Hr | Hr].
      * exact (Hmax r Hr Hsr).
      * apply list_elem_of_singleton in Hr. subst. contradiction.
    + intros r Hr. apply elem_of_app in Hr as [Hr | Hr].
      * exact (Hinv r Hr).
      * apply list_elem_of_singleton in Hr. subst. exact Es.
Qed.

(** The Fallback Store answers with a quote of the symbol that no other
    quote of the symbol is later than, and with none exactly when the
    history holds no quote of the symbol. *)
Lemma latest_quote_spec prefer symbol db :
  latest_inv symbol (Database.price_history db) (Database.latest_quote prefer symbol db).
Proof.
  unfold Database.latest_quote.
  induction (Database.price_history db) as [ | row rows IH] using rev_ind.
  - intros row Hin. inversion Hin.
  - rewrite fold_left_app. simpl. apply latest_inv_step. exact IH.
Qed.

(** When a step of the fetch raises, the resolution answers from the
    Fallback Store and queries it. *)
Lemma exception_falls_back w symbol s :
  cache_lookup (service s) (World.now_lookup w) symbol = None ->
  fst (fetch w symbol) = Raises ->
  fst (get_current_price w symbol s) = (_get_last_known_price w symbol (database s), s) /\
  FallbackQuery symbol ∈ snd (get_current_price w symbol s).
Proof.
  intros Hm Hr. rewrite (ResolverFacts.get_current_price_miss _ _ _ Hm). simpl.
  unfold complete. destruct (fetch w symbol) as [f evs]. simpl in Hr. subst f. simpl.
  split; [ reflexivity | ].
  do 2 apply list_elem_of_further. apply elem_of_app. right. apply list_elem_of_here.
Qed.

(** A resolution never changes the configuration of the service. *)
Lemma cache_duration_kept w symbol s :
  PriceService._cache_duration (service (snd (fst (get_current_price w symbol s))))
  = PriceService._cache_duration (service s) /\
  PriceService.throttler (service (snd (fst (get_current_price w symbol s))))
  = PriceService.throttler (service s).
Proof.
  unfold get_current_price.
  destruct (cache_lookup (service s) (World.now_lookup w) symbol); [ split; reflexivity | ].
  destruct (ResolverFacts.complete_cases w symbol s)
    as [(p & _ & E) | [(_ & _ & E) | (_ & _ & E)]];
    destruct (complete w symbol s) as [[r s'] evs]; simpl in *;
    injection E as -> ->; split; reflexivity.
Qed.

Lemma store_history w symbol price db :
  Database.portfolios (_store_price_history w symbol price db) = Database.portfolios db /\
  Database.holdings (_store_price_history w symbol price db) = Database.holdings db /\
  Database.next_holding_id (_store_price_history w symbol price db)
  = Database.next_holding_id db /\
  (Database.price_history (_store_price_history w symbol price db)
   = Database.price_history db \/
   exists row,
     Database.price_history (_store_price_history w symbol price db)
     = Database.price_history db ++ [row] /\
     PriceHistory.symbol row = symbol /\ PriceHistory.price row = price /\
     PriceHistory.timestamp row = World.now_stored w).
Proof.
  unfold _store_price_history. destruct (World.session_store w); simpl.
  - repeat split; try reflexivity. right. eexists. repeat split; reflexivity.
  - repeat split; try reflexivity. left. reflexivity.
Qed.

(** A fallback price is the price of a latest stored quote of the symbol. *)
Lemma fallback_answer_aux w symbol db p :
  _get_last_known_price w symbol db = Some p ->
  exists q,
    q ∈ Database.price_history db /\
    PriceHistory.symbol q = symbol /\ PriceHistory.price q = p.
Proof.
  unfold _get_last_known_price. destruct (World.session_query w); [ | discriminate ].
  pose proof (FallbackFacts.latest_quote_spec (World.prefer w) symbol db) as H.
  destruct (Database.latest_quote (World.prefer w) symbol db) as [q | ];
    simpl in *; [ | discriminate ].
  intros [= <-]. destruct H as (Hq & Hs & _). exists q. auto.
Qed.

End FallbackFacts.

(** ** Symbols *)

Module SymbolFacts.

Lemma ascii_upper_char_idem c : ascii_upper_char (ascii_upper_char c) = ascii_upper_char c.
Proof. destruct c as [[] [] [] [] [] [] [] []]; vm_compute; reflexivity. Qed.

Lemma ascii_upper_idem s : ascii_upper (ascii_upper s) = ascii_upper s.
Proof.
  induction s as [ | c s IH]; simpl; [ reflexivity | ].
  rewrite ascii_upper_char_idem, IH. reflexivity.
Qed.

Lemma add_holding_canonical upper now holding_data db :
  canonical_holdings upper db ->
  canonical_holdings upper (snd (PortfolioService.add_holding upper now holding_data db)).
Proof.
  unfold canonical_holdings, PortfolioService.add_holding. intros H.
  destruct (Database.get_portfolio (HoldingCreate.portfolio_id holding_data) db);
    [ | exact H ].
  simpl. apply Forall_app. split; [ exact H | ].
  constructor; [ | constructor ]. simpl. eexists. reflexivity.
Qed.

Lemma update_holding_canonical upper now holding_id holding_data db :
  canonical_holdings upper db ->
  canonical_holdings upper
    (snd (PortfolioService.update_holding upper now holding_id holding_data db)).
Proof.
  unfold canonical_holdings, PortfolioService.update_holding. intros H.
  destruct (Database.get_holding holding_id db) as [holding | ] eqn:Eg; [ | exact H ].
  simpl. apply Forall_fmap. unfold Database.get_holding in Eg.
  apply find_some in Eg as [Hin _].
  assert (Hold : canonical upper (Holding.symbol holding)).
  { rewrite Forall_forall in H. apply H. apply list_elem_of_In. exact Hin. }
  eapply Forall_impl; [ exact H | ]. intros h Hh. simpl.
  unfold PortfolioService.replace_holding.
  destruct (bool_decide (Holding.id h = Some holding_id)); [ | exact Hh ].
  simpl. destruct (HoldingUpdate.symbol holding_data); [ eexists; reflexivity | exact Hold ].
Qed.

Lemma listing_canonical upper portfolio_id db :
  canonical_holdings upper db ->
  Forall (fun h => canonical upper (Holding.symbol h))
    (PortfolioService.get_portfolio_holdings portfolio_id db).
Proof.
  unfold canonical_holdings, PortfolioService.get_portfolio_holdings. intros H.
  rewrite merge_sort_Permutation.
  rewrite Forall_forall in H. apply Forall_forall. intros h Hin.
  apply H. apply list_elem_of_In. apply list_elem_of_In in Hin.
  apply filter_In in Hin as [Hin _]. exact Hin.
Qed.

(** The row an update stores is among the stored rows. *)
Lemma replace_holding_stored holding_id holding holding' (hs : list Holding.t) :
  List.find (fun h => bool_decide (Holding.id h = Some holding_id)) hs = Some holding ->
  holding' ∈ PortfolioService.replace_holding holding_id holding' <$> hs.
Proof.
  intros Hg. apply find_some in Hg as [Hin Hid].
  apply list_elem_of_fmap. exists holding. split; [ | apply list_elem_of_In; exact Hin ].
  unfold PortfolioService.replace_holding. rewrite Hid. reflexivity.
Qed.

(** Every event of a resolution names the symbol the resolution was given. *)
Lemma complete_names w symbol s : Forall (names symbol) (snd (complete w symbol s)).
Proof.
  assert (Hf : Forall (names symbol) (snd (fetch w symbol))).
  { eapply Forall_impl; [ apply ResolverFacts.fetch_events | ].
    intros e [-> | ->]; reflexivity. }
  unfold complete. destruct (fetch w symbol) as [[[p | ] | ] evs]; cbn [snd] in *;
    apply Forall_app; (split; [ exact Hf | ]);
    repeat (constructor; [ first [ reflexivity | exact I ] | ]); constructor.
Qed.

Lemma resolution_names w symbol s :
  Forall (names symbol) (snd (get_current_price w symbol s)).
Proof.
  destruct (cache_lookup (service s) (World.now_lookup w) symbol) as [p | ] eqn:El.
  - rewrite (ResolverFacts.get_current_price_hit _ _ _ _ El). constructor.
  - rewrite (ResolverFacts.get_current_price_miss _ _ _ El). cbn [snd].
    constructor; [ exact I | ]. constructor; [ reflexivity | ]. apply complete_names.
Qed.

End SymbolFacts.

(** C8, as the claim states it, fails in the price service: with a fresh
    cache entry under AAPL and a provider that is down, the symbol aapl
    resolves to none, and AAPL, its uppercase form, to the cached price. *)
Lemma C8_counterexample :
  ascii_upper "aapl" = "AAPL"%string /\
  fst (fst (get_current_price (failing_world 1) "aapl" aapl_cached_system)) = None /\
  fst (fst (get_current_price (failing_world 1) "AAPL" aapl_cached_system))
  = Some (Decimal.mk 10000 (-2)).
Proof. repeat split; vm_compute; reflexivity. Qed.

(** C8, amended.  The operations that store a symbol put it in uppercase,
    with [upper] standing for [str.upper]: [add_holding] stores
    [upper symbol]; [update_holding] stores [upper symbol] when a symbol
    is given and keeps the stored symbol otherwise; so two symbols of the
    same uppercase form are stored as the same symbol, every stored symbol
    stays the uppercase form of some text, and so are the symbols listed
    for a portfolio, the ones handed to the price service.  The price
    service changes no symbol and uses the one it is given as it is: a fresh
    cache entry under that very string is a hit and no entry under it is a
    miss, whatever other keys hold; on a miss the provider is called with
    it; every event of the resolution names it; a live price is cached
    under it and recorded under it; a price answered without a live price
    is the price of a quote stored under it; and the price map of a batch
    is keyed by the strings of the batch. *)
Theorem C8_symbols_stored_uppercase :
  forall upper : string -> string,
    (forall now holding_data db holding db',
       PortfolioService.add_holding upper now holding_data db = (Returns holding, db') ->
       Holding.symbol holding = upper (HoldingCreate.symbol holding_data) /\
       holding ∈ Database.holdings db')
    /\
    (forall now holding_id holding_data db holding,
       Database.get_holding holding_id db = Some holding ->
       exists holding',
         fst (PortfolioService.update_holding upper now holding_id holding_data db)
         = Some holding' /\
         Holding.symbol holding'
         = match HoldingUpdate.symbol holding_data with
           | Some symbol => upper symbol
           | None => Holding.symbol holding
           end /\
         holding' ∈ Database.holdings
                      (snd (PortfolioService.update_holding upper now holding_id
                              holding_data db)))
    /\
    (forall now holding_data symbol' db,
       upper symbol' = upper (HoldingCreate.symbol holding_data) ->
       PortfolioService.add_holding upper now (entered_as symbol' holding_data) db
       = PortfolioService.add_holding upper now holding_data db)
    /\
    (forall now holding_id holding_data symbol symbol' db,
       upper symbol' = upper symbol ->
       PortfolioService.update_holding upper now holding_id
         (renamed_to symbol' holding_data) db
       = PortfolioService.update_holding upper now holding_id
           (renamed_to symbol holding_data) db)
    /\
    (forall now holding_data db,
       canonical_holdings upper db ->
       canonical_holdings upper
         (snd (PortfolioService.add_holding upper now holding_data db)))
    /\
    (forall now holding_id holding_data db,
       canonical_holdings upper db ->
       canonical_holdings upper
         (snd (PortfolioService.update_holding upper now holding_id holding_data db)))
    /\
    (forall portfolio_id db,
       canonical_holdings upper db ->
       Forall (fun h => canonical upper (Holding.symbol h))
         (PortfolioService.get_portfolio_holdings portfolio_id db))
    /\
    (forall w symbol s p t,
       PriceService._price_cache (service s) !! symbol = Some (p, t) ->
       World.now_lookup w - t < seconds (PriceService._cache_duration (service s)) ->
       get_current_price w symbol s = (Some p, s, []))
    /\
    (forall w symbol s,
       PriceService._price_cache (service s) !! symbol = None ->
       exists rest,
         snd (get_current_price w symbol s)
         = ThrottlerEnter :: TickerCall symbol (World.now_lookup w) :: rest)
    /\
    (forall w symbol s, Forall (names symbol) (snd (get_current_price w symbol s)))
    /\
    (forall w symbol s p,
       cache_lookup (service s) (World.now_lookup w) symbol = None ->
       live_price w symbol = Some p ->
       let s' := snd (fst (get_current_price w symbol s)) in
       PriceService._price_cache (service s')
       = <[symbol := (p, World.now_cached w)]> (PriceService._price_cache (service s)) /\
       (Database.price_history (database s') = Database.price_history (database s) \/
        exists row,
          Database.price_history (database s')
          = Database.price_history (database s) ++ [row] /\
          PriceHistory.symbol row = symbol /\ PriceHistory.price row = p))
    /\
    (forall w symbol s p,
       cache_lookup (service s) (World.now_lookup w) symbol = None ->
       live_price w symbol = None ->
       fst (fst (get_current_price w symbol s)) = Some p ->
       exists q,
         q ∈ Database.price_history (database s) /\
         PriceHistory.symbol q = symbol /\ PriceHistory.price q = p)
    /\
    (forall ws order symbols s,
       dom (fst (fst (get_multiple_prices ws order symbols s))) = list_to_set symbols).
Proof.
  intros upper.
  split.
  { intros now holding_data db holding db'. unfold PortfolioService.add_holding.
    destruct (Database.get_portfolio (HoldingCreate.portfolio_id holding_data) db);
      [ | discriminate ].
    intros [= <- <-]. split; [ reflexivity | ].
    simpl. apply elem_of_app. right. apply list_elem_of_here. }
  split.
  { intros now holding_id holding_data db holding Hg.
    unfold PortfolioService.update_holding. rewrite Hg. cbn [fst snd].
    eexists. split; [ reflexivity | ]. split; [ reflexivity | ].
    cbn [Database.holdings Database.with_holdings].
    apply (SymbolFacts.replace_holding_stored holding_id holding). exact Hg. }
  split.
  { intros now holding_data symbol' db E. unfold PortfolioService.add_holding, entered_as.
    cbn [HoldingCreate.portfolio_id HoldingCreate.symbol HoldingCreate.asset_type
         HoldingCreate.quantity HoldingCreate.purchase_price HoldingCreate.purchase_date
         HoldingCreate.notes].
    rewrite E. reflexivity. }
  split.
  { intros now holding_id holding_data symbol symbol' db E.
    unfold PortfolioService.update_holding, renamed_to.
    cbn [HoldingUpdate.symbol HoldingUpdate.asset_type HoldingUpdate.quantity
         HoldingUpdate.purchase_price HoldingUpdate.purchase_date HoldingUpdate.notes].
    rewrite E. reflexivity. }
  split; [ apply SymbolFacts.add_holding_canonical | ].
  split; [ apply SymbolFacts.update_holding_canonical | ].
  split; [ apply SymbolFacts.listing_canonical | ].
  split.
  { intros w symbol s p t Hc Hf. apply ResolverFacts.get_current_price_hit.
    apply ResolverFacts.cache_lookup_Some. exists t. split; assumption. }
  split.
  { intros w symbol s Hc.
    assert (Hm : cache_lookup (service s) (World.now_lookup w) symbol = None).
    { unfold cache_lookup. unfold Time in *. rewrite Hc. reflexivity. }
    rewrite (ResolverFacts.get_current_price_miss _ _ _ Hm). eexists. reflexivity. }
  split; [ apply SymbolFacts.resolution_names | ].
  split.
  { intros w symbol s p Hm Hp s'. subst s'.
    rewrite (ResolverFacts.get_current_price_miss _ _ _ Hm). cbn [fst snd].
    destruct (ResolverFacts.complete_cases w symbol s)
      as [(p' & Hp' & E) | [(Hn & _ & _) | (Hn & _ & _)]]; [ | congruence | congruence ].
    assert (p' = p) by congruence. subst p'. rewrite E. cbn [fst snd service database].
    split; [ reflexivity | ].
    destruct (FallbackFacts.store_history w symbol p (database s))
      as (_ & _ & _ & [Hh | (row & Hh & Hs & Hr & _)]); [ left; exact Hh | ].
    right. exists row. auto. }
  split.
  { intros w symbol s p Hm Hl.
    rewrite (ResolverFacts.get_current_price_miss _ _ _ Hm). cbn [fst snd].
    destruct (ResolverFacts.complete_cases w symbol s)
      as [(p' & Hp' & _) | [(_ & _ & E) | (_ & _ & E)]]; [ congruence | | ];
      rewrite E; cbn [fst]; [ | discriminate ].
    apply FallbackFacts.fallback_answer_aux. }
  intros ws order symbols s. rewrite JoinFacts.get_multiple_prices_join.
  unfold join. rewrite BatchFacts.join_dom by apply BatchFacts.gather_length.
  rewrite dom_empty_L. apply (left_id_L ∅ (∪)).
Qed.

(** [C8_symbols_stored_uppercase] on the holding of the test suite, entered
    as aapl for a stored portfolio: it is stored as AAPL. *)
Lemma C8_symbols_stored_uppercase_witness :
  PortfolioService.add_holding ascii_upper 0 aapl_lowercase one_portfolio_database
  = (Returns aapl_holding, one_holding_database) /\
  Holding.symbol aapl_holding = ascii_upper "aapl" /\
  aapl_holding ∈ Database.holdings one_holding_database.
Proof.
  split; [ reflexivity | ].
  apply (proj1 (C8_symbols_stored_uppercase ascii_upper) 0 aapl_lowercase
           one_portfolio_database aapl_holding one_holding_database).
  reflexivity.
Defined.


(** Among quotes of equal timestamp the answer follows the choice of the
    database. *)
Example equal_timestamps_left_open :
  Database.latest_quote (fun _ _ => true) "AAPL"
    (Database.mk [] []
       [PriceHistory.mk (Some 1) "AAPL" (Decimal.mk 100 0) 5 "yfinance";
        PriceHistory.mk (Some 2) "AAPL" (Decimal.mk 101 0) 5 "yfinance"] 1)
  = Some (PriceHistory.mk (Some 2) "AAPL" (Decimal.mk 101 0) 5 "yfinance") /\
  Database.latest_quote (fun _ _ => false) "AAPL"
    (Database.mk [] []
       [PriceHistory.mk (Some 1) "AAPL" (Decimal.mk 100 0) 5 "yfinance";
        PriceHistory.mk (Some 2) "AAPL" (Decimal.mk 101 0) 5 "yfinance"] 1)
  = Some (PriceHistory.mk (Some 1) "AAPL" (Decimal.mk 100 0) 5 "yfinance").
Proof. split; vm_compute; reflexivity. Qed.

(** The tests of [tests/test_price_service.py] on the model. *)
Example test_get_current_price_fallback_to_history :
  fst (fst (get_current_price
              (World.mk 1000
                 (fun _ => Returns (Ticker.mk (Returns ∅)
                                      (Returns [RNumber (Decimal.mk 14525 (-2))])))
                 1001 1002 true true (fun _ _ => true))
              "AAPL" (mkSystem PriceService.init empty_database)))
  = Some (Decimal.mk 14525 (-2)).
Proof. vm_compute. reflexivity. Qed.

Example test_get_current_price_failure :
  fst (fst (get_current_price (failing_world 1000) "INVALID"
              (mkSystem PriceService.init empty_database)))
  = None.
Proof. vm_compute. reflexivity. Qed.

Example test_clear_cache :
  PriceService._price_cache (PriceService.clear_cache (service fresh_cache_system)) = ∅.
Proof. reflexivity. Qed.

(** The summary of the test suite, and a tie: the first of two equal
    returns is the best and the worst performer. *)
Example test_get_portfolio_summary :
  let s := Metrics.portfolio_summary 1 "p" 0 [aapl_valued; googl_valued] in
  PortfolioSummary.total_cost s = Decimal.mk 15500 0 /\
  PortfolioSummary.total_current_value s = Decimal.mk 15100 0 /\
  PortfolioSummary.total_absolute_return s = Decimal.mk (-400) 0 /\
  PortfolioSummary.best_performer s = Some "AAPL"%string /\
  PortfolioSummary.worst_performer s = Some "GOOGL"%string.
Proof. vm_compute. repeat split; reflexivity. Qed.

Example tie_keeps_first :
  let s := Metrics.portfolio_summary 1 "p" 0 [googl_valued; aapl_valued; msft_tied] in
  let s' := Metrics.portfolio_summary 1 "p" 0 [msft_tied; aapl_valued] in
  PortfolioSummary.best_performer s = Some "AAPL"%string /\
  PortfolioSummary.best_performer s' = Some "MSFT"%string /\
  PortfolioSummary.worst_performer s' = Some "MSFT"%string.
Proof. vm_compute. repeat split; reflexivity. Qed.

(** The second part of [C7_best_worst] on that tie. *)
Lemma C7_best_worst_witness :
  exists sb sw,
    PortfolioSummary.best_performer
      (Metrics.portfolio_summary 1 "p" 0 [googl_valued; aapl_valued; msft_tied]) = Some sb /\
    first_best [googl_valued; aapl_valued; msft_tied] sb /\
    PortfolioSummary.worst_performer
      (Metrics.portfolio_summary 1 "p" 0 [googl_valued; aapl_valued; msft_tied]) = Some sw /\
    first_worst [googl_valued; aapl_valued; msft_tied] sw.
Proof.
  apply (proj2 (C7_best_worst 1 "p"%string 0 [googl_valued; aapl_valued; msft_tied])
           aapl_valued (Decimal.mk 6666666666666666666666666667 (-27))).
  - apply list_elem_of_further. apply list_elem_of_here.
  - reflexivity.
Defined.

(** * Further properties *)

(** ** A single resolution *)

Module PathFacts.

Lemma probe_malformed fields info pre field post :
  fields = pre ++ field :: post ->
  Forall (unusable info) pre ->
  info !! field = Some RMalformed ->
  probe fields info = Raises.
Proof.
  intros -> Hpre Hf. induction Hpre as [ | g pre [Hg | Hg] _ IH]; simpl.
  - rewrite Hf. reflexivity.
  - rewrite Hg. exact IH.
  - rewrite Hg. exact IH.
Qed.

(** The state a resolution leaves, in each of its three endings. *)
Lemma resolution_state w symbol s :
  snd (fst (get_current_price w symbol s)) = s \/
  exists price,
    cache_lookup (service s) (World.now_lookup w) symbol = None /\
    live_price w symbol = Some price /\
    fst (fst (get_current_price w symbol s)) = Some price /\
    snd (fst (get_current_price w symbol s))
    = mkSystem (cache_store symbol price (World.now_cached w) (service s))
               (_store_price_history w symbol price (database s)).
Proof.
  destruct (cache_lookup (service s) (World.now_lookup w) symbol) as [p | ] eqn:El.
  - left. rewrite (ResolverFacts.get_current_price_hit _ _ _ _ El). reflexivity.
  - rewrite (ResolverFacts.get_current_price_miss _ _ _ El). simpl.
    destruct (ResolverFacts.complete_cases w symbol s)
      as [(p & Hp & E) | [(_ & _ & E) | (_ & _ & E)]]; rewrite E; simpl; auto.
    right. exists p. auto.
Qed.

End PathFacts.

(** X1: when [yf.Ticker] raises, [ticker.info] raises, or no price field is
    usable and [ticker.history] raises, a resolution that missed the cache
    returns what [_get_last_known_price] answers, queries the store, and
    leaves the state as it was. *)
Theorem exception_path :
  forall w symbol s,
    cache_lookup (service s) (World.now_lookup w) symbol = None ->
    (World.ticker w symbol = Raises \/
     exists tk,
       World.ticker w symbol = Returns tk /\
       (Ticker.info tk = Raises \/
        exists info,
          Ticker.info tk = Returns info /\
          Forall (unusable info) PRICE_FIELDS /\
          Ticker.history tk = Raises)) ->
    fst (get_current_price w symbol s)
    = (_get_last_known_price w symbol (database s), s) /\
    FallbackQuery symbol ∈ snd (get_current_price w symbol s).
Proof.
  intros w symbol s Hm Hc. apply FallbackFacts.exception_falls_back; [ exact Hm | ].
  unfold fetch.
  destruct Hc as [-> | (tk & -> & [-> | (info & -> & Hall & Hh)])]; [ reflexivity .. | ].
  rewrite (ResolverFacts.probe_none _ _ Hall), Hh. reflexivity.
Qed.

Lemma exception_path_witness :
  fst (get_current_price (failing_world 1000) "AAPL"
         (mkSystem PriceService.init database_with_quote))
  = (Some (Decimal.mk 100 0), mkSystem PriceService.init database_with_quote).
Proof.
  destruct (exception_path (failing_world 1000) "AAPL"
              (mkSystem PriceService.init database_with_quote) eq_refl
              (or_introl eq_refl)) as [E _].
  rewrite E. vm_compute. reflexivity.
Defined.

(** X2: the probe of [ticker.info] stops at the first field that is present
    and not [None].  When [Decimal] rejects the text of that field, the
    conversion raises: the later fields and [ticker.history] are not tried,
    no price is cached or recorded, and the answer is the one of
    [_get_last_known_price]. *)
Theorem malformed_value_falls_back :
  forall w symbol s tk info pre field post,
    cache_lookup (service s) (World.now_lookup w) symbol = None ->
    World.ticker w symbol = Returns tk ->
    Ticker.info tk = Returns info ->
    PRICE_FIELDS = pre ++ field :: post ->
    Forall (unusable info) pre ->
    info !! field = Some RMalformed ->
    live_price w symbol = None /\
    fst (get_current_price w symbol s)
    = (_get_last_known_price w symbol (database s), s) /\
    (HistoryCall symbol ∉ snd (get_current_price w symbol s)) /\
    FallbackQuery symbol ∈ snd (get_current_price w symbol s).
Proof.
  intros w symbol s tk info pre field post Hm Htk Hinfo Hf Hpre Hbad.
  assert (Hr : fetch w symbol = (Raises, [InfoCall symbol])).
  { unfold fetch. rewrite Htk, Hinfo.
    rewrite (PathFacts.probe_malformed _ _ _ _ _ Hf Hpre Hbad). reflexivity. }
  split; [ unfold live_price; rewrite Hr; reflexivity | ].
  rewrite (ResolverFacts.get_current_price_miss _ _ _ Hm).
  unfold complete. rewrite Hr. cbn [fst snd]. split; [ reflexivity | ].
  unfold submit. cbn [app]. split.
  - rewrite !elem_of_cons, elem_of_nil. intuition discriminate.
  - rewrite !elem_of_cons. auto 10.
Qed.

Lemma malformed_value_falls_back_witness :
  live_price malformed_world "AAPL" = None /\
  fst (get_current_price malformed_world "AAPL"
         (mkSystem PriceService.init database_with_quote))
  = (Some (Decimal.mk 100 0), mkSystem PriceService.init database_with_quote).
Proof.
  destruct (malformed_value_falls_back malformed_world "AAPL"
              (mkSystem PriceService.init database_with_quote)
              (Ticker.mk (Returns {[ "currentPrice"%string := RMalformed;
                                     "regularMarketPrice"%string := RNumber (Decimal.mk 150 0) ]})
                 (Returns [RNumber (Decimal.mk 149 0)]))
              {[ "currentPrice"%string := RMalformed;
                 "regularMarketPrice"%string := RNumber (Decimal.mk 150 0) ]}
              [] "currentPrice"%string ["regularMarketPrice"; "price"; "lastPrice"]%string
              eq_refl eq_refl eq_refl eq_refl (Forall_nil_2 _) eq_refl)
    as (Hl & E & _).
  split; [ exact Hl | ]. rewrite E. vm_compute. reflexivity.
Defined.

(** X3: [_get_last_known_price] answers none when its session fails or
    the history holds no quote of the symbol; otherwise it answers the
    price of a stored quote of that symbol that no quote of the symbol is
    later than. *)
Theorem fallback_answer :
  forall w symbol db,
    match _get_last_known_price w symbol db with
    | None =>
        World.session_query w = false \/
        forall row, row ∈ Database.price_history db -> PriceHistory.symbol row <> symbol
    | Some p =>
        World.session_query w = true /\
        exists q,
          q ∈ Database.price_history db /\
          PriceHistory.symbol q = symbol /\
          PriceHistory.price q = p /\
          forall row, row ∈ Database.price_history db ->
            PriceHistory.symbol row = symbol ->
            PriceHistory.timestamp row <= PriceHistory.timestamp q
    end.
Proof.
  intros w symbol db. unfold _get_last_known_price.
  destruct (World.session_query w); [ | left; reflexivity ].
  pose proof (FallbackFacts.latest_quote_spec (World.prefer w) symbol db) as H.
  destruct (Database.latest_quote (World.prefer w) symbol db) as [q | ]; simpl in *.
  - destruct H as (Hq & Hs & Hmax). split; [ reflexivity | ]. exists q. auto.
  - right. exact H.
Qed.

(** X4: a price that a resolution returns is the fresh cache entry of the
    symbol, or the price the provider just gave, or the price of a stored
    quote of that symbol; nothing else is ever returned. *)
Theorem price_provenance :
  forall w symbol s p,
    fst (fst (get_current_price w symbol s)) = Some p ->
    (exists t,
        PriceService._price_cache (service s) !! symbol = Some (p, t) /\
        World.now_lookup w - t < seconds (PriceService._cache_duration (service s)))
    \/ live_price w symbol = Some p
    \/ (exists q,
          q ∈ Database.price_history (database s) /\
          PriceHistory.symbol q = symbol /\ PriceHistory.price q = p).
Proof.
  intros w symbol s p Hr.
  destruct (cache_lookup (service s) (World.now_lookup w) symbol) as [c | ] eqn:El.
  - rewrite (ResolverFacts.get_current_price_hit _ _ _ _ El) in Hr. simpl in Hr.
    injection Hr as ->. left. apply ResolverFacts.cache_lookup_Some. exact El.
  - rewrite (ResolverFacts.get_current_price_miss _ _ _ El) in Hr. simpl in Hr.
    destruct (ResolverFacts.complete_cases w symbol s)
      as [(p' & Hp' & E) | [(_ & _ & E) | (_ & _ & E)]]; rewrite E in Hr; simpl in Hr.
    + right. left. congruence.
    + right. right. exact (FallbackFacts.fallback_answer_aux w symbol (database s) p Hr).
    + discriminate.
Qed.

Lemma price_provenance_witness :
  (exists t,
      PriceService._price_cache (service fresh_cache_system) !! "TEST"%string
      = Some (Decimal.mk 10000 (-2), t) /\
      World.now_lookup (failing_world 5) - t
      < seconds (PriceService._cache_duration (service fresh_cache_system)))
  \/ live_price (failing_world 5) "TEST" = Some (Decimal.mk 10000 (-2))
  \/ (exists q,
        q ∈ Database.price_history (database fresh_cache_system) /\
        PriceHistory.symbol q = "TEST"%string /\
        PriceHistory.price q = Decimal.mk 10000 (-2)).
Proof.
  apply (price_provenance (failing_world 5) "TEST" fresh_cache_system).
  vm_compute. reflexivity.
Defined.

(** X5: cache round trip.  After a resolution that obtained a live price,
    a resolution of the same symbol that starts less than
    [_cache_duration] seconds after the price was cached returns that price
    whatever the provider would answer, makes no call and changes
    nothing. *)
Theorem cache_round_trip :
  forall w w' symbol s p,
    cache_lookup (service s) (World.now_lookup w) symbol = None ->
    live_price w symbol = Some p ->
    World.now_lookup w' - World.now_cached w
    < seconds (PriceService._cache_duration (service s)) ->
    get_current_price w' symbol (snd (fst (get_current_price w symbol s)))
    = (Some p, snd (fst (get_current_price w symbol s)), []).
Proof.
  intros w w' symbol s p Hm Hp Hlt.
  rewrite (ResolverFacts.get_current_price_miss _ _ _ Hm). simpl.
  destruct (ResolverFacts.complete_cases w symbol s)
    as [(q & Hq & Eq) | [(Hn & _) | (Hn & _)]]; [ | congruence | congruence ].
  assert (q = p) by congruence. subst q. rewrite Eq. simpl.
  apply ResolverFacts.get_current_price_hit.
  apply ResolverFacts.cache_lookup_Some. exists (World.now_cached w). simpl.
  split; [ apply lookup_insert_eq | exact Hlt ].
Qed.

Lemma cache_round_trip_witness :
  get_current_price (failing_world 300001000) "AAPL"
    (snd (fst (get_current_price (quoting_world 1000) "AAPL"
                 (mkSystem PriceService.init empty_database))))
  = (Some (Decimal.mk 15050 (-2)),
     snd (fst (get_current_price (quoting_world 1000) "AAPL"
                 (mkSystem PriceService.init empty_database))), []).
Proof.
  apply (cache_round_trip (quoting_world 1000) (failing_world 300001000) "AAPL"
           (mkSystem PriceService.init empty_database) (Decimal.mk 15050 (-2))).
  - reflexivity.
  - reflexivity.
  - vm_compute. reflexivity.
Defined.

(** X6: [clear_cache] empties the cache and keeps the throttler, the cache
    duration and the database; the next resolution of any symbol enters
    the throttler and calls the Quote Source. *)
Theorem clear_cache_forces_fetch :
  forall w symbol s,
    PriceService._price_cache (service (cleared s)) = ∅ /\
    PriceService._cache_duration (service (cleared s))
    = PriceService._cache_duration (service s) /\
    PriceService.throttler (service (cleared s)) = PriceService.throttler (service s) /\
    database (cleared s) = database s /\
    exists evs,
      snd (get_current_price w symbol (cleared s))
      = ThrottlerEnter :: TickerCall symbol (World.now_lookup w) :: evs.
Proof.
  intros w symbol s. repeat split.
  assert (Hm : cache_lookup (service (cleared s)) (World.now_lookup w) symbol = None).
  { unfold cache_lookup, cleared. simpl. rewrite lookup_empty. reflexivity. }
  rewrite (ResolverFacts.get_current_price_miss _ _ _ Hm). simpl. eauto.
Qed.

(** X7: a resolution changes nothing but the cache entry of its symbol and
    the end of the quote history: the entries of other symbols, the
    throttler, the cache duration, the portfolios and the holdings stay,
    and the history is as before or longer by one quote of that symbol. *)
Theorem resolution_frame :
  forall w symbol s,
    let s' := snd (fst (get_current_price w symbol s)) in
    (forall other, other <> symbol ->
       PriceService._price_cache (service s') !! other
       = PriceService._price_cache (service s) !! other) /\
    PriceService.throttler (service s') = PriceService.throttler (service s) /\
    PriceService._cache_duration (service s')
    = PriceService._cache_duration (service s) /\
    Database.portfolios (database s') = Database.portfolios (database s) /\
    Database.holdings (database s') = Database.holdings (database s) /\
    Database.next_holding_id (database s') = Database.next_holding_id (database s) /\
    (Database.price_history (database s') = Database.price_history (database s) \/
     exists row,
       Database.price_history (database s')
       = Database.price_history (database s) ++ [row] /\
       PriceHistory.symbol row = symbol).
Proof.
  intros w symbol s s'. subst s'.
  destruct (PathFacts.resolution_state w symbol s) as [-> | (p & _ & _ & _ & ->)].
  - repeat split; auto.
  - simpl.
    destruct (FallbackFacts.store_history w symbol p (database s))
      as (Hp & Hh & Hn & Hph).
    split; [ intros other Hne; apply lookup_insert_ne; congruence | ].
    repeat split; try assumption.
    destruct Hph as [Hph | (row & Hrow & Hs & _)]; [ left; exact Hph | ].
    right. exists row. auto.
Qed.

(** X8: fallback round trip.  Once a resolution has obtained a live price
    and recorded it, at a time later than every quote of the symbol
    already stored, the Fallback Store answers that price for the symbol
    as long as its session works, whichever row the database prefers among
    quotes of equal timestamp. *)
Theorem fallback_round_trip :
  forall w w' symbol s p,
    cache_lookup (service s) (World.now_lookup w) symbol = None ->
    live_price w symbol = Some p ->
    World.session_store w = true ->
    World.session_query w' = true ->
    (forall row, row ∈ Database.price_history (database s) ->
       PriceHistory.symbol row = symbol ->
       PriceHistory.timestamp row < World.now_stored w) ->
    _get_last_known_price w' symbol (database (snd (fst (get_current_price w symbol s))))
    = Some p.
Proof.
  intros w w' symbol s p Hm Hp Hst Hq Hts.
  rewrite (ResolverFacts.get_current_price_miss _ _ _ Hm). simpl.
  destruct (ResolverFacts.complete_cases w symbol s)
    as [(p' & Hp' & E) | [(Hn & _) | (Hn & _)]]; [ | congruence | congruence ].
  assert (p' = p) by congruence. subst p'. rewrite E. simpl.
  unfold _get_last_known_price, _store_price_history. rewrite Hq, Hst.
  unfold Database.latest_quote, Database.append_quote. simpl.
  rewrite fold_left_app. simpl.
  pose proof (FallbackFacts.latest_quote_spec (World.prefer w') symbol (database s)) as Hl.
  unfold Database.latest_quote in Hl. unfold Database.newer at 1. simpl.
  rewrite bool_decide_eq_true_2 by reflexivity.
  destruct (fold_left (Database.newer (World.prefer w') symbol)
              (Database.price_history (database s)) None)
    as [b | ]; simpl in *; [ | reflexivity ].
  destruct Hl as (Hb & Hs & _). specialize (Hts b Hb Hs).
  destruct (Z.ltb_spec (PriceHistory.timestamp b) (World.now_stored w)); [ reflexivity | lia ].
Qed.

Lemma fallback_round_trip_witness :
  _get_last_known_price (failing_world 2000) "AAPL"
    (database (snd (fst (get_current_price (quoting_world 1000) "AAPL"
                           (mkSystem PriceService.init database_with_quote)))))
  = Some (Decimal.mk 15050 (-2)).
Proof.
  apply (fallback_round_trip (quoting_world 1000) (failing_world 2000) "AAPL"
           (mkSystem PriceService.init database_with_quote) (Decimal.mk 15050 (-2)));
    try reflexivity.
  intros row Hin _. apply list_elem_of_singleton in Hin. subst row. reflexivity.
Defined.

(** X28: on a cache miss the live price is the decimal value of the first
    field, in the order currentPrice, regularMarketPrice, price, lastPrice,
    that is present and not [None], and the last close of the provider's
    history when no field is.  A resolution that obtains a live price [p]
    returns [p], stores [(p, now)] in the cache under the symbol and calls
    [_store_price_history]: the quote is appended to the history when the
    session of that call works, and the history stays as it was when it
    fails. *)
Theorem live_price_recorded :
  forall w symbol s,
    cache_lookup (service s) (World.now_lookup w) symbol = None ->
    (forall tk info,
       World.ticker w symbol = Returns tk ->
       Ticker.info tk = Returns info ->
       (forall pre field post d,
          PRICE_FIELDS = pre ++ field :: post ->
          Forall (unusable info) pre ->
          info !! field = Some (RNumber d) ->
          live_price w symbol = Some d) /\
       (forall hist d,
          Forall (unusable info) PRICE_FIELDS ->
          Ticker.history tk = Returns hist ->
          last hist = Some (RNumber d) ->
          live_price w symbol = Some d))
    /\
    (forall p,
       live_price w symbol = Some p ->
       fst (fst (get_current_price w symbol s)) = Some p /\
       PriceService._price_cache (service (snd (fst (get_current_price w symbol s))))
       = <[symbol := (p, World.now_cached w)]> (PriceService._price_cache (service s)) /\
       Database.price_history (database (snd (fst (get_current_price w symbol s))))
       = (if World.session_store w
          then Database.price_history (database s) ++
                 [PriceHistory.mk
                    (Some (Z.of_nat (length (Database.price_history (database s))) + 1))
                    symbol p (World.now_stored w) "yfinance"]
          else Database.price_history (database s)) /\
       QuoteAppend symbol ∈ snd (get_current_price w symbol s)).
Proof.
  intros w symbol s Hm. split.
  - intros tk info Htk Hinfo. split.
    + intros pre field post d Hf Hpre Hd.
      assert (Hp : probe PRICE_FIELDS info = Returns (Some d)).
      { apply ResolverFacts.probe_first. exists pre, field, post. auto. }
      unfold live_price, fetch. rewrite Htk, Hinfo, Hp. reflexivity.
    + intros hist d Hall Hhist Hlast.
      unfold live_price, fetch.
      rewrite Htk, Hinfo, (ResolverFacts.probe_none _ _ Hall), Hhist.
      unfold last_close. rewrite Hlast. reflexivity.
  - intros p Hp.
    rewrite (ResolverFacts.get_current_price_miss _ _ _ Hm). simpl.
    destruct (ResolverFacts.complete_cases w symbol s)
      as [(p' & Hp' & E) | [(Hn & _ & _) | (Hn & _ & _)]]; [ | congruence | congruence ].
    assert (p' = p) by congruence. subst p'.
    rewrite E. simpl. split; [ reflexivity | ]. split; [ reflexivity | ]. split.
    + unfold _store_price_history. destruct (World.session_store w); reflexivity.
    + do 2 apply list_elem_of_further.
      unfold complete. unfold live_price in Hp.
      destruct (fetch w symbol) as [[[q | ] | ] evs]; simpl in *; try discriminate.
      apply elem_of_app. right. apply list_elem_of_here.
Qed.

Lemma live_price_recorded_witness :
  cache_lookup PriceService.init 1000 "AAPL" = None /\
  live_price (quoting_world 1000) "AAPL" = Some (Decimal.mk 15050 (-2)) /\
  fst (fst (get_current_price (quoting_world 1000) "AAPL"
              (mkSystem PriceService.init empty_database)))
  = Some (Decimal.mk 15050 (-2)).
Proof.
  split; [ reflexivity | ]. split; [ reflexivity | ].
  exact (proj1 (proj2 (live_price_recorded (quoting_world 1000) "AAPL"
                         (mkSystem PriceService.init empty_database) eq_refl)
                  (Decimal.mk 15050 (-2)) eq_refl)).
Defined.

(** ** The batch, further *)

Module TraceFacts.

Lemma complete_no_ticker w symbol s :
  List.filter is_TickerCall (snd (complete w symbol s)) = [].
Proof.
  assert (Hf : List.filter is_TickerCall (snd (fetch w symbol)) = []).
  { pose proof (ResolverFacts.fetch_events w symbol) as H.
    induction H as [ | e evs [-> | ->] _ IH]; simpl; auto. }
  unfold complete. destruct (fetch w symbol) as [[[p | ] | ] evs]; simpl in *;
    rewrite List.filter_app, Hf; reflexivity.
Qed.

Lemma resume_ticker ws symbols l j :
  List.filter is_TickerCall (trace (resume ws symbols l j))
  = List.filter is_TickerCall (trace l).
Proof.
  unfold resume. destruct (tasks l !! j) as [[r | ] | ]; [ reflexivity | | reflexivity ].
  destruct (symbols !! j) as [symbol | ]; [ | reflexivity ].
  pose proof (complete_no_ticker (ws j) symbol (sys l)) as H.
  destruct (complete (ws j) symbol (sys l)) as [[r s'] evs]. simpl in *.
  rewrite List.filter_app, H, app_nil_r. reflexivity.
Qed.

Lemma fold_resume_ticker ws symbols js l :
  List.filter is_TickerCall (trace (fold_left (resume ws symbols) js l))
  = List.filter is_TickerCall (trace l).
Proof.
  revert l. induction js as [ | j js IH]; intros l; [ reflexivity | ].
  simpl. rewrite IH. apply resume_ticker.
Qed.

(** The calls submitted by the first segments, one per task that misses. *)
Lemma count_submitted {A} (f : nat -> A -> Task * list Event) (g : nat -> A -> bool) l :
  (forall i x, length (List.filter is_TickerCall (snd (f i x)))
               = if g i x then 1%nat else 0%nat) ->
  length (List.filter is_TickerCall (concat (snd <$> imap f l)))
  = length (List.filter (fun b : bool => b) (imap g l)).
Proof.
  revert f g. induction l as [ | x l IH]; intros f g H; [ reflexivity | ].
  rewrite !imap_cons, fmap_cons. cbn [concat List.filter].
  rewrite List.filter_app, length_app, (H 0%nat x).
  rewrite (IH (f ∘ S) (g ∘ S)) by (intros i y; apply H).
  destruct (g 0%nat x); reflexivity.
Qed.

Lemma start_submits ws s i symbol :
  length (List.filter is_TickerCall (snd (start ws s i symbol)))
  = if misses ws s i symbol then 1%nat else 0%nat.
Proof.
  unfold start, misses.
  destruct (cache_lookup (service s) (World.now_lookup (ws i)) symbol); reflexivity.
Qed.

Lemma get_multiple_prices_trace ws order symbols s :
  snd (get_multiple_prices ws order symbols s) = snd (gather ws order symbols s).
Proof.
  unfold get_multiple_prices.
  destruct (gather ws order symbols s) as [[results s'] evs]. reflexivity.
Qed.

Lemma get_multiple_prices_state ws order symbols s :
  snd (fst (get_multiple_prices ws order symbols s))
  = snd (fst (gather ws order symbols s)).
Proof.
  unfold get_multiple_prices.
  destruct (gather ws order symbols s) as [[results s'] evs]. reflexivity.
Qed.

Lemma ticker_calls ws order symbols s :
  length (List.filter is_TickerCall (snd (get_multiple_prices ws order symbols s)))
  = count_misses ws s symbols.
Proof.
  rewrite get_multiple_prices_trace. unfold gather. simpl.
  rewrite fold_resume_ticker. simpl. unfold count_misses.
  apply count_submitted. intros i x. apply start_submits.
Qed.

Lemma count_misses_le ws s symbols : (count_misses ws s symbols <= length symbols)%nat.
Proof.
  unfold count_misses.
  etransitivity; [ apply List.filter_length_le | ]. rewrite length_imap. reflexivity.
Qed.

(** With no task waiting the loop has nothing to resume. *)
Lemma resume_idle ws symbols l j :
  (forall i : nat, tasks l !! i <> Some Waiting) -> resume ws symbols l j = l.
Proof.
  intros H. unfold resume. specialize (H j).
  destruct (tasks l !! j) as [[r | ] | ]; [ reflexivity | contradiction | reflexivity ].
Qed.

Lemma fold_resume_idle ws symbols js l :
  (forall i : nat, tasks l !! i <> Some Waiting) ->
  fold_left (resume ws symbols) js l = l.
Proof.
  intros H. induction js as [ | j js IH]; [ reflexivity | ].
  simpl. rewrite resume_idle by exact H. exact IH.
Qed.

End TraceFacts.

(** X9: a batch calls the Quote Source once for each input position whose
    symbol misses the cache at the time of the call, a repeated symbol
    counting each time, and not at all for the positions that hit; so
    never more often than it has symbols. *)
Theorem batch_calls_once_per_miss :
  forall ws order symbols s,
    length (List.filter is_TickerCall (snd (get_multiple_prices ws order symbols s)))
    = count_misses ws s symbols /\
    (count_misses ws s symbols <= length symbols)%nat.
Proof.
  intros ws order symbols s. split.
  - apply TraceFacts.ticker_calls.
  - apply TraceFacts.count_misses_le.
Qed.

Example repeated_symbol_fetched_twice :
  length (List.filter is_TickerCall
            (snd (get_multiple_prices (fun _ => quoting_world 0) []
                    ["AAPL"; "AAPL"]%string
                    (mkSystem PriceService.init empty_database))))
  = 2%nat.
Proof. vm_compute. reflexivity. Qed.

Module WarmFacts.

Lemma no_events {A} (f : nat -> A -> Task * list Event) l :
  (forall (i : nat) x, l !! i = Some x -> snd (f i x) = []) ->
  concat (snd <$> imap f l) = [].
Proof.
  revert f. induction l as [ | x l IH]; intros f H; [ reflexivity | ].
  rewrite imap_cons, fmap_cons. cbn [concat].
  rewrite (H 0%nat x eq_refl). simpl. apply IH. intros i y Hy. apply (H (S i) y Hy).
Qed.

(** Some position of [symbol] is its last. *)
Lemma last_position (symbols : list string) symbol :
  symbol ∈ symbols ->
  exists i : nat,
    symbols !! i = Some symbol /\
    forall j : nat, (i < j)%nat -> symbols !! j <> Some symbol.
Proof.
  induction symbols as [ | a symbols IH]; intros Hin; [ inversion Hin | ].
  destruct (decide (symbol ∈ symbols)) as [Hl | Hn].
  - destruct (IH Hl) as (i & Hi & Hlast). exists (S i). split; [ exact Hi | ].
    intros [ | j] Hlt; [ lia | ]. simpl. apply Hlast. lia.
  - apply elem_of_cons in Hin as [-> | Hin]; [ | contradiction ].
    exists 0%nat. split; [ reflexivity | ].
    intros [ | j] Hlt Hj; [ lia | ]. simpl in Hj.
    apply Hn. apply list_elem_of_lookup. eauto.
Qed.

(** Two hits on one symbol read the same entry. *)
Lemma hits_agree self now now' symbol p p' :
  cache_lookup self now symbol = Some p ->
  cache_lookup self now' symbol = Some p' -> p = p'.
Proof.
  intros H H'. apply ResolverFacts.cache_lookup_Some in H as (t & Ht & _).
  apply ResolverFacts.cache_lookup_Some in H' as (t' & Ht' & _). congruence.
Qed.

End WarmFacts.

(** X10: when every symbol of a batch hits the cache, the batch makes no
    call of any kind, leaves the state as it was and maps every symbol to
    its cached price. *)
Theorem warm_batch :
  forall ws order symbols s,
    (forall (i : nat) symbol, symbols !! i = Some symbol -> misses ws s i symbol = false) ->
    snd (get_multiple_prices ws order symbols s) = [] /\
    snd (fst (get_multiple_prices ws order symbols s)) = s /\
    (forall (i : nat) symbol,
       symbols !! i = Some symbol ->
       fst (fst (get_multiple_prices ws order symbols s)) !! symbol
       = Some (cache_lookup (service s) (World.now_lookup (ws i)) symbol)).
Proof.
  intros ws order symbols s Hhit.
  set (l0 := mkLoop (fst <$> imap (start ws s) symbols) s
               (concat (snd <$> imap (start ws s) symbols))).
  assert (Hstart : forall (i : nat) symbol, symbols !! i = Some symbol ->
            exists p, cache_lookup (service s) (World.now_lookup (ws i)) symbol = Some p /\
                      start ws s i symbol = (Done (Returns (Some p)), [])).
  { intros i symbol Hi. specialize (Hhit i symbol Hi). unfold misses in Hhit. unfold start.
    destruct (cache_lookup (service s) (World.now_lookup (ws i)) symbol) as [p | ];
      [ eauto | discriminate ]. }
  assert (Hidle : forall i : nat, tasks l0 !! i <> Some Waiting).
  { intros i. simpl. rewrite list_lookup_fmap, list_lookup_imap.
    destruct (symbols !! i) as [symbol | ] eqn:Hi; simpl; [ | discriminate ].
    destruct (Hstart i symbol Hi) as (p & _ & ->). discriminate. }
  assert (Hfold : fold_left (resume ws symbols) (order ++ seq 0 (length symbols)) l0 = l0)
    by (apply TraceFacts.fold_resume_idle; exact Hidle).
  assert (Hg : gather ws order symbols s
               = (result_of <$> tasks l0, s, concat (snd <$> imap (start ws s) symbols))).
  { unfold gather. fold l0. rewrite Hfold. reflexivity. }
  split; [ | split ].
  - rewrite TraceFacts.get_multiple_prices_trace, Hg. simpl.
    apply WarmFacts.no_events. intros i x Hx.
    destruct (Hstart i x Hx) as (p & _ & ->). reflexivity.
  - rewrite TraceFacts.get_multiple_prices_state, Hg. reflexivity.
  - intros i symbol Hi.
    rewrite JoinFacts.get_multiple_prices_join, Hg. simpl.
    assert (Hin : symbol ∈ symbols) by (apply list_elem_of_lookup; eauto).
    destruct (WarmFacts.last_position symbols symbol Hin) as (k & Hk & Hlast).
    destruct (Hstart i symbol Hi) as (p & Hp & _).
    destruct (Hstart k symbol Hk) as (q & Hq & Hsk).
    assert (Hr : (result_of <$> (fst <$> imap (start ws s) symbols)) !! k
                 = Some (Returns (Some q))).
    { rewrite !list_lookup_fmap, list_lookup_imap, Hk. simpl. rewrite Hsk. reflexivity. }
    unfold join. rewrite (BatchFacts.join_last symbols _ ∅ k symbol _ Hk Hr Hlast).
    simpl. rewrite Hp. rewrite (WarmFacts.hits_agree _ _ _ _ _ _ Hp Hq). reflexivity.
Qed.

Lemma warm_batch_witness :
  snd (get_multiple_prices (fun _ => failing_world 5) [] ["TEST"; "TEST"]%string
         fresh_cache_system) = [] /\
  snd (fst (get_multiple_prices (fun _ => failing_world 5) [] ["TEST"; "TEST"]%string
              fresh_cache_system)) = fresh_cache_system.
Proof.
  assert (H : forall (i : nat) symbol,
            ["TEST"; "TEST"]%string !! i = Some symbol ->
            misses (fun _ => failing_world 5) fresh_cache_system i symbol = false).
  { intros [ | [ | i]] symbol Hi; simpl in Hi; [ | | discriminate ];
      injection Hi as <-; vm_compute; reflexivity. }
  destruct (warm_batch (fun _ => failing_world 5) [] ["TEST"; "TEST"]%string
              fresh_cache_system H) as (E1 & E2 & _).
  split; assumption.
Defined.

Module BatchFrameFacts.

Lemma changed_within_refl symbols s : changed_within symbols s s.
Proof.
  unfold changed_within. repeat split; auto.
  exists []. split; [ rewrite app_nil_r; reflexivity | constructor ].
Qed.

(** One more task of the batch has run to its end. *)
Lemma changed_within_complete symbols s s1 w symbol :
  symbol ∈ symbols ->
  changed_within symbols s s1 ->
  changed_within symbols s (snd (fst (complete w symbol s1))).
Proof.
  intros Hin (Hc & Ht & Hd & Hp & Hh & Hn & rows & Hrows & Hall).
  destruct (ResolverFacts.complete_cases w symbol s1)
    as [(p & _ & E) | [(_ & _ & E) | (_ & _ & E)]]; rewrite E; simpl;
    [ | unfold changed_within; eauto 15 | unfold changed_within; eauto 15 ].
  destruct (FallbackFacts.store_history w symbol p (database s1)) as (Hp' & Hh' & Hn' & Hph).
  unfold changed_within. simpl.
  split.
  { intros other Ho. rewrite lookup_insert_ne; [ apply Hc; exact Ho | ].
    intros ->. contradiction. }
  split; [ exact Ht | ]. split; [ exact Hd | ].
  split; [ congruence | ]. split; [ congruence | ]. split; [ congruence | ].
  destruct Hph as [Hph | (row & Hrow & Hs & _)].
  - exists rows. rewrite Hph. auto.
  - exists (rows ++ [row]). rewrite Hrow, Hrows, app_assoc. split; [ reflexivity | ].
    apply Forall_app. split; [ exact Hall | ].
    constructor; [ rewrite Hs; exact Hin | constructor ].
Qed.

Lemma changed_within_resume ws symbols s l j :
  changed_within symbols s (sys l) ->
  changed_within symbols s (sys (resume ws symbols l j)).
Proof.
  intros H. unfold resume.
  destruct (tasks l !! j) as [[r | ] | ]; [ exact H | | exact H ].
  destruct (symbols !! j) as [symbol | ] eqn:Hj; [ | exact H ].
  assert (Hin : symbol ∈ symbols) by (apply list_elem_of_lookup; eauto).
  pose proof (changed_within_complete symbols s (sys l) (ws j) symbol Hin H) as Hc.
  destruct (complete (ws j) symbol (sys l)) as [[r s'] evs]. exact Hc.
Qed.

Lemma changed_within_fold ws symbols s js l :
  changed_within symbols s (sys l) ->
  changed_within symbols s (sys (fold_left (resume ws symbols) js l)).
Proof.
  revert l. induction js as [ | j js IH]; intros l H; [ exact H | ].
  simpl. apply IH. apply changed_within_resume. exact H.
Qed.

End BatchFrameFacts.

(** X11: whatever the provider answers and in whatever order the tasks
    resume, a batch changes only the cache entries of its own symbols and
    appends only quotes of its own symbols to the history; the cache
    entries of other symbols, the quotes already stored, the portfolios,
    the holdings and the configuration of the service stay as they
    were. *)
Theorem batch_frame :
  forall ws order symbols s,
    changed_within symbols s (snd (fst (get_multiple_prices ws order symbols s))).
Proof.
  intros ws order symbols s. rewrite TraceFacts.get_multiple_prices_state.
  unfold gather. simpl. apply BatchFrameFacts.changed_within_fold. simpl.
  apply BatchFrameFacts.changed_within_refl.
Qed.

(** X12: for a batch of distinct symbols the mapping returned does not
    depend on the order in which the provider's answers arrive. *)
Theorem batch_order_irrelevant :
  forall ws order order' symbols s,
    NoDup symbols ->
    fst (fst (get_multiple_prices ws order symbols s))
    = fst (fst (get_multiple_prices ws order' symbols s)).
Proof.
  intros ws order order' symbols s Hnd.
  rewrite !JoinFacts.get_multiple_prices_join. apply map_eq. intros key.
  destruct (decide (key ∈ symbols)) as [Hin | Hout].
  - apply list_elem_of_lookup in Hin as [i Hi].
    assert (Honly : forall j : nat, j <> i -> symbols !! j <> Some key).
    { intros j Hne Hj. apply Hne. exact (NoDup_lookup symbols j i key Hnd Hj Hi). }
    assert (Hlast : forall j : nat, (i < j)%nat -> symbols !! j <> Some key)
      by (intros j Hlt; apply Honly; lia).
    unfold join.
    rewrite (BatchFacts.join_last symbols _ ∅ i key _ Hi
               (IsolationFacts.gather_isolated ws order symbols s i key Hi Honly) Hlast).
    rewrite (BatchFacts.join_last symbols _ ∅ i key _ Hi
               (IsolationFacts.gather_isolated ws order' symbols s i key Hi Honly) Hlast).
    reflexivity.
  - unfold join. rewrite !BatchFacts.join_untouched by exact Hout. reflexivity.
Qed.

Lemma batch_order_irrelevant_witness :
  fst (fst (get_multiple_prices one_invalid_world [2; 1; 0]%nat
              ["AAPL"; "INVALID"; "GOOGL"]%string
              (mkSystem PriceService.init empty_database)))
  = fst (fst (get_multiple_prices one_invalid_world [] 
                ["AAPL"; "INVALID"; "GOOGL"]%string
                (mkSystem PriceService.init empty_database))).
Proof.
  apply (batch_order_irrelevant one_invalid_world [2; 1; 0]%nat []
           ["AAPL"; "INVALID"; "GOOGL"]%string
           (mkSystem PriceService.init empty_database)).
  repeat (apply NoDup_cons_2;
          [ rewrite ?elem_of_cons, elem_of_nil; intuition discriminate | ]).
  apply NoDup_nil_2.
Defined.

(** ** The metrics aggregator, further *)

Module ValueFacts.

Lemma fix_zero d : Decimal.coef d = 0 -> Decimal.coef (Decimal.fix_ d) = 0.
Proof. intros H. unfold Decimal.fix_. rewrite H. simpl. exact H. Qed.

Lemma sub_self x : Decimal.coef (Decimal.sub x x) = 0.
Proof.
  unfold Decimal.sub, Decimal.add, Decimal.neg. simpl. apply fix_zero. simpl.
  rewrite Z.min_id. ring.
Qed.

Lemma percent_of_zero a b pr :
  Decimal.coef a = 0 -> Metrics.percent_of a b = Some pr -> Decimal.coef pr = 0.
Proof.
  intros Ha. unfold Metrics.percent_of, Decimal.div.
  destruct (Decimal.coef b =? 0); [ discriminate | ].
  rewrite Ha. simpl. intros [= <-]. unfold Decimal.mul. apply fix_zero. reflexivity.
Qed.

Lemma scan_skips_unvalued hs acc :
  fold_left Metrics.scan_step
    (List.filter (fun h => bool_decide (is_Some (HoldingWithMetrics.percentage_return h))) hs)
    acc
  = fold_left Metrics.scan_step hs acc.
Proof.
  revert acc. induction hs as [ | h hs IH]; intros acc; [ reflexivity | ].
  simpl. destruct (HoldingWithMetrics.percentage_return h) as [p | ] eqn:Hp.
  - rewrite bool_decide_eq_true_2 by eauto. simpl. apply IH.
  - rewrite bool_decide_eq_false_2 by (intros [? ?]; discriminate).
    rewrite IH. rewrite (MetricsFacts.scan_step_unvalued acc h Hp). reflexivity.
Qed.

Lemma valued_holdings_in_order_aux :
  forall prices now holdings,
    Forall (fun holding => is_Some (Holding.id holding)) holdings ->
    Holding.id <$> holdings
    = (fun h => Some (HoldingWithMetrics.id h))
        <$> Metrics.holdings_with_metrics prices now holdings /\
    Holding.symbol <$> holdings
    = HoldingWithMetrics.symbol <$> Metrics.holdings_with_metrics prices now holdings /\
    (fun holding => dict_get prices (Holding.symbol holding)) <$> holdings
    = HoldingWithMetrics.current_price <$> Metrics.holdings_with_metrics prices now holdings.
Proof.
  intros prices now holdings Hall. unfold Metrics.holdings_with_metrics.
  induction Hall as [ | holding holdings [hid Hid] _ (IH1 & IH2 & IH3)];
    [ repeat split | ].
  cbn [omap list_omap].
  assert (E : exists h, Metrics.holding_with_metrics prices now holding = Some h /\
                HoldingWithMetrics.id h = hid /\
                HoldingWithMetrics.symbol h = Holding.symbol holding /\
                HoldingWithMetrics.current_price h
                = dict_get prices (Holding.symbol holding)).
  { unfold Metrics.holding_with_metrics. rewrite Hid.
    destruct (dict_get prices (Holding.symbol holding)); eexists; repeat split. }
  destruct E as (h & -> & Ei & Es & Ep). rewrite !fmap_cons.
  rewrite IH1, IH2, IH3, Hid, Ei, Es, Ep. repeat split.
Qed.

End ValueFacts.

(** X13: in a valued holding the cost is never null; the current value and
    the absolute return are null exactly when no price was found for the
    symbol; and the percentage return is there exactly when a price was
    found and the cost is greater than zero. *)
Theorem null_pattern :
  forall prices now holding h,
    Metrics.holding_with_metrics prices now holding = Some h ->
    is_Some (HoldingWithMetrics.total_cost h) /\
    (HoldingWithMetrics.current_value h = None <->
     HoldingWithMetrics.current_price h = None) /\
    (HoldingWithMetrics.absolute_return h = None <->
     HoldingWithMetrics.current_price h = None) /\
    (is_Some (HoldingWithMetrics.percentage_return h) <->
     is_Some (HoldingWithMetrics.current_price h) /\
     Decimal.gtb (Decimal.mul (Holding.quantity holding) (Holding.purchase_price holding))
       Decimal.zero = true).
Proof.
  intros prices now holding h. unfold Metrics.holding_with_metrics.
  destruct (Holding.id holding) as [hid | ]; [ | discriminate ].
  destruct (dict_get prices (Holding.symbol holding)) as [cp | ]; intros [= <-]; simpl.
  - split; [ eauto | ]. split; [ split; discriminate | ]. split; [ split; discriminate | ].
    destruct (Decimal.gtb _ Decimal.zero) eqn:Hg.
    + destruct (MetricsFacts.guarded_div_Some
                  (Decimal.sub (Decimal.mul (Holding.quantity holding) cp)
                     (Decimal.mul (Holding.quantity holding) (Holding.purchase_price holding)))
                  _ Hg) as (q & _ & ->).
      split; eauto.
    + split; [ intros [? ?]; discriminate | intros [_ ?]; discriminate ].
  - split; [ eauto | ]. split; [ split; reflexivity | ]. split; [ split; reflexivity | ].
    split; [ intros [? ?]; discriminate | intros [[? ?] _]; discriminate ].
Qed.

Lemma null_pattern_witness :
  is_Some (HoldingWithMetrics.total_cost aapl_valued) /\
  (HoldingWithMetrics.current_value aapl_valued = None <->
   HoldingWithMetrics.current_price aapl_valued = None).
Proof.
  destruct (null_pattern price_160 0 holding_10_at_150 aapl_valued) as (H1 & H2 & _).
  - vm_compute. reflexivity.
  - split; assumption.
Defined.

(** X14: a holding priced at its purchase price breaks even: its absolute
    return is zero, and so is its percentage return when it has one. *)
Theorem break_even :
  forall prices now holding h,
    Metrics.holding_with_metrics prices now holding = Some h ->
    dict_get prices (Holding.symbol holding) = Some (Holding.purchase_price holding) ->
    (exists ar, HoldingWithMetrics.absolute_return h = Some ar /\ Decimal.coef ar = 0) /\
    (forall pr, HoldingWithMetrics.percentage_return h = Some pr -> Decimal.coef pr = 0).
Proof.
  intros prices now holding h. unfold Metrics.holding_with_metrics.
  destruct (Holding.id holding) as [hid | ]; [ | discriminate ].
  intros Hh Hp. rewrite Hp in Hh. injection Hh as <-. simpl. split.
  - eexists. split; [ reflexivity | ]. apply ValueFacts.sub_self.
  - intros pr. destruct (Decimal.gtb _ Decimal.zero); [ | discriminate ].
    apply ValueFacts.percent_of_zero. apply ValueFacts.sub_self.
Qed.

Lemma break_even_witness :
  exists ar,
    HoldingWithMetrics.absolute_return at_cost_valued = Some ar /\ Decimal.coef ar = 0.
Proof.
  apply (break_even at_cost_prices 0 holding_10_at_150 at_cost_valued).
  - vm_compute. reflexivity.
  - vm_compute. reflexivity.
Defined.

(** X15: the valued holdings come out in the order of the holdings given,
    one for each holding that has an id, with its id, its symbol and the
    price the map holds for that symbol. *)
Theorem valued_holdings_in_order :
  forall prices now holdings,
    Forall (fun holding => is_Some (Holding.id holding)) holdings ->
    Holding.id <$> holdings
    = (fun h => Some (HoldingWithMetrics.id h))
        <$> Metrics.holdings_with_metrics prices now holdings /\
    Holding.symbol <$> holdings
    = HoldingWithMetrics.symbol <$> Metrics.holdings_with_metrics prices now holdings /\
    (fun holding => dict_get prices (Holding.symbol holding)) <$> holdings
    = HoldingWithMetrics.current_price <$> Metrics.holdings_with_metrics prices now holdings.
Proof. exact ValueFacts.valued_holdings_in_order_aux. Qed.

Lemma valued_holdings_in_order_witness :
  Holding.symbol <$> [holding_10_at_150]
  = HoldingWithMetrics.symbol <$> Metrics.holdings_with_metrics price_160 0 [holding_10_at_150].
Proof.
  apply (valued_holdings_in_order price_160 0 [holding_10_at_150]).
  constructor; [ eexists; reflexivity | constructor ].
Defined.

(** X16: holdings without a percentage return have no part in the choice
    of the best and the worst performer: the summary names the same two
    symbols when those holdings are left out. *)
Theorem unvalued_holdings_ignored :
  forall portfolio_id portfolio_name now hs,
    let valued :=
      List.filter (fun h => bool_decide (is_Some (HoldingWithMetrics.percentage_return h)))
        hs in
    PortfolioSummary.best_performer
      (Metrics.portfolio_summary portfolio_id portfolio_name now hs)
    = PortfolioSummary.best_performer
        (Metrics.portfolio_summary portfolio_id portfolio_name now valued) /\
    PortfolioSummary.worst_performer
      (Metrics.portfolio_summary portfolio_id portfolio_name now hs)
    = PortfolioSummary.worst_performer
        (Metrics.portfolio_summary portfolio_id portfolio_name now valued).
Proof.
  intros portfolio_id portfolio_name now hs valued.
  destruct (MetricsFacts.summary_performers portfolio_id portfolio_name now hs) as [-> ->].
  destruct (MetricsFacts.summary_performers portfolio_id portfolio_name now valued)
    as [-> ->].
  unfold Metrics.scan. subst valued. rewrite ValueFacts.scan_skips_unvalued. auto.
Qed.

(** X17: the summary names a best performer exactly when it names a worst
    one, which is exactly when some holding has a percentage return; and
    the return the scan keeps for the worst is not greater than the one it
    keeps for the best. *)
Theorem best_and_worst_together :
  forall portfolio_id portfolio_name now hs,
    let s := Metrics.portfolio_summary portfolio_id portfolio_name now hs in
    (PortfolioSummary.best_performer s = None <-> unvalued hs) /\
    (PortfolioSummary.worst_performer s = None <-> unvalued hs) /\
    (forall b w,
       Metrics.best_return (Metrics.scan hs) = Some b ->
       Metrics.worst_return (Metrics.scan hs) = Some w ->
       Decimal.le w b).
Proof.
  intros portfolio_id portfolio_name now hs s. subst s.
  destruct (MetricsFacts.summary_performers portfolio_id portfolio_name now hs) as [-> ->].
  destruct (MetricsFacts.scan_invariants hs) as [Hb Hw].
  unfold best_inv in Hb. unfold worst_inv in Hw.
  split; [ | split ].
  - split.
    + intros Hn. destruct (Metrics.best_return (Metrics.scan hs)); simpl in Hb.
      * destruct Hb as (i & h & _ & _ & E & _). congruence.
      * apply Hb.
    + intros Hu. exact (proj2 (MetricsFacts.scan_inv_None _ _ _ _ _ Hb Hu)).
  - split.
    + intros Hn. destruct (Metrics.worst_return (Metrics.scan hs)); simpl in Hw.
      * destruct Hw as (i & h & _ & _ & E & _). congruence.
      * apply Hw.
    + intros Hu. exact (proj2 (MetricsFacts.scan_inv_None _ _ _ _ _ Hw Hu)).
  - intros b w Eb Ew. rewrite Eb in Hb. rewrite Ew in Hw. simpl in Hb, Hw.
    destruct Hb as (_ & _ & _ & _ & _ & Hmax & _).
    destruct Hw as (k & hw & Hk & Hpw & _).
    exact (Hmax k hw w Hk Hpw).
Qed.

(** ** The stored holdings and portfolios *)

Module StoreFacts.

Lemma find_snoc {A} (f : A -> bool) l x :
  List.find f (l ++ [x])
  = match List.find f l with
    | Some y => Some y
    | None => if f x then Some x else None
    end.
Proof.
  induction l as [ | a l IH]; simpl; [ reflexivity | ].
  destruct (f a); [ reflexivity | exact IH ].
Qed.

Lemma find_none_iff {A} (f : A -> bool) l :
  List.find f l = None <-> Forall (fun x => f x = false) l.
Proof.
  induction l as [ | a l IH]; simpl.
  - split; [ constructor | reflexivity ].
  - destruct (f a) eqn:Ea.
    + split; [ discriminate | ]. intros H. inversion H; subst. congruence.
    + rewrite IH. split; [ intros H; constructor; assumption | ].
      intros H. inversion H; subst. assumption.
Qed.

Lemma find_filter_out {A} (f : A -> bool) l :
  List.find f (List.filter (fun x => negb (f x)) l) = None.
Proof.
  induction l as [ | a l IH]; simpl; [ reflexivity | ].
  destruct (f a) eqn:Ea; simpl; [ exact IH | ]. rewrite Ea. exact IH.
Qed.

(** Filtering on one test does not change what is found by a test it
    keeps. *)
Lemma find_filter_keep {A} (f g : A -> bool) l :
  (forall x, f x = true -> g x = true) ->
  List.find f (List.filter g l) = List.find f l.
Proof.
  intros H. induction l as [ | a l IH]; simpl; [ reflexivity | ].
  destruct (g a) eqn:Eg; simpl.
  - destruct (f a); [ reflexivity | exact IH ].
  - destruct (f a) eqn:Ef; [ | exact IH ]. rewrite (H a Ef) in Eg. discriminate.
Qed.

(** Replacing the rows a test selects by a row the test selects. *)
Lemma find_replace_same {A} (f : A -> bool) (y : A) l :
  f y = true ->
  List.find f ((fun x => if f x then y else x) <$> l)
  = match List.find f l with
    | Some _ => Some y
    | None => None
    end.
Proof.
  intros Hy. induction l as [ | a l IH]; [ reflexivity | ].
  rewrite fmap_cons. simpl. destruct (f a) eqn:Ea.
  - rewrite Hy. reflexivity.
  - rewrite Ea. exact IH.
Qed.

Lemma find_replace_other {A} (f g : A -> bool) (y : A) l :
  (forall x, f x = true -> g x = false) ->
  g y = false ->
  List.find g ((fun x => if f x then y else x) <$> l) = List.find g l.
Proof.
  intros H Hy. induction l as [ | a l IH]; [ reflexivity | ].
  rewrite fmap_cons. simpl. destruct (f a) eqn:Ea.
  - rewrite Hy, (H a Ea). exact IH.
  - destruct (g a); [ reflexivity | exact IH ].
Qed.

Lemma NoDup_fmap_filter {A B} (f : A -> B) (g : A -> bool) l :
  NoDup (f <$> l) -> NoDup (f <$> List.filter g l).
Proof.
  induction l as [ | a l IH]; [ intros H; exact H | ].
  rewrite fmap_cons. intros H. apply NoDup_cons in H as [Hn Hd].
  simpl. destruct (g a); [ | apply IH; exact Hd ].
  rewrite fmap_cons. apply NoDup_cons. split; [ | apply IH; exact Hd ].
  intros Hin. apply Hn. apply list_elem_of_fmap in Hin as (x & -> & Hx).
  apply list_elem_of_fmap. exists x. split; [ reflexivity | ].
  apply list_elem_of_In. apply list_elem_of_In in Hx.
  apply filter_In in Hx as [Hx _]. exact Hx.
Qed.

Lemma Forall_filter_keep {A} (P : A -> Prop) (g : A -> bool) l :
  Forall P l -> Forall P (List.filter g l).
Proof.
  induction 1 as [ | a l Ha _ IH]; simpl; [ constructor | ].
  destruct (g a); [ constructor; assumption | exact IH ].
Qed.

(** The row found under an id carries that id. *)
Lemma get_holding_id holding_id db holding :
  Database.get_holding holding_id db = Some holding ->
  Holding.id holding = Some holding_id /\ holding ∈ Database.holdings db.
Proof.
  unfold Database.get_holding. intros H. apply find_some in H as [Hin Hid].
  apply bool_decide_eq_true in Hid. split; [ exact Hid | ].
  apply list_elem_of_In. exact Hin.
Qed.

Lemma replace_keeps_id holding_id holding' h :
  Holding.id holding' = Some holding_id ->
  Holding.id (PortfolioService.replace_holding holding_id holding' h) = Holding.id h.
Proof.
  intros H. unfold PortfolioService.replace_holding.
  destruct (bool_decide (Holding.id h = Some holding_id)) eqn:E; [ | reflexivity ].
  apply bool_decide_eq_true in E. congruence.
Qed.

#[global] Instance symbol_le_total : Total PortfolioService.symbol_le.
Proof. intros h1 h2. apply String.leb_total. Qed.

#[global] Instance name_le_total : Total PortfolioService.name_le.
Proof. intros p1 p2. apply String.leb_total. Qed.

End StoreFacts.

(** X18: [add_holding] for a portfolio that is not stored raises and stores
    nothing.  For a stored portfolio, in a store whose holding ids are
    distinct and below the next id, it returns the new holding: the next
    id, the fields of the input with the symbol in uppercase, the purchase
    date defaulting to the time of the call, both time stamps at that
    time; [get_holding] then finds it under its id and finds every other
    id as before; the store stays well-formed and the portfolios and quotes
    are not touched. *)
Theorem add_then_get :
  forall upper now holding_data db,
    (Database.get_portfolio (HoldingCreate.portfolio_id holding_data) db = None ->
     let db' := snd (PortfolioService.add_holding upper now holding_data db) in
     fst (PortfolioService.add_holding upper now holding_data db) = Raises /\
     Database.holdings db' = Database.holdings db /\
     Database.portfolios db' = Database.portfolios db /\
     Database.price_history db' = Database.price_history db) /\
    (forall portfolio,
       Database.get_portfolio (HoldingCreate.portfolio_id holding_data) db = Some portfolio ->
       well_formed db ->
       exists holding db',
         PortfolioService.add_holding upper now holding_data db = (Returns holding, db') /\
         Holding.id holding = Some (Database.next_holding_id db) /\
         Holding.portfolio_id holding = HoldingCreate.portfolio_id holding_data /\
         Holding.symbol holding = upper (HoldingCreate.symbol holding_data) /\
         Holding.asset_type holding = HoldingCreate.asset_type holding_data /\
         Holding.quantity holding = HoldingCreate.quantity holding_data /\
         Holding.purchase_price holding = HoldingCreate.purchase_price holding_data /\
         Holding.purchase_date holding
         = default now (HoldingCreate.purchase_date holding_data) /\
         Holding.notes holding = HoldingCreate.notes holding_data /\
         Holding.created_at holding = now /\
         Holding.updated_at holding = now /\
         PortfolioService.get_holding (Database.next_holding_id db) db' = Some holding /\
         (forall other, other <> Database.next_holding_id db ->
            PortfolioService.get_holding other db' = PortfolioService.get_holding other db) /\
         well_formed db' /\
         Database.portfolios db' = Database.portfolios db /\
         Database.price_history db' = Database.price_history db).
Proof.
  intros upper now holding_data db. split.
  - intros Hn db'. subst db'. unfold PortfolioService.add_holding. rewrite Hn.
    repeat split; reflexivity.
  - intros portfolio Hp [Hnd Hall]. unfold PortfolioService.add_holding. rewrite Hp.
    eexists _, _. split; [ reflexivity | ].
    do 10 (split; [ reflexivity | ]).
    unfold PortfolioService.get_holding, Database.get_holding. simpl.
    assert (Hfresh : Forall (fun h => bool_decide (Holding.id h = Some (Database.next_holding_id db))
                                      = false) (Database.holdings db)).
    { eapply Forall_impl; [ exact Hall | ]. intros h (hid & Hid & Hlt).
      apply bool_decide_eq_false. rewrite Hid. intros [= ->]. lia. }
    split; [ | split; [ | split ] ].
    + rewrite StoreFacts.find_snoc.
      rewrite (proj2 (StoreFacts.find_none_iff _ _) Hfresh). simpl.
      rewrite bool_decide_eq_true_2 by reflexivity. reflexivity.
    + intros other Hne. rewrite StoreFacts.find_snoc.
      destruct (List.find _ (Database.holdings db)); [ reflexivity | ]. simpl.
      rewrite bool_decide_eq_false_2; [ reflexivity | ]. intros [= E]. congruence.
    + split; simpl.
      * rewrite fmap_app. apply NoDup_app. split; [ exact Hnd | ]. split.
        -- intros x Hx Hin. apply list_elem_of_singleton in Hin. subst x.
           apply list_elem_of_fmap in Hx as (h & Hh & Hin).
           rewrite Forall_forall in Hfresh. specialize (Hfresh h Hin).
           apply bool_decide_eq_false in Hfresh. simpl in Hh. congruence.
        -- apply NoDup_singleton.
      * apply Forall_app. split.
        -- eapply Forall_impl; [ exact Hall | ]. intros h (hid & Hid & Hlt).
           exists hid. split; [ exact Hid | lia ].
        -- constructor; [ | constructor ]. eexists. split; [ reflexivity | lia ].
    + split; reflexivity.
Qed.

Lemma add_then_get_witness :
  PortfolioService.add_holding ascii_upper 0 aapl_lowercase one_portfolio_database
  = (Returns aapl_holding, one_holding_database) /\
  PortfolioService.get_holding 1 one_holding_database = Some aapl_holding /\
  fst (PortfolioService.add_holding ascii_upper 0 orphan_lowercase one_portfolio_database)
  = Raises.
Proof.
  destruct (proj2 (add_then_get ascii_upper 0 aapl_lowercase one_portfolio_database)
              (Portfolio.mk (Some 1) "Tech" "" 0 0) eq_refl
              (conj (NoDup_nil_2 : NoDup (Holding.id <$> [])) (Forall_nil_2 _)))
    as (holding & db' & E & _ & _ & _ & _ & _ & _ & _ & _ & _ & _ & Hg & _).
  vm_compute in E. injection E as <- <-.
  split; [ reflexivity | ]. split; [ exact Hg | ].
  apply (proj1 (add_then_get ascii_upper 0 orphan_lowercase one_portfolio_database) eq_refl).
Defined.

(** X19: [update_holding] on an id that is not stored returns none and
    leaves the store as it is.  On a stored id it keeps the id, the
    portfolio and the creation time, takes each field that is given, the
    symbol in uppercase, and keeps each that is not, stamps the update
    time, and stores the result: [get_holding] then finds it, finds the
    other ids as before, and the store stays well-formed. *)
Theorem update_holding_effect :
  forall upper now holding_id holding_data db,
    (Database.get_holding holding_id db = None ->
     PortfolioService.update_holding upper now holding_id holding_data db = (None, db)) /\
    (forall holding,
       Database.get_holding holding_id db = Some holding ->
       exists holding',
         fst (PortfolioService.update_holding upper now holding_id holding_data db)
         = Some holding' /\
         Holding.id holding' = Some holding_id /\
         Holding.portfolio_id holding' = Holding.portfolio_id holding /\
         Holding.created_at holding' = Holding.created_at holding /\
         Holding.updated_at holding' = now /\
         Holding.symbol holding'
         = match HoldingUpdate.symbol holding_data with
           | Some symbol => upper symbol
           | None => Holding.symbol holding
           end /\
         Holding.quantity holding'
         = default (Holding.quantity holding) (HoldingUpdate.quantity holding_data) /\
         Holding.purchase_price holding'
         = default (Holding.purchase_price holding)
             (HoldingUpdate.purchase_price holding_data) /\
         Holding.asset_type holding'
         = default (Holding.asset_type holding) (HoldingUpdate.asset_type holding_data) /\
         Holding.notes holding'
         = default (Holding.notes holding) (HoldingUpdate.notes holding_data) /\
         Holding.purchase_date holding'
         = default (Holding.purchase_date holding)
             (HoldingUpdate.purchase_date holding_data) /\
         let db' :=
           snd (PortfolioService.update_holding upper now holding_id holding_data db) in
         PortfolioService.get_holding holding_id db' = Some holding' /\
         (forall other, other <> holding_id ->
            PortfolioService.get_holding other db' = PortfolioService.get_holding other db) /\
         (well_formed db -> well_formed db') /\
         Database.portfolios db' = Database.portfolios db /\
         Database.price_history db' = Database.price_history db).
Proof.
  intros upper now holding_id holding_data db. split.
  - intros Hn. unfold PortfolioService.update_holding. rewrite Hn. reflexivity.
  - intros holding Hg. unfold PortfolioService.update_holding. rewrite Hg.
    destruct (StoreFacts.get_holding_id _ _ _ Hg) as [Hid Hin].
    eexists. split; [ reflexivity | ]. simpl.
    set (holding' := Holding.mk _ _ _ _ _ _ _ _ _ _).
    assert (Hid' : Holding.id holding' = Some holding_id) by exact Hid.
    repeat (split; [ first [ exact Hid | reflexivity ] | ]).
    unfold PortfolioService.get_holding, Database.get_holding. simpl.
    split; [ | split; [ | split; [ | split; reflexivity ] ] ].
    + unfold Database.get_holding in Hg.
      pose proof (StoreFacts.find_replace_same
                    (fun h => bool_decide (Holding.id h = Some holding_id)) holding'
                    (Database.holdings db)
                    (bool_decide_eq_true_2 _ Hid')) as E.
      rewrite Hg in E. exact E.
    + intros other Hne.
      apply (StoreFacts.find_replace_other
               (fun h => bool_decide (Holding.id h = Some holding_id))
               (fun h => bool_decide (Holding.id h = Some other)) holding').
      * intros x Hx. apply bool_decide_eq_true in Hx. apply bool_decide_eq_false.
        rewrite Hx. intros [= E]. congruence.
      * apply bool_decide_eq_false. rewrite Hid'. intros [= E]. congruence.
    + intros [Hnd Hall]. split; simpl.
      * rewrite <- list_fmap_compose.
        rewrite (list_fmap_ext (Holding.id ∘ PortfolioService.replace_holding holding_id holding')
                   Holding.id (Database.holdings db)); [ exact Hnd | ].
        intros i x _. simpl. apply StoreFacts.replace_keeps_id. exact Hid'.
      * apply Forall_fmap. eapply Forall_impl; [ exact Hall | ].
        intros h (hid & Hh & Hlt). simpl. exists hid. split; [ | exact Hlt ].
        rewrite (StoreFacts.replace_keeps_id holding_id holding' h Hid'). exact Hh.
Qed.

Lemma update_holding_effect_witness :
  exists holding',
    fst (PortfolioService.update_holding ascii_upper 7 1 new_symbol one_holding_database)
    = Some holding' /\
    Holding.id holding' = Some 1 /\
    Holding.symbol holding' = "MSFT"%string /\
    Holding.quantity holding' = Decimal.mk 10 0.
Proof.
  destruct (proj2 (update_holding_effect ascii_upper 7 1 new_symbol one_holding_database)
              aapl_holding eq_refl)
    as (holding' & E & Hid & _ & _ & _ & Hs & Hq & _).
  exists holding'. split; [ exact E | ]. split; [ exact Hid | ].
  split; [ exact Hs | exact Hq ].
Defined.

Module ListingFacts.

Lemma filter_filter_out {A} (f : A -> bool) l :
  List.filter f (List.filter (fun x => negb (f x)) l) = [].
Proof.
  induction l as [ | a l IH]; simpl; [ reflexivity | ].
  destruct (f a) eqn:Ea; simpl; [ exact IH | ]. rewrite Ea. exact IH.
Qed.

Lemma filter_filter_keep {A} (f g : A -> bool) l :
  (forall x, f x = true -> g x = true) ->
  List.filter f (List.filter g l) = List.filter f l.
Proof.
  intros H. induction l as [ | a l IH]; simpl; [ reflexivity | ].
  destruct (g a) eqn:Eg; simpl.
  - destruct (f a); [ rewrite IH; reflexivity | exact IH ].
  - destruct (f a) eqn:Ef; [ | exact IH ]. rewrite (H a Ef) in Eg. discriminate.
Qed.

End ListingFacts.

(** X20: [delete_holding] on an id that is not stored returns false and
    leaves the store as it is; on a stored id it returns true, after which
    [get_holding] finds nothing under that id and finds the other ids as
    before; the store stays well-formed, no id is given out again, and the
    portfolios and quotes are not touched. *)
Theorem delete_holding_effect :
  forall holding_id db,
    (Database.get_holding holding_id db = None ->
     PortfolioService.delete_holding holding_id db = (false, db)) /\
    (forall holding,
       Database.get_holding holding_id db = Some holding ->
       let db' := snd (PortfolioService.delete_holding holding_id db) in
       fst (PortfolioService.delete_holding holding_id db) = true /\
       PortfolioService.get_holding holding_id db' = None /\
       (forall other, other <> holding_id ->
          PortfolioService.get_holding other db' = PortfolioService.get_holding other db) /\
       (well_formed db -> well_formed db') /\
       Database.next_holding_id db' = Database.next_holding_id db /\
       Database.portfolios db' = Database.portfolios db /\
       Database.price_history db' = Database.price_history db).
Proof.
  intros holding_id db. split.
  - intros Hn. unfold PortfolioService.delete_holding. rewrite Hn. reflexivity.
  - intros holding Hg. unfold PortfolioService.delete_holding. rewrite Hg. simpl.
    unfold PortfolioService.get_holding, Database.get_holding. simpl.
    split; [ reflexivity | ]. split; [ | split; [ | split; [ | repeat split ] ] ].
    + apply (StoreFacts.find_filter_out
               (fun h => bool_decide (Holding.id h = Some holding_id))).
    + intros other Hne. apply StoreFacts.find_filter_keep.
      intros x Hx. apply bool_decide_eq_true in Hx. apply negb_true_iff.
      apply bool_decide_eq_false. rewrite Hx. intros [= E]. congruence.
    + intros [Hnd Hall]. split; simpl.
      * apply StoreFacts.NoDup_fmap_filter. exact Hnd.
      * apply StoreFacts.Forall_filter_keep. exact Hall.
Qed.

Lemma delete_holding_effect_witness :
  PortfolioService.get_holding 1
    (snd (PortfolioService.delete_holding 1 one_holding_database)) = None.
Proof.
  apply (proj2 (delete_holding_effect 1 one_holding_database) aapl_holding eq_refl).
Defined.

(** X21: [delete_portfolio] on an id that is not stored returns false and
    leaves the store as it is; on a stored id it returns true and removes
    the portfolio together with all of its holdings: the portfolio is no
    longer found, its listing of holdings is empty, every other portfolio
    and its listing are as before, and the quotes are not touched. *)
Theorem delete_portfolio_cascades :
  forall portfolio_id db,
    (Database.get_portfolio portfolio_id db = None ->
     PortfolioService.delete_portfolio portfolio_id db = (false, db)) /\
    (forall portfolio,
       Database.get_portfolio portfolio_id db = Some portfolio ->
       let db' := snd (PortfolioService.delete_portfolio portfolio_id db) in
       fst (PortfolioService.delete_portfolio portfolio_id db) = true /\
       PortfolioService.get_portfolio portfolio_id db' = None /\
       PortfolioService.get_portfolio_holdings portfolio_id db' = [] /\
       (forall h, h ∈ Database.holdings db' -> Holding.portfolio_id h <> portfolio_id) /\
       (forall other, other <> portfolio_id ->
          PortfolioService.get_portfolio other db' = PortfolioService.get_portfolio other db /\
          PortfolioService.get_portfolio_holdings other db'
          = PortfolioService.get_portfolio_holdings other db) /\
       (well_formed db -> well_formed db') /\
       Database.price_history db' = Database.price_history db).
Proof.
  intros portfolio_id db. split.
  - intros Hn. unfold PortfolioService.delete_portfolio. rewrite Hn. reflexivity.
  - intros portfolio Hg. unfold PortfolioService.delete_portfolio. rewrite Hg. simpl.
    unfold PortfolioService.get_portfolio, Database.get_portfolio,
      PortfolioService.get_portfolio_holdings. simpl.
    split; [ reflexivity | ].
    split; [ | split; [ | split; [ | split; [ | split; [ | reflexivity ] ] ] ] ].
    + apply (StoreFacts.find_filter_out
               (fun p => bool_decide (Portfolio.id p = Some portfolio_id))).
    + rewrite (ListingFacts.filter_filter_out
                 (fun h => bool_decide (Holding.portfolio_id h = portfolio_id))).
      reflexivity.
    + intros h Hin. apply list_elem_of_In in Hin. apply filter_In in Hin as [_ Hh].
      apply negb_true_iff in Hh. apply bool_decide_eq_false in Hh. exact Hh.
    + intros other Hne. split.
      * apply StoreFacts.find_filter_keep.
        intros x Hx. apply bool_decide_eq_true in Hx. apply negb_true_iff.
        apply bool_decide_eq_false. rewrite Hx. intros [= E]. congruence.
      * f_equal. apply ListingFacts.filter_filter_keep.
        intros x Hx. apply bool_decide_eq_true in Hx. apply negb_true_iff.
        apply bool_decide_eq_false. congruence.
    + intros [Hnd Hall]. split; simpl.
      * apply StoreFacts.NoDup_fmap_filter. exact Hnd.
      * apply StoreFacts.Forall_filter_keep. exact Hall.
Qed.

Lemma delete_portfolio_cascades_witness :
  PortfolioService.get_portfolio_holdings 1
    (snd (PortfolioService.delete_portfolio 1 two_portfolio_database)) = [] /\
  PortfolioService.get_portfolio_holdings 2
    (snd (PortfolioService.delete_portfolio 1 two_portfolio_database))
  = PortfolioService.get_portfolio_holdings 2 two_portfolio_database.
Proof.
  destruct (proj2 (delete_portfolio_cascades 1 two_portfolio_database)
              (Portfolio.mk (Some 1) "Tech" "" 0 0) eq_refl)
    as (_ & _ & He & _ & Ho & _).
  split; [ exact He | ]. apply (Ho 2). discriminate.
Defined.

(** X22: the listing of a portfolio holds exactly the stored holdings of
    that portfolio, each as often as it is stored, in ascending order of
    their symbols. *)
Theorem holdings_listing :
  forall portfolio_id db,
    PortfolioService.get_portfolio_holdings portfolio_id db
    ≡ₚ List.filter (fun h => bool_decide (Holding.portfolio_id h = portfolio_id))
         (Database.holdings db) /\
    Sorted PortfolioService.symbol_le
      (PortfolioService.get_portfolio_holdings portfolio_id db) /\
    (forall h,
       h ∈ PortfolioService.get_portfolio_holdings portfolio_id db <->
       h ∈ Database.holdings db /\ Holding.portfolio_id h = portfolio_id).
Proof.
  intros portfolio_id db. unfold PortfolioService.get_portfolio_holdings.
  split; [ apply merge_sort_Permutation | ].
  split; [ apply (Sorted_merge_sort PortfolioService.symbol_le) | ].
  intros h. rewrite merge_sort_Permutation.
  rewrite list_elem_of_In, filter_In, <- list_elem_of_In.
  rewrite bool_decide_eq_true. reflexivity.
Qed.

Example listing_by_symbol :
  Holding.symbol <$> PortfolioService.get_portfolio_holdings 1 two_portfolio_database
  = ["AAPL"; "MSFT"]%string.
Proof. vm_compute. reflexivity. Qed.

(** X23: [update_portfolio] on an id that is not stored returns none and
    leaves the store as it is.  On a stored id it keeps the id and the
    creation time, takes the name and the description that are given and
    keeps those that are not, stamps the update time, and stores the
    result, which [get_portfolio] then finds; the other portfolios, the
    holdings and the quotes are as before. *)
Theorem update_portfolio_effect :
  forall now portfolio_id portfolio_data db,
    (Database.get_portfolio portfolio_id db = None ->
     PortfolioService.update_portfolio now portfolio_id portfolio_data db = (None, db)) /\
    (forall portfolio,
       Database.get_portfolio portfolio_id db = Some portfolio ->
       exists portfolio',
         fst (PortfolioService.update_portfolio now portfolio_id portfolio_data db)
         = Some portfolio' /\
         Portfolio.id portfolio' = Some portfolio_id /\
         Portfolio.created_at portfolio' = Portfolio.created_at portfolio /\
         Portfolio.updated_at portfolio' = now /\
         Portfolio.name portfolio'
         = default (Portfolio.name portfolio) (PortfolioUpdate.name portfolio_data) /\
         Portfolio.description portfolio'
         = default (Portfolio.description portfolio)
             (PortfolioUpdate.description portfolio_data) /\
         let db' := snd (PortfolioService.update_portfolio now portfolio_id portfolio_data db) in
         PortfolioService.get_portfolio portfolio_id db' = Some portfolio' /\
         (forall other, other <> portfolio_id ->
            PortfolioService.get_portfolio other db'
            = PortfolioService.get_portfolio other db) /\
         Database.holdings db' = Database.holdings db /\
         Database.price_history db' = Database.price_history db).
Proof.
  intros now portfolio_id portfolio_data db. split.
  - intros Hn. unfold PortfolioService.update_portfolio. rewrite Hn. reflexivity.
  - intros portfolio Hg. unfold PortfolioService.update_portfolio. rewrite Hg.
    assert (Hid : Portfolio.id portfolio = Some portfolio_id).
    { unfold Database.get_portfolio in Hg. apply find_some in Hg as [_ Hid].
      apply bool_decide_eq_true in Hid. exact Hid. }
    eexists. split; [ reflexivity | ]. simpl.
    set (portfolio' := Portfolio.mk _ _ _ _ _).
    assert (Hid' : Portfolio.id portfolio' = Some portfolio_id) by exact Hid.
    repeat (split; [ first [ exact Hid | reflexivity ] | ]).
    unfold PortfolioService.get_portfolio, Database.get_portfolio. simpl.
    split; [ | split; [ | split; reflexivity ] ].
    + unfold Database.get_portfolio in Hg.
      pose proof (StoreFacts.find_replace_same
                    (fun p => bool_decide (Portfolio.id p = Some portfolio_id)) portfolio'
                    (Database.portfolios db)
                    (bool_decide_eq_true_2 _ Hid')) as E.
      rewrite Hg in E. exact E.
    + intros other Hne.
      apply (StoreFacts.find_replace_other
               (fun p => bool_decide (Portfolio.id p = Some portfolio_id))
               (fun p => bool_decide (Portfolio.id p = Some other)) portfolio').
      * intros x Hx. apply bool_decide_eq_true in Hx. apply bool_decide_eq_false.
        rewrite Hx. intros [= E]. congruence.
      * apply bool_decide_eq_false. rewrite Hid'. intros [= E]. congruence.
Qed.

Lemma update_portfolio_effect_witness :
  exists portfolio',
    PortfolioService.get_portfolio 1
      (snd (PortfolioService.update_portfolio 9 1 rename_to_growth two_portfolio_database))
    = Some portfolio' /\
    Portfolio.name portfolio' = "Growth"%string.
Proof.
  destruct (proj2 (update_portfolio_effect 9 1 rename_to_growth two_portfolio_database)
              (Portfolio.mk (Some 1) "Tech" "" 0 0) eq_refl)
    as (portfolio' & _ & _ & _ & _ & Hname & _ & Hget & _).
  exists portfolio'. split; [ exact Hget | exact Hname ].
Defined.

(** X24: [get_all_portfolios] lists every stored portfolio, each once per
    row, in ascending order of the names. *)
Theorem portfolios_listing :
  forall db,
    PortfolioService.get_all_portfolios db ≡ₚ Database.portfolios db /\
    Sorted PortfolioService.name_le (PortfolioService.get_all_portfolios db).
Proof.
  intros db. unfold PortfolioService.get_all_portfolios.
  split; [ apply merge_sort_Permutation | ].
  apply (Sorted_merge_sort PortfolioService.name_le).
Qed.

(** ** Valuing a portfolio *)

Module ValuationFacts.

Lemma listing_has_ids portfolio_id db :
  well_formed db ->
  Forall (fun holding => is_Some (Holding.id holding))
    (PortfolioService.get_portfolio_holdings portfolio_id db).
Proof.
  intros [_ Hall]. unfold PortfolioService.get_portfolio_holdings.
  rewrite merge_sort_Permutation. apply StoreFacts.Forall_filter_keep.
  eapply Forall_impl; [ exact Hall | ]. intros h (hid & Hid & _). eauto.
Qed.

(** [get_holdings_with_metrics] in the terms of the batch it runs. *)
Lemma get_holdings_with_metrics_eq ws order now portfolio_id s :
  let holdings := PortfolioService.get_portfolio_holdings portfolio_id (database s) in
  holdings <> [] ->
  PortfolioService.get_holdings_with_metrics ws order now portfolio_id s
  = (Metrics.holdings_with_metrics
       (fst (fst (get_multiple_prices ws order (Holding.symbol <$> holdings) s)))
       now holdings,
     snd (fst (get_multiple_prices ws order (Holding.symbol <$> holdings) s)),
     snd (get_multiple_prices ws order (Holding.symbol <$> holdings) s)).
Proof.
  intros holdings Hne. unfold PortfolioService.get_holdings_with_metrics. fold holdings.
  destruct holdings as [ | h hs] eqn:E; [ contradiction | ].
  destruct (get_multiple_prices ws order (Holding.symbol <$> h :: hs) s) as [[prices s'] evs].
  reflexivity.
Qed.

Lemma get_portfolio_summary_eq ws order now portfolio_id s portfolio :
  Database.get_portfolio portfolio_id (database s) = Some portfolio ->
  PortfolioService.get_portfolio_summary ws order now portfolio_id s
  = (Some (Metrics.portfolio_summary portfolio_id (Portfolio.name portfolio) now
             (fst (fst (PortfolioService.get_holdings_with_metrics ws order now
                          portfolio_id s)))),
     snd (fst (PortfolioService.get_holdings_with_metrics ws order now portfolio_id s)),
     snd (PortfolioService.get_holdings_with_metrics ws order now portfolio_id s)).
Proof.
  intros Hp. unfold PortfolioService.get_portfolio_summary. rewrite Hp.
  destruct (PortfolioService.get_holdings_with_metrics ws order now portfolio_id s)
    as [[hwm s'] evs]. reflexivity.
Qed.

Lemma summary_total_holdings portfolio_id portfolio_name now hs :
  PortfolioSummary.total_holdings
    (Metrics.portfolio_summary portfolio_id portfolio_name now hs)
  = Z.of_nat (length hs) /\
  PortfolioSummary.portfolio_id
    (Metrics.portfolio_summary portfolio_id portfolio_name now hs) = portfolio_id /\
  PortfolioSummary.portfolio_name
    (Metrics.portfolio_summary portfolio_id portfolio_name now hs) = portfolio_name.
Proof.
  unfold Metrics.portfolio_summary. destruct hs as [ | h hs]; [ repeat split | ].
  destruct (Metrics.totals (h :: hs)). repeat split.
Qed.

End ValuationFacts.

(** X25: valuing a portfolio calls the Quote Source at most once for each
    holding listed for it, and not at all when it lists none; it changes
    neither the portfolios nor the holdings; and the summary of a
    portfolio that is not stored is none, with no call and no change. *)
Theorem valuation_calls :
  forall ws order now portfolio_id s,
    let listing := PortfolioService.get_portfolio_holdings portfolio_id (database s) in
    let r := PortfolioService.get_holdings_with_metrics ws order now portfolio_id s in
    (length (List.filter is_TickerCall (snd r)) <= length listing)%nat /\
    Database.holdings (database (snd (fst r))) = Database.holdings (database s) /\
    Database.portfolios (database (snd (fst r))) = Database.portfolios (database s) /\
    (forall portfolio,
       Database.get_portfolio portfolio_id (database s) = Some portfolio ->
       snd (PortfolioService.get_portfolio_summary ws order now portfolio_id s) = snd r /\
       snd (fst (PortfolioService.get_portfolio_summary ws order now portfolio_id s))
       = snd (fst r)) /\
    (Database.get_portfolio portfolio_id (database s) = None ->
     PortfolioService.get_portfolio_summary ws order now portfolio_id s = (None, s, [])).
Proof.
  intros ws order now portfolio_id s listing r.
  assert (H : (length (List.filter is_TickerCall (snd r)) <= length listing)%nat /\
              Database.holdings (database (snd (fst r))) = Database.holdings (database s) /\
              Database.portfolios (database (snd (fst r)))
              = Database.portfolios (database s)).
  { subst r. destruct listing as [ | h hs] eqn:E.
    - unfold PortfolioService.get_holdings_with_metrics. fold listing. rewrite E.
      simpl. repeat split. lia.
    - rewrite ValuationFacts.get_holdings_with_metrics_eq
        by (fold listing; rewrite E; discriminate).
      fold listing. rewrite E. cbn [fst snd]. split.
      + rewrite TraceFacts.ticker_calls.
        etransitivity; [ apply TraceFacts.count_misses_le | ].
        rewrite length_fmap. reflexivity.
      + destruct (BatchFrameFacts.changed_within_fold ws (Holding.symbol <$> h :: hs) s
                    (order ++ seq 0 (length (Holding.symbol <$> h :: hs)))
                    (mkLoop (fst <$> imap (start ws s) (Holding.symbol <$> h :: hs)) s
                       (concat (snd <$> imap (start ws s) (Holding.symbol <$> h :: hs))))
                    (BatchFrameFacts.changed_within_refl _ s))
          as (_ & _ & _ & Hp & Hh & _).
        rewrite TraceFacts.get_multiple_prices_state. unfold gather. cbn [fst snd].
        split; assumption. }
  destruct H as (H1 & H2 & H3). repeat split; try assumption.
  - rewrite (ValuationFacts.get_portfolio_summary_eq _ _ _ _ _ _ H). reflexivity.
  - rewrite (ValuationFacts.get_portfolio_summary_eq _ _ _ _ _ _ H). reflexivity.
  - intros Hn. unfold PortfolioService.get_portfolio_summary. rewrite Hn. reflexivity.
Qed.

(** X26: in a well-formed store the valuation returns one valued holding
    for each holding listed for the portfolio, in the order of the
    listing, and the summary of a stored portfolio counts exactly those
    holdings and carries the portfolio's id and name. *)
Theorem valuation_covers_listing :
  forall ws order now portfolio_id s,
    well_formed (database s) ->
    let listing := PortfolioService.get_portfolio_holdings portfolio_id (database s) in
    let valued :=
      fst (fst (PortfolioService.get_holdings_with_metrics ws order now portfolio_id s)) in
    Holding.symbol <$> listing = HoldingWithMetrics.symbol <$> valued /\
    Holding.id <$> listing = (fun h => Some (HoldingWithMetrics.id h)) <$> valued /\
    (forall portfolio,
       Database.get_portfolio portfolio_id (database s) = Some portfolio ->
       exists summary,
         fst (fst (PortfolioService.get_portfolio_summary ws order now portfolio_id s))
         = Some summary /\
         PortfolioSummary.total_holdings summary = Z.of_nat (length listing) /\
         PortfolioSummary.portfolio_id summary = portfolio_id /\
         PortfolioSummary.portfolio_name summary = Portfolio.name portfolio).
Proof.
  intros ws order now portfolio_id s Hwf listing valued.
  assert (H : Holding.id <$> listing = (fun h => Some (HoldingWithMetrics.id h)) <$> valued /\
              Holding.symbol <$> listing = HoldingWithMetrics.symbol <$> valued).
  { subst valued. destruct listing as [ | h hs] eqn:E.
    - unfold PortfolioService.get_holdings_with_metrics. fold listing. rewrite E.
      split; reflexivity.
    - rewrite ValuationFacts.get_holdings_with_metrics_eq
        by (fold listing; rewrite E; discriminate).
      fold listing. rewrite E. cbn [fst snd].
      pose proof (ValuationFacts.listing_has_ids portfolio_id (database s) Hwf) as Hids.
      fold listing in Hids. rewrite E in Hids.
      destruct (ValueFacts.valued_holdings_in_order_aux
                  (fst (fst (get_multiple_prices ws order (Holding.symbol <$> h :: hs) s)))
                  now (h :: hs) Hids) as (E1 & E2 & _).
      split; assumption. }
  destruct H as [Hi Hs]. split; [ exact Hs | ]. split; [ exact Hi | ].
  intros portfolio Hp.
  rewrite (ValuationFacts.get_portfolio_summary_eq _ _ _ _ _ _ Hp). cbn [fst snd].
  eexists. split; [ reflexivity | ]. fold valued.
  destruct (ValuationFacts.summary_total_holdings portfolio_id (Portfolio.name portfolio)
              now valued) as (-> & -> & ->).
  split; [ | split; reflexivity ].
  f_equal. rewrite <- (length_fmap Holding.symbol listing), Hs, length_fmap. reflexivity.
Qed.

(** X27: in a well-formed store, a holding whose symbol no other holding
    of the listing shares is valued at the price that the resolution of
    its symbol alone, from the state at the time of the call, returns:
    neither the other holdings' resolutions nor the order in which the
    provider answers has any part in it. *)
Theorem valuation_isolated :
  forall ws order now portfolio_id s (i : nat) holding,
    well_formed (database s) ->
    PortfolioService.get_portfolio_holdings portfolio_id (database s) !! i = Some holding ->
    (forall (j : nat) other,
       j <> i ->
       PortfolioService.get_portfolio_holdings portfolio_id (database s) !! j = Some other ->
       Holding.symbol other <> Holding.symbol holding) ->
    exists h,
      fst (fst (PortfolioService.get_holdings_with_metrics ws order now portfolio_id s)) !! i
      = Some h /\
      HoldingWithMetrics.symbol h = Holding.symbol holding /\
      HoldingWithMetrics.current_price h
      = fst (fst (get_current_price (ws i) (Holding.symbol holding) s)).
Proof.
  intros ws order now portfolio_id s i holding Hwf Hi Honly.
  set (listing := PortfolioService.get_portfolio_holdings portfolio_id (database s)) in *.
  assert (Hne : listing <> []) by (intros E; rewrite E in Hi; discriminate).
  rewrite (ValuationFacts.get_holdings_with_metrics_eq ws order now portfolio_id s Hne).
  fold listing. cbn [fst snd].
  set (symbols := Holding.symbol <$> listing).
  set (prices := fst (fst (get_multiple_prices ws order symbols s))).
  destruct (ValueFacts.valued_holdings_in_order_aux prices now listing
              (ValuationFacts.listing_has_ids portfolio_id (database s) Hwf))
    as (_ & Es & Ep).
  assert (Hsi : symbols !! i = Some (Holding.symbol holding)).
  { subst symbols. rewrite list_lookup_fmap, Hi. reflexivity. }
  assert (Hsonly : forall j : nat, j <> i -> symbols !! j <> Some (Holding.symbol holding)).
  { intros j Hj. subst symbols. rewrite list_lookup_fmap.
    destruct (listing !! j) as [other | ] eqn:Eo; simpl; [ | discriminate ].
    intros [= E]. exact (Honly j other Hj Eo E). }
  assert (Hprice : prices !! Holding.symbol holding
                   = Some (fst (fst (get_current_price (ws i) (Holding.symbol holding) s)))).
  { subst prices. rewrite JoinFacts.get_multiple_prices_join. unfold join.
    rewrite (BatchFacts.join_last symbols _ ∅ i _ _ Hsi
               (IsolationFacts.gather_isolated ws order symbols s i _ Hsi Hsonly));
      [ reflexivity | ].
    intros j Hlt. apply Hsonly. lia. }
  pose proof (f_equal (fun l => l !! i) Es) as Esi.
  pose proof (f_equal (fun l => l !! i) Ep) as Epi.
  cbv beta in Esi, Epi.
  rewrite !list_lookup_fmap in Esi. rewrite !list_lookup_fmap in Epi.
  rewrite Hi in Esi, Epi.
  destruct (Metrics.holdings_with_metrics prices now listing !! i) as [h | ];
    simpl in Esi, Epi; [ | discriminate ].
  exists h. split; [ reflexivity | ]. split; [ congruence | ].
  injection Epi as <-. unfold dict_get. rewrite Hprice. reflexivity.
Qed.

Lemma valuation_isolated_witness :
  exists h,
    fst (fst (PortfolioService.get_holdings_with_metrics one_invalid_world [1; 0]%nat 0 1
                two_portfolio_system)) !! 0%nat = Some h /\
    HoldingWithMetrics.symbol h = "AAPL"%string /\
    HoldingWithMetrics.current_price h = Some (Decimal.mk 1000 (-1)).
Proof.
  destruct (valuation_isolated one_invalid_world [1; 0]%nat 0 1 two_portfolio_system 0%nat
              (Holding.mk (Some 3) 1 "AAPL" STOCK (Decimal.mk 10 0) (Decimal.mk 150 0)
                 0 "" 0 0))
    as (h & Hh & Hs & Hp).
  - split.
    + repeat (apply NoDup_cons_2;
              [ rewrite ?elem_of_cons, elem_of_nil; intuition discriminate | ]).
      apply NoDup_nil_2.
    + repeat (constructor; [ eexists; split; [ reflexivity | reflexivity ] | ]).
      constructor.
  - vm_compute. reflexivity.
  - intros [ | [ | j]] other Hj Ho; vm_compute in Ho; [ congruence | | discriminate ].
    injection Ho as <-. discriminate.
  - exists h. split; [ exact Hh | ]. split; [ exact Hs | ].
    rewrite Hp. vm_compute. reflexivity.
Defined.

Lemma valuation_covers_listing_witness :
  Holding.symbol
    <$> PortfolioService.get_portfolio_holdings 1 (database two_portfolio_system)
  = HoldingWithMetrics.symbol
      <$> fst (fst (PortfolioService.get_holdings_with_metrics one_invalid_world []
                      0 1 two_portfolio_system)).
Proof.
  apply (valuation_covers_listing one_invalid_world [] 0 1 two_portfolio_system).
  split.
  - repeat (apply NoDup_cons_2;
            [ rewrite ?elem_of_cons, elem_of_nil; intuition discriminate | ]).
    apply NoDup_nil_2.
  - repeat (constructor; [ eexists; split; [ reflexivity | reflexivity ] | ]).
    constructor.
Defined.
